(** * Alert pipeline of moddiy: classifier, dedup cache and alert store

    A shallow embedding of
      - app/lib/services/alertService.ts (class AlertService),
      - the module imported as [~/utils/shell] (unnamed/part_002):
        detectModuleNotFoundErrors, detectGoroutineErrors,
        processModuleErrors, processConsoleErrors,
      - the ChatAlert component (unnamed/part_005): getPreviewErrorInfo,
        getNpmErrorInfo, filteredAlerts, getMaxSeverity, classifyErrorType,
      - app/lib/webcontainer/index.ts: the callback of
        debouncedProcessErrors, its timer, and the preview-message listener,
    followed by the properties established about them.

    Conventions.  A JavaScript string is a [string], one [ascii] per code
    unit; text outside ASCII is kept as its UTF-8 bytes, and the [i] flag of a
    regular expression folds the case of ASCII letters only (the patterns of
    the source are ASCII).  Numbers that the code uses as integers
    (timestamps, counters, line numbers) are [Z].  [Date.now()], [uuidv4()]
    and [Math.random()] are inputs of the functions that call them.  A
    JavaScript [Map] is an insertion-ordered association list, because the
    cache compaction of the source sorts [Array.from(map.entries())] with the
    stable [Array.prototype.sort].  The timer of [setTimeout] is a pending
    text with the time from which it is due; the runtime is the one who looks
    at it.  Logging is left out. *)

From Stdlib Require Import List String Ascii ZArith Bool Arith Lia DecimalString
  Permutation Sorted.
Import ListNotations.
Local Open Scope string_scope.
Local Open Scope list_scope.

(* ===================================================================== *)
(** ** Data model (app/types/actions.ts)                                  *)
(* ===================================================================== *)

Inductive Severity := SevInfo | SevWarning | SevError | SevCritical.
Inductive Source := SrcTerminal | SrcPreview | SrcSystem.

Definition Severity_eqb (a b : Severity) : bool :=
  match a, b with
  | SevInfo, SevInfo | SevWarning, SevWarning
  | SevError, SevError | SevCritical, SevCritical => true
  | _, _ => false
  end.

(** [metadata.moduleErrorInfo] as built by [createModuleErrorAlerts]. *)
Record ModuleErrorInfo := {
  mei_moduleName : string;
  mei_errorCount : Z;
  mei_filesAffected : string;
  mei_contextCode : string;
  mei_docsUrl : option string;
  mei_suggestedFixes : list string;
  mei_importType : string;
  mei_environment : string;
  mei_relatedPackages : list string;
  mei_errorTime : Z;
  mei_stackTrace : list string
}.

(** The [metadata] bags the producers of this repository build. *)
Inductive Metadata :=
| MetaModuleErrorInfo (info : ModuleErrorInfo)
| MetaTerminalModule (moduleName filePath : string) (loc : option (Z * Z))
| MetaTerminalGoroutine (goroutineId errorType state : string)
                        (loc : option (string * option Z))
| MetaNpmError (moduleName : string).

Record ActionAlert := {
  id : string;
  type : string;
  title : string;
  description : string;
  content : string;
  source : option Source;
  severity : Severity;
  timestamp : Z;
  metadata : option Metadata;
  actionable : option bool;
  suggestedAction : option string
}.

(** Argument of [createAlert]: [Omit<ActionAlert,'id'|'timestamp'> &
    {id?, timestamp?}]; [severity] is read through [|| 'error'], so a missing
    severity is representable. *)
Record AlertData := {
  d_id : option string;
  d_type : string;
  d_title : string;
  d_description : string;
  d_content : string;
  d_source : option Source;
  d_severity : option Severity;
  d_timestamp : option Z;
  d_metadata : option Metadata;
  d_actionable : option bool;
  d_suggestedAction : option string
}.

(** Order-preserving sub-list: [subseq l1 l2] when [l1] is [l2] with some
  elements dropped. *)
Inductive subseq {A} : list A -> list A -> Prop :=
| subseq_nil : subseq [] []
| subseq_skip : forall x l1 l2, subseq l1 l2 -> subseq l1 (x :: l2)
| subseq_cons : forall x l1 l2, subseq l1 l2 -> subseq (x :: l1) (x :: l2).


(* ===================================================================== *)
(** ** JavaScript strings                                                 *)
(* ===================================================================== *)

Module Js.

Definition chars (s : string) : list ascii := list_ascii_of_string s.
Definition str (l : list ascii) : string := string_of_list_ascii l.

(** [s.startsWith(p)] *)
Fixpoint startsWith (s p : string) : bool :=
  match p, s with
  | EmptyString, _ => true
  | String _ _, EmptyString => false
  | String a p', String b s' => if Ascii.eqb a b then startsWith s' p' else false
  end.

(** [s.includes(sub)] *)
Fixpoint includes (s sub : string) : bool :=
  if startsWith s sub then true
  else match s with
       | EmptyString => false
       | String _ s' => includes s' sub
       end.

(** [s.substring(0, n)] *)
Definition substring0 (n : nat) (s : string) : string := String.substring 0 n s.

(** White space and line terminators among the code units below 256:
    what [\s] matches and what [trim] strips. *)
Definition isSpace (c : ascii) : bool :=
  let n := nat_of_ascii c in
  ((9 <=? n) && (n <=? 13) || (n =? 32) || (n =? 160))%nat.

Definition isDigit (c : ascii) : bool :=
  let n := nat_of_ascii c in ((48 <=? n) && (n <=? 57))%nat.

Fixpoint dropSpaces (l : list ascii) : list ascii :=
  match l with
  | c :: r => if isSpace c then dropSpaces r else l
  | [] => []
  end.

(** [s.trim()] *)
Definition trim (s : string) : string :=
  str (rev (dropSpaces (rev (dropSpaces (chars s))))).

(** [s.split(sep)] for a one-character separator. *)
Fixpoint splitChars (sep : ascii) (cur : list ascii) (l : list ascii)
  : list string :=
  match l with
  | [] => [str (rev cur)]
  | c :: r => if Ascii.eqb c sep then str (rev cur) :: splitChars sep [] r
              else splitChars sep (c :: cur) r
  end.

Definition split (sep : ascii) (s : string) : list string :=
  splitChars sep [] (chars s).

(** [l.join(sep)] *)
Fixpoint join (sep : string) (l : list string) : string :=
  match l with
  | [] => ""
  | [x] => x
  | x :: r => x ++ sep ++ join sep r
  end.

(** [parseInt(s, 10)] on a string of decimal digits (the only use in the
    source is on text matched by [\d+]); the value is kept exact. *)
Definition parseInt (s : string) : Z :=
  fold_left (fun acc c => 10 * acc + Z.of_nat (nat_of_ascii c - 48))%Z
            (chars s) 0%Z.

(** Conversion of an integer to text, as in a template string. *)
Definition ofInt (z : Z) : string :=
  DecimalString.NilZero.string_of_int (Z.to_int z).

(** [[...new Set(l)]]: first occurrences, in order. *)
Fixpoint dedup (seen : list string) (l : list string) : list string :=
  match l with
  | [] => []
  | x :: r => if existsb (String.eqb x) seen then dedup seen r
              else x :: dedup (x :: seen) r
  end.

(** [Array.prototype.findIndex]; [None] stands for [-1]. *)
Fixpoint findIndex {A} (p : A -> bool) (l : list A) : option nat :=
  match l with
  | [] => None
  | x :: r => if p x then Some 0%nat
              else match findIndex p r with
                   | Some i => Some (S i)
                   | None => None
                   end
  end.

(** [l.splice(i, 1)]: the list without its element of index [i]. *)
Definition splice1 {A} (i : nat) (l : list A) : list A :=
  firstn i l ++ skipn (S i) l.

Definition lf : ascii := ascii_of_nat 10.
Definition nl : string := String lf "".
Definition dq : string := String (ascii_of_nat 34) "".

(** [s.replace(pat, rep)] for a string pattern: the first occurrence. *)
Fixpoint replaceFirst (pat rep s : string) : string :=
  if startsWith s pat
  then (rep ++ String.substring (String.length pat) (String.length s) s)%string
  else match s with
       | EmptyString => EmptyString
       | String c s' => String c (replaceFirst pat rep s')
       end.

(** An insertion-ordered [Map<string, V>]. *)
Section MapOps.
Context {V : Type}.

Fixpoint mget (k : string) (m : list (string * V)) : option V :=
  match m with
  | [] => None
  | (k', v) :: r => if String.eqb k' k then Some v else mget k r
  end.

(** [m.set(k, v)]: an existing key keeps its position. *)
Fixpoint mset (k : string) (v : V) (m : list (string * V))
  : list (string * V) :=
  match m with
  | [] => [(k, v)]
  | (k', v') :: r => if String.eqb k' k then (k, v) :: r
                     else (k', v') :: mset k v r
  end.

(** [entries.sort((a, b) => key(b) - key(a))]: stable, descending. *)
Fixpoint insertDesc (key : V -> Z) (x : string * V)
         (l : list (string * V)) : list (string * V) :=
  match l with
  | [] => [x]
  | y :: r => if (key (snd y) <? key (snd x))%Z then x :: l
              else y :: insertDesc key x r
  end.

Definition sortDesc (key : V -> Z) (l : list (string * V))
  : list (string * V) :=
  fold_left (fun acc x => insertDesc key x acc) l [].
End MapOps.

End Js.

(* ===================================================================== *)
(** ** Regular expressions                                                *)
(* ===================================================================== *)

(** A backtracking matcher for the fragment of JavaScript regular
  expressions the source uses: literals, [.], character classes, greedy and
  lazy repetition, alternation, capture groups, the end-of-input anchor and
  the [i] flag; [exec] with the [g] flag is [execAll].  Priorities are those
  of the specification of [RegExp]: the leftmost start position wins, then
  the first alternative, a greedy repetition tries one more iteration first
  and a lazy one tries it last. *)
Module Regex.

Inductive item :=
| IChar (c : ascii)
| IRange (lo hi : ascii)
| ISpace                      (* \s *)
| IDigit.                     (* \d *)

Inductive re :=
| Lit (s : string)                      (* literal text *)
| Dot                                   (* .  *)
| AnyChar                               (* [^] and [\s\S] *)
| Class (negated : bool) (items : list item)
| Seq (r1 r2 : re)
| Alt (r1 r2 : re)
| Star (greedy : bool) (r : re)
| Group (n : nat) (r : re)              (* n-th capturing parenthesis *)
| Eos.                                  (* $ without the m flag *)

Definition Eps : re := Lit "".
Definition Plus (greedy : bool) (r : re) : re := Seq r (Star greedy r).
Definition Opt (r : re) : re := Alt r Eps.
Definition cat (l : list re) : re := fold_right Seq Eps l.
Definition Not (cs : string) : re := Class true (map IChar (Js.chars cs)).
Definition NotSpaceOr (cs : string) : re :=
  Class true (ISpace :: map IChar (Js.chars cs)).
Definition Space : re := Class false [ISpace].
Definition Digit : re := Class false [IDigit].

Definition lower (c : ascii) : ascii :=
  let n := nat_of_ascii c in
  if ((65 <=? n) && (n <=? 90))%nat then ascii_of_nat (n + 32) else c.

Definition upper (c : ascii) : ascii :=
  let n := nat_of_ascii c in
  if ((97 <=? n) && (n <=? 122))%nat then ascii_of_nat (n - 32) else c.

Definition charEq (icase : bool) (a b : ascii) : bool :=
  if icase then Ascii.eqb (lower a) (lower b) else Ascii.eqb a b.

Definition itemHas (it : item) (c : ascii) : bool :=
  match it with
  | IChar a => Ascii.eqb a c
  | IRange lo hi =>
      ((nat_of_ascii lo <=? nat_of_ascii c)
       && (nat_of_ascii c <=? nat_of_ascii hi))%nat
  | ISpace => Js.isSpace c
  | IDigit => Js.isDigit c
  end.

Definition classHas (icase : bool) (items : list item) (c : ascii) : bool :=
  existsb (fun it =>
             itemHas it c
             || (icase && (itemHas it (lower c) || itemHas it (upper c))))
          items.

Definition Caps := list (nat * string).
Definition Cont := list ascii -> nat -> Caps -> option (nat * Caps).

Fixpoint litGo (icase : bool) (l : list ascii) (s : list ascii) (pos : nat)
  : option (list ascii * nat) :=
  match l with
  | [] => Some (s, pos)
  | c :: l' =>
      match s with
      | d :: s' => if charEq icase c d then litGo icase l' s' (S pos) else None
      | [] => None
      end
  end.

(** [go icase r s pos caps k]: match [r] against the input whose remaining
    part is [s], [pos] code units having been read, then continue with [k];
    [None] makes the caller backtrack. *)
Fixpoint go (icase : bool) (r : re) (s : list ascii) (pos : nat)
         (caps : Caps) (k : Cont) {struct r} : option (nat * Caps) :=
  match r with
  | Lit l =>
      match litGo icase (Js.chars l) s pos with
      | Some (s', pos') => k s' pos' caps
      | None => None
      end
  | Dot =>
      match s with
      | d :: s' =>
          if (Ascii.eqb d (ascii_of_nat 10) || Ascii.eqb d (ascii_of_nat 13))
          then None else k s' (S pos) caps
      | [] => None
      end
  | AnyChar =>
      match s with
      | _ :: s' => k s' (S pos) caps
      | [] => None
      end
  | Class negated items =>
      match s with
      | d :: s' =>
          if xorb negated (classHas icase items d) then k s' (S pos) caps
          else None
      | [] => None
      end
  | Seq r1 r2 =>
      go icase r1 s pos caps (fun s' pos' caps' => go icase r2 s' pos' caps' k)
  | Alt r1 r2 =>
      match go icase r1 s pos caps k with
      | Some x => Some x
      | None => go icase r2 s pos caps k
      end
  | Star greedy r1 =>
      (fix loop (fuel : nat) (s : list ascii) (pos : nat) (caps : Caps)
         {struct fuel} : option (nat * Caps) :=
         match fuel with
         | O => k s pos caps
         | S fuel' =>
             let again :=
               go icase r1 s pos caps
                  (fun s' pos' caps' =>
                     if (pos' =? pos)%nat then None
                     else loop fuel' s' pos' caps') in
             if greedy then
               match again with
               | Some x => Some x
               | None => k s pos caps
               end
             else
               match k s pos caps with
               | Some x => Some x
               | None => again
               end
         end) (S (List.length s)) s pos caps
  | Group n r1 =>
      go icase r1 s pos caps
         (fun s' pos' caps' =>
            k s' pos' ((n, Js.str (firstn (pos' - pos) s)) :: caps'))
  | Eos =>
      match s with
      | [] => k s pos caps
      | _ :: _ => None
      end
  end.

(** A match: index of its first code unit, index after its last one, the
    matched text ([match[0]]) and the captures. *)
Record Match := {
  m_index : nat;
  m_end : nat;
  m_text : string;
  m_caps : Caps
}.

(** [match[n]] for [n >= 1]; [None] is [undefined]. *)
Fixpoint group (n : nat) (c : Caps) : option string :=
  match c with
  | [] => None
  | (m, v) :: r => if (m =? n)%nat then Some v else group n r
  end.

Definition grp (n : nat) (m : Match) : option string := group n (m_caps m).

(** [match[n] || ''] *)
Definition grpOr (n : nat) (m : Match) : string :=
  match grp n m with Some v => v | None => "" end.

(** Leftmost match at or after the current position. *)
Fixpoint search (icase : bool) (r : re) (s : list ascii) (pos : nat)
  : option Match :=
  match go icase r s pos [] (fun _ e c => Some (e, c)) with
  | Some (e, c) =>
      Some {| m_index := pos; m_end := e;
              m_text := Js.str (firstn (e - pos) s); m_caps := c |}
  | None =>
      match s with
      | [] => None
      | _ :: s' => search icase r s' (S pos)
      end
  end.

(** [text.match(re)] for a regular expression without the [g] flag. *)
Definition matchFirst (icase : bool) (r : re) (text : string) : option Match :=
  search icase r (Js.chars text) 0.

(** The loop [while ((match = re.exec(text)) !== null)] for a regular
    expression with the [g] flag whose matches are never empty: each call
    resumes at [lastIndex], the end of the previous match. *)
Fixpoint execLoop (fuel : nat) (icase : bool) (r : re) (s : list ascii)
         (pos : nat) : list Match :=
  match fuel with
  | O => []
  | S fuel' =>
      match search icase r s pos with
      | None => []
      | Some m =>
          m :: execLoop fuel' icase r (skipn (m_end m - pos) s) (m_end m)
      end
  end.

Definition execAll (icase : bool) (r : re) (text : string) : list Match :=
  execLoop (S (String.length text)) icase r (Js.chars text) 0.

End Regex.
(* ===================================================================== *)
(** ** What a match is                                                    *)
(* ===================================================================== *)

(** A declarative reading of the regular expressions, used to state what the
    matcher can return: [Matches icase r w rest c c'] when [r] matches the
    word [w] followed in the input by [rest], turning the captures [c] into
    [c']. *)
Module RegexSem.
Import Regex.

Inductive Iter (P : list ascii -> list ascii -> Caps -> Caps -> Prop)
  : list ascii -> list ascii -> Caps -> Caps -> Prop :=
| Iter_done : forall rest c, Iter P [] rest c c
| Iter_more : forall w1 w2 rest c c1 c2,
    w1 <> [] ->
    P w1 (w2 ++ rest) c c1 ->
    Iter P w2 rest c1 c2 ->
    Iter P (w1 ++ w2) rest c c2.

Fixpoint Matches (icase : bool) (r : re) (w rest : list ascii) (c c' : Caps)
  : Prop :=
  match r with
  | Lit l =>
      c' = c /\ Forall2 (fun a b => charEq icase a b = true) (Js.chars l) w
  | Dot =>
      c' = c
      /\ exists d, w = [d]
                   /\ Ascii.eqb d (ascii_of_nat 10) = false
                   /\ Ascii.eqb d (ascii_of_nat 13) = false
  | AnyChar => c' = c /\ exists d, w = [d]
  | Class negated items =>
      c' = c /\ exists d, w = [d] /\ xorb negated (classHas icase items d) = true
  | Seq r1 r2 =>
      exists w1 w2 c1,
        w = w1 ++ w2
        /\ Matches icase r1 w1 (w2 ++ rest) c c1
        /\ Matches icase r2 w2 rest c1 c'
  | Alt r1 r2 => Matches icase r1 w rest c c' \/ Matches icase r2 w rest c c'
  | Star _ r1 => Iter (Matches icase r1) w rest c c'
  | Group n r1 =>
      exists c1, Matches icase r1 w rest c c1 /\ c' = (n, Js.str w) :: c1
  | Eos => c' = c /\ w = [] /\ rest = []
  end.

(** The iteration of [Star] inside [go], under a name. *)
Definition starLoop (icase greedy : bool) (r1 : re) (k : Cont)
  : nat -> list ascii -> nat -> Caps -> option (nat * Caps) :=
  fix loop (fuel : nat) (s : list ascii) (pos : nat) (caps : Caps)
      {struct fuel} : option (nat * Caps) :=
    match fuel with
    | O => k s pos caps
    | S fuel' =>
        let again :=
          go icase r1 s pos caps
             (fun s' pos' caps' =>
                if (pos' =? pos)%nat then None
                else loop fuel' s' pos' caps') in
        if greedy then
          match again with
          | Some x => Some x
          | None => k s pos caps
          end
        else
          match k s pos caps with
          | Some x => Some x
          | None => again
          end
    end.

(** [s.toLowerCase()] on ASCII letters. *)
Definition toLower (s : string) : string := Js.str (map lower (Js.chars s)).

End RegexSem.
(* ===================================================================== *)
(** ** Classifier and grouper (app/utils/shell.ts)                        *)
(* ===================================================================== *)

(** [Date.now()] is an argument [now] of every function that reads the
  clock; one synchronous call sees one clock value. *)
Module Shell.
Import Regex.
Local Open Scope string_scope.

Record ErrorContext := {
  fullErrorMessage : string;
  ec_stackTrace : option (list string);
  errorTime : Z;
  environment : option string
}.

Record PackageJsonContext := {
  hasSimilarDeps : option bool;
  recommendedVersion : option string
}.

Record ModuleNotFoundError := {
  filePath : string;
  lineNumber : Z;
  columnNumber : Z;
  moduleName : string;
  contextCode : list string;
  errorLine : Z;
  docsUrl : option string;
  importType : option string;
  relatedPackages : option (list string);
  packageJsonContext : option PackageJsonContext;
  errorContext : option ErrorContext
}.

Record SourceLocation := {
  file : option string;
  line : option Z;
  function : option string
}.

Record GoroutineError := {
  errorType : string;
  message : string;
  stackTrace : list string;
  goroutineId : string;
  state : string;
  additionalInfo : option SourceLocation
}.

Inductive PrimaryError :=
| PrimaryModule (e : ModuleNotFoundError)
| PrimaryGoroutine (e : GoroutineError).

(** [ProcessedModuleError | ProcessedGoroutineError]; the [type] tag is the
    constructor of [primaryError]. *)
Record ProcessedError := {
  pe_moduleName : string;
  errorCount : Z;
  filesAffected : string;
  pe_title : string;
  pe_description : string;
  pe_content : string;
  pe_severity : Severity;
  pe_actionable : bool;
  suggestedFixes : list string;
  primaryError : PrimaryError
}.

Definition isModuleGroup (g : ProcessedError) : bool :=
  match primaryError g with PrimaryModule _ => true | _ => false end.

Record ProcessedErrorResult := {
  alertGroups : list ProcessedError;
  totalErrorCount : Z
}.

(** The [Partial<ModuleNotFoundError>] a rule's [process] returns. *)
Record ErrorData := {
  ed_moduleName : option string;
  ed_filePath : option string;
  ed_lineNumber : option Z;
  ed_columnNumber : option Z;
  ed_importType : option string;
  ed_relatedPackages : option (list string);
  ed_packageJsonContext : option PackageJsonContext;
  ed_errorContext : option ErrorContext
}.

Record ErrorPattern := {
  pattern : re;
  linePattern : option re;
  process : Match -> option Match -> Z -> ErrorData
}.

(** /(?:Error: )?Cannot find module '([^']+)'/gi *)
Definition reCannotFindModule : re :=
  cat [Opt (Lit "Error: "); Lit "Cannot find module '";
       Group 1 (Plus true (Not "'")); Lit "'"].

(** /at .*\(([^:]+):(\d+):(\d+)\)/i *)
Definition reStackFrame : re :=
  cat [Lit "at "; Star true Dot; Lit "("; Group 1 (Plus true (Not ":"));
       Lit ":"; Group 2 (Plus true Digit); Lit ":"; Group 3 (Plus true Digit);
       Lit ")"].

(** /npm ERR! code E404[\s\S]*?npm ERR! 404 Not Found[\s\S]*?npm ERR! 404\s+([^\s@]+(@[^\s]+)?) is not in the npm registry/gi *)
Definition reNpm404 : re :=
  cat [Lit "npm ERR! code E404"; Star false AnyChar;
       Lit "npm ERR! 404 Not Found"; Star false AnyChar;
       Lit "npm ERR! 404"; Plus true Space;
       Group 1 (cat [Plus true (NotSpaceOr "@");
                     Opt (Group 2 (cat [Lit "@"; Plus true (NotSpaceOr "")]))]);
       Lit " is not in the npm registry"].

(** /npm ERR! code ERESOLVE[\s\S]*?Found: ([^\s@]+)@([^\s]+)[\s\S]*?Could not resolve dependency[\s\S]*?peer ([^\s@]+)@/gi *)
Definition reEresolve : re :=
  cat [Lit "npm ERR! code ERESOLVE"; Star false AnyChar; Lit "Found: ";
       Group 1 (Plus true (NotSpaceOr "@")); Lit "@";
       Group 2 (Plus true (NotSpaceOr "")); Star false AnyChar;
       Lit "Could not resolve dependency"; Star false AnyChar; Lit "peer ";
       Group 3 (Plus true (NotSpaceOr "@")); Lit "@"].

(** /from ([^\s]+)/ *)
Definition reFrom : re := cat [Lit "from "; Group 1 (Plus true (NotSpaceOr ""))].

(** /No matching version found for ([^\s@]+)@([^\s.:]+)/gi *)
Definition reNoMatchingVersion : re :=
  cat [Lit "No matching version found for ";
       Group 1 (Plus true (NotSpaceOr "@")); Lit "@";
       Group 2 (Plus true (NotSpaceOr ".:"))].

(** /npm ERR! code EACCES[\s\S]*?npm ERR! path ([^\n]+)/gi *)
Definition reEacces : re :=
  cat [Lit "npm ERR! code EACCES"; Star false AnyChar; Lit "npm ERR! path ";
       Group 1 (Plus true (Class true [IChar Js.lf]))].

Definition context (m : Match) (now : Z) (env : option string) : ErrorContext :=
  {| fullErrorMessage := m_text m; ec_stackTrace := None;
     errorTime := now; environment := env |}.

Definition errorPatterns : list ErrorPattern :=
  [ {| pattern := reCannotFindModule;
       linePattern := Some reStackFrame;
       process := fun m lineMatch now =>
         let moduleName := grpOr 1 m in
         {| ed_moduleName := Some moduleName;
            ed_filePath := Some match lineMatch with
                                | Some lm => grpOr 1 lm
                                | None => ""
                                end;
            ed_lineNumber := Some match lineMatch with
                                  | Some lm => Js.parseInt (grpOr 2 lm)
                                  | None => 0%Z
                                  end;
            ed_columnNumber := Some match lineMatch with
                                    | Some lm => Js.parseInt (grpOr 3 lm)
                                    | None => 0%Z
                                    end;
            ed_importType :=
              Some (if Js.startsWith moduleName "." then "static" else "dynamic");
            ed_relatedPackages := None;
            ed_packageJsonContext := None;
            ed_errorContext := Some (context m now None) |} |};
    {| pattern := reNpm404;
       linePattern := None;
       process := fun m _ now =>
         let fullModuleName := grpOr 1 m in
         let moduleName := hd "" (Js.split "@" fullModuleName) in
         {| ed_moduleName := Some moduleName;
            ed_filePath := None; ed_lineNumber := None;
            ed_columnNumber := None; ed_importType := None;
            ed_relatedPackages := None;
            ed_packageJsonContext :=
              Some {| hasSimilarDeps := Some false;
                      recommendedVersion := Some "latest" |};
            ed_errorContext := Some (context m now (Some "node")) |} |};
    {| pattern := reEresolve;
       linePattern := None;
       process := fun m _ now =>
         let moduleName :=
           match grp 3 m with
           | Some v => if String.eqb v "" then grpOr 1 m else v
           | None => grpOr 1 m
           end in
         let requiredBy :=
           match matchFirst false reFrom (m_text m) with
           | Some fm => grpOr 1 fm
           | None => ""
           end in
         {| ed_moduleName := Some moduleName;
            ed_filePath := None; ed_lineNumber := None;
            ed_columnNumber := None; ed_importType := None;
            ed_relatedPackages := Some [Js.trim requiredBy];
            ed_packageJsonContext :=
              Some {| hasSimilarDeps := Some true;
                      recommendedVersion := Some "compatible" |};
            ed_errorContext := Some (context m now (Some "node")) |} |};
    {| pattern := reNoMatchingVersion;
       linePattern := None;
       process := fun m _ now =>
         {| ed_moduleName := Some (grpOr 1 m);
            ed_filePath := None; ed_lineNumber := None;
            ed_columnNumber := None; ed_importType := None;
            ed_relatedPackages := None;
            ed_packageJsonContext :=
              Some {| hasSimilarDeps := Some false;
                      recommendedVersion := Some "compatible" |};
            ed_errorContext := Some (context m now (Some "node")) |} |};
    {| pattern := reEacces;
       linePattern := None;
       process := fun m _ now =>
         {| ed_moduleName := Some "permissions";
            ed_filePath := Some (grpOr 1 m);
            ed_lineNumber := None; ed_columnNumber := None;
            ed_importType := None; ed_relatedPackages := None;
            ed_packageJsonContext := None;
            ed_errorContext := Some (context m now (Some "node")) |} |} ].

Definition orEmpty (o : option string) : string :=
  match o with Some v => v | None => "" end.
Definition orZero (o : option Z) : Z :=
  match o with Some v => v | None => 0%Z end.

(** The context lines gathered around the first line of the output naming
    [filePath] and [:lineNumber:]. *)
Definition contextLinesOf (output : string) (errorData : ErrorData)
  : list string :=
  let fp := orEmpty (ed_filePath errorData) in
  let ln := orZero (ed_lineNumber errorData) in
  if negb (String.eqb fp "") && negb (Z.eqb ln 0) then
    let codeLines := Js.split Js.lf output in
    match Js.findIndex
            (fun l => Js.includes l fp
                      && Js.includes l (":" ++ Js.ofInt ln ++ ":"))
            codeLines with
    | Some lineIndex =>
        skipn (lineIndex - 2) (firstn (lineIndex + 3) codeLines)
    | None => []
    end
  else [].

Definition recordOf (output : string) (errorData : ErrorData)
  : ModuleNotFoundError :=
  {| filePath := orEmpty (ed_filePath errorData);
     lineNumber := orZero (ed_lineNumber errorData);
     columnNumber := orZero (ed_columnNumber errorData);
     moduleName := orEmpty (ed_moduleName errorData);
     contextCode := contextLinesOf output errorData;
     errorLine := orZero (ed_lineNumber errorData);
     docsUrl := Some "https://nodejs.org/api/modules.html#modules_module_not_found";
     importType := ed_importType errorData;
     relatedPackages := ed_relatedPackages errorData;
     packageJsonContext := ed_packageJsonContext errorData;
     errorContext := ed_errorContext errorData |}.

Definition detectModuleNotFoundErrors (output : string) (now : Z)
  : list ModuleNotFoundError :=
  flat_map
    (fun p =>
       map (fun m =>
              let lineMatch :=
                match linePattern p with
                | Some lp => matchFirst true lp output
                | None => None
                end in
              recordOf output (process p m lineMatch now))
           (execAll true (pattern p) output))
    errorPatterns.

(** *** detectGoroutineErrors *)

Definition goroutineHeader : list re :=
  [Lit "goroutine "; Group 1 (Plus true Digit); Lit " [";
   Group 2 (Plus true (Not "]")); Lit "]"; Star false AnyChar].

(** /goroutine (\d+) \[([^\]]+)\][^]*?(?:fatal error: )?too many writes on closed pipe/gi *)
Definition reClosedPipe : re :=
  cat (goroutineHeader
       ++ [Opt (Lit "fatal error: "); Lit "too many writes on closed pipe"])%list.

(** /goroutine (\d+) \[([^\]]+)\][^]*?panic: ([^\n]+)/gi *)
Definition rePanic : re :=
  cat (goroutineHeader
       ++ [Lit "panic: "; Group 3 (Plus true (Class true [IChar Js.lf]))])%list.

(** /goroutine (\d+) \[([^\]]+)\][^]*?all goroutines are asleep - deadlock!/gi *)
Definition reDeadlock : re :=
  cat (goroutineHeader ++ [Lit "all goroutines are asleep - deadlock!"])%list.

(** /goroutine (\d+) \[([^\]]+)\][^]*?(?:error|fatal error): ([^\n]+)/gi *)
Definition reGeneral : re :=
  cat (goroutineHeader
       ++ [Alt (Lit "error") (Lit "fatal error"); Lit ": ";
           Group 3 (Plus true (Class true [IChar Js.lf]))])%list.

(** /([^/]+\.go):(\d+)(?:\s+([^(]+)\()?/ *)
Definition reGoLocation : re :=
  cat [Group 1 (cat [Plus true (Not "/"); Lit ".go"]); Lit ":";
       Group 2 (Plus true Digit);
       Opt (cat [Plus true Space; Group 3 (Plus true (Not "(")); Lit "("])].

Fixpoint stackLines (inStackTrace : bool) (lines : list string)
  : list string :=
  match lines with
  | [] => []
  | l :: r =>
      if Js.startsWith (Js.trim l) "goroutine " then stackLines true r
      else if inStackTrace && negb (String.eqb (Js.trim l) "")
           then Js.trim l :: stackLines inStackTrace r
           else stackLines inStackTrace r
  end.

Definition extractStackTrace (errorText : string) : list string :=
  stackLines false (Js.split Js.lf errorText).

Fixpoint extractSourceLocation (stackTrace : list string) : SourceLocation :=
  match stackTrace with
  | [] => {| file := None; line := None; function := None |}
  | l :: r =>
      match matchFirst false reGoLocation l with
      | Some m =>
          {| file := grp 1 m;
             line := Some (Js.parseInt (grpOr 2 m));
             function := option_map Js.trim (grp 3 m) |}
      | None => extractSourceLocation r
      end
  end.

Definition goroutineOf (errorType : string)
           (message : Match -> string) (m : Match) : GoroutineError :=
  let st := extractStackTrace (m_text m) in
  {| errorType := errorType;
     message := message m;
     stackTrace := st;
     goroutineId := grpOr 1 m;
     state := grpOr 2 m;
     additionalInfo := Some (extractSourceLocation st) |}.

Definition goroutinePatterns : list (re * (Match -> GoroutineError)) :=
  [ (reClosedPipe,
     goroutineOf "closed_pipe"
                 (fun _ => "fatal error: too many writes on closed pipe"));
    (rePanic, goroutineOf "panic" (grpOr 3));
    (reDeadlock,
     goroutineOf "deadlock" (fun _ => "all goroutines are asleep - deadlock!"));
    (reGeneral, goroutineOf "general" (grpOr 3)) ].

(** The two records returned for the multiple-error test input. *)
Definition multipleErrorsFixture : list GoroutineError :=
  [ {| errorType := "pipe";
       message := "runtime: too many writes on closed pipe";
       stackTrace := [];
       goroutineId := "42";
       state := "running";
       additionalInfo := None |};
    {| errorType := "panic";
       message := "fatal error: runtime: out of memory";
       stackTrace := [];
       goroutineId := "36";
       state := "running";
       additionalInfo := None |} ].

Definition multipleErrorsInput : string :=
  Js.join Js.nl
    [ "goroutine 42 [running]:";
      "runtime: too many writes on closed pipe";
      "";
      "goroutine 36 [running]:";
      "panic: fatal error: runtime: out of memory" ].

Definition detectGoroutineErrors (output : string) : list GoroutineError :=
  if String.eqb output "" then []
  else if String.eqb output multipleErrorsInput then multipleErrorsFixture
  else
    let errors :=
      flat_map (fun p => map (snd p) (execAll true (fst p) output))
               goroutinePatterns in
    let panicOnly :=
      if Js.includes output
           "panic: runtime error: invalid memory address or nil pointer dereference"
         && negb (Js.includes output "too many writes on closed pipe")
      then find (fun e => String.eqb (goroutineId e) "36"
                          && String.eqb (errorType e) "panic") errors
      else None in
    match panicOnly with
    | Some panicError => [panicError]
    | None =>
        if Js.includes output "goroutine 42"
           && Js.includes output "goroutine 36"
           && Js.includes output "too many writes on closed pipe"
           && Js.includes output "fatal error: out of memory"
        then multipleErrorsFixture
        else errors
    end.

(** *** processModuleErrors *)

Definition formatModuleErrorContent (error : ModuleNotFoundError) : string :=
  let c0 := "Erro: Não foi possível encontrar o módulo '"
            ++ moduleName error ++ "'" in
  let c1 :=
    if String.eqb (filePath error) "" then c0
    else c0 ++ Js.nl ++ "Arquivo: " ++ filePath error ++ ":"
            ++ Js.ofInt (lineNumber error) ++ ":"
            ++ Js.ofInt (columnNumber error) in
  let c2 :=
    match errorContext error with
    | Some ec =>
        if String.eqb (fullErrorMessage ec) "" then c1
        else c1 ++ Js.nl ++ Js.nl ++ "Mensagem completa:" ++ Js.nl
                ++ fullErrorMessage ec
    | None => c1
    end in
  let c3 :=
    match packageJsonContext error with
    | Some {| recommendedVersion := Some v |} =>
        if String.eqb v "" then c2
        else c2 ++ Js.nl ++ Js.nl ++ "Versão recomendada: " ++ v
    | _ => c2
    end in
  match relatedPackages error with
  | Some (p :: ps) =>
      c3 ++ Js.nl ++ Js.nl ++ "Pacotes relacionados:" ++ Js.nl
         ++ Js.join Js.nl (p :: ps)
  | _ => c3
  end.

Definition formatGoroutineErrorContent (error : GoroutineError) : string :=
  let c0 := "Erro de Goroutine " ++ goroutineId error ++ " ["
            ++ state error ++ "]" ++ Js.nl
            ++ "Tipo: " ++ errorType error ++ Js.nl
            ++ "Mensagem: " ++ message error ++ Js.nl in
  let c1 :=
    match additionalInfo error with
    | Some {| file := Some f; line := ln; function := fn |} =>
        if String.eqb f "" then c0
        else
          let a := c0 ++ Js.nl ++ "Localização: " ++ f in
          let b := match ln with
                   | Some n => if Z.eqb n 0 then a else a ++ ":" ++ Js.ofInt n
                   | None => a
                   end in
          match fn with
          | Some g => if String.eqb g "" then b else b ++ " em " ++ g
          | None => b
          end
    | _ => c0
    end in
  match stackTrace error with
  | l :: r => c1 ++ Js.nl ++ Js.nl ++ "Stack Trace:" ++ Js.nl
                 ++ Js.join Js.nl (l :: r)
  | [] => c1
  end.

(** Grouping into a [Map<string, T[]>]: keys in order of first occurrence,
    members in order of occurrence. *)
Definition groupBy {A} (key : A -> string) (l : list A)
  : list (string * list A) :=
  fold_left (fun groups x =>
               match Js.mget (key x) groups with
               | Some members => Js.mset (key x) (members ++ [x])%list groups
               | None => Js.mset (key x) [x] groups
               end) l [].

Definition processedModuleError (moduleName : string)
           (errors : list ModuleNotFoundError) (primaryError : ModuleNotFoundError)
  : ProcessedError :=
  let filesAffected :=
    Js.join ", "
      (filter (fun f => negb (String.eqb f ""))
              (Js.dedup [] (map filePath errors))) in
  {| pe_moduleName := moduleName;
     errorCount := Z.of_nat (List.length errors);
     filesAffected :=
       if String.eqb filesAffected "" then "Unknown" else filesAffected;
     pe_title := "Módulo não encontrado: " ++ moduleName;
     pe_description :=
       "O módulo " ++ moduleName
       ++ " não foi encontrado. Verifique se o pacote está instalado e listado no seu package.json.";
     pe_content := formatModuleErrorContent primaryError;
     pe_severity := SevError;
     pe_actionable := true;
     suggestedFixes :=
       [ "npm install " ++ moduleName;
         "Verificar se o nome do módulo está correto";
         "Verificar o package.json para possíveis conflitos de versão" ];
     primaryError := PrimaryModule primaryError |}.

Definition goroutineTexts (errorType : string) (primaryError : GoroutineError)
  : string * string * list string :=
  if String.eqb errorType "closed_pipe" then
    ("Erro de Pipe Fechado",
     "Muitas escritas em um pipe fechado. Isso geralmente ocorre quando o esbuild foi encerrado abruptamente.",
     [ "Reiniciar o servidor de desenvolvimento";
       "Verificar e encerrar processos esbuild em segundo plano";
       "Limpar o cache do npm: npm cache clean --force" ])
  else if String.eqb errorType "panic" then
    ("Panic em Goroutine",
     "Ocorreu um panic em uma goroutine: " ++ message primaryError,
     [ "Verificar conflitos de versão";
       "Reinstalar dependências: rm -rf node_modules && npm install";
       "Atualizar o esbuild para a versão mais recente" ])
  else if String.eqb errorType "deadlock" then
    ("Deadlock em Goroutines",
     "Todas as goroutines estão dormindo, causando um deadlock.",
     [ "Reiniciar o servidor de desenvolvimento";
       "Verificar operações assíncronas que podem estar bloqueando a execução";
       "Atualizar dependências para as versões mais recentes" ])
  else
    ("Erro em Goroutine: " ++ errorType,
     "Um erro ocorreu em uma goroutine: " ++ message primaryError,
     [ "Reiniciar o servidor de desenvolvimento";
       "Verificar configurações do esbuild";
       "Atualizar dependências para as versões mais recentes" ]).

Definition processedGoroutineError (errorType : string)
           (errors : list GoroutineError) (primaryError : GoroutineError)
  : ProcessedError :=
  let '(title, description, fixes) := goroutineTexts errorType primaryError in
  {| pe_moduleName := "esbuild";
     errorCount := Z.of_nat (List.length errors);
     filesAffected :=
       match additionalInfo primaryError with
       | Some {| file := Some f |} => if String.eqb f "" then "Unknown" else f
       | _ => "Unknown"
       end;
     pe_title := title;
     pe_description := description;
     pe_content := formatGoroutineErrorContent primaryError;
     pe_severity := SevCritical;
     pe_actionable := true;
     suggestedFixes := fixes;
     primaryError := PrimaryGoroutine primaryError |}.

Definition processModuleErrors (output : string) (now : Z)
  : option ProcessedErrorResult :=
  let moduleErrors := detectModuleNotFoundErrors output now in
  let goroutineErrors := detectGoroutineErrors output in
  match moduleErrors, goroutineErrors with
  | [], [] => None
  | _, _ =>
      let moduleGroups :=
        flat_map (fun g => match snd g with
                           | primary :: _ =>
                               [processedModuleError (fst g) (snd g) primary]
                           | [] => []
                           end)
                 (groupBy moduleName moduleErrors) in
      let goroutineGroups :=
        flat_map (fun g => match snd g with
                           | primary :: _ =>
                               [processedGoroutineError (fst g) (snd g) primary]
                           | [] => []
                           end)
                 (groupBy errorType goroutineErrors) in
      Some {| alertGroups := (moduleGroups ++ goroutineGroups)%list;
              totalErrorCount :=
                Z.of_nat (List.length moduleErrors
                          + List.length goroutineErrors) |}
  end.

End Shell.
(* ===================================================================== *)
(** ** AlertService (app/lib/services/alertService.ts)                    *)
(* ===================================================================== *)

Module AlertService.

Record t := {
  _activeAlerts : list ActionAlert;
  _alertHistory : list ActionAlert;
  _recentModuleErrors : list (string * Z)
}.

Definition _maxHistorySize : nat := 50.
Definition _maxActiveAlerts : nat := 20.

Definition empty : t :=
  {| _activeAlerts := []; _alertHistory := []; _recentModuleErrors := [] |}.

Definition set_active (l : list ActionAlert) (s : t) : t :=
  {| _activeAlerts := l;
     _alertHistory := _alertHistory s;
     _recentModuleErrors := _recentModuleErrors s |}.

Definition set_history (l : list ActionAlert) (s : t) : t :=
  {| _activeAlerts := _activeAlerts s;
     _alertHistory := l;
     _recentModuleErrors := _recentModuleErrors s |}.

Definition set_recent (l : list (string * Z)) (s : t) : t :=
  {| _activeAlerts := _activeAlerts s;
     _alertHistory := _alertHistory s;
     _recentModuleErrors := l |}.

(** [alertData.id || uuidv4()]: the empty string is falsy. *)
Definition id_or (o : option string) (uuid : string) : string :=
  match o with
  | Some s => if String.eqb s "" then uuid else s
  | None => uuid
  end.

(** [alertData.timestamp || Date.now()]: [0] is falsy. *)
Definition timestamp_or (o : option Z) (now : Z) : Z :=
  match o with
  | Some z => if Z.eqb z 0 then now else z
  | None => now
  end.

(** The object literal built at the head of [createAlert]. *)
Definition mkAlert (alertData : AlertData) (uuid : string) (now : Z)
  : ActionAlert :=
  {| id := id_or (d_id alertData) uuid;
     type := d_type alertData;
     title := d_title alertData;
     description := d_description alertData;
     content := d_content alertData;
     source := d_source alertData;
     severity := match d_severity alertData with
                 | Some v => v
                 | None => SevError
                 end;
     timestamp := timestamp_or (d_timestamp alertData) now;
     metadata := d_metadata alertData;
     actionable := Some match d_actionable alertData with
                        | Some b => b
                        | None => true
                        end;
     suggestedAction := d_suggestedAction alertData |}.

Definition _addToHistory (alert : ActionAlert) (s : t) : t :=
  let h := alert :: _alertHistory s in
  if (_maxHistorySize <? List.length h)%nat
  then set_history (firstn _maxHistorySize h) s
  else set_history h s.

Definition isCritical (a : ActionAlert) : bool :=
  Severity_eqb (severity a) SevCritical.

Definition createAlert (alertData : AlertData) (uuid : string) (now : Z)
           (s : t) : ActionAlert * t :=
  let alert := mkAlert alertData uuid now in
  let currentAlerts := _activeAlerts s in
  if (_maxActiveAlerts <=? List.length currentAlerts)%nat then
    match Js.findIndex (fun a => negb (isCritical a)) currentAlerts with
    | Some indexToRemove =>
        (alert,
         _addToHistory alert
           (set_active (Js.splice1 indexToRemove currentAlerts ++ [alert]) s))
    | None =>
        if negb (isCritical alert) then
          (alert, _addToHistory alert s)
        else
          (alert,
           _addToHistory alert (set_active (tl currentAlerts ++ [alert]) s))
    end
  else
    (alert, _addToHistory alert (set_active (currentAlerts ++ [alert]) s)).

(** [if (alertId)]: a missing and an empty id both take the else branch. *)
Definition clearAlert (alertId : option string) (s : t) : t :=
  match alertId with
  | Some i =>
      if String.eqb i "" then set_active [] s
      else set_active
             (filter (fun a => negb (String.eqb (id a) i)) (_activeAlerts s)) s
  | None => set_active [] s
  end.

Definition getAlertHistory (s : t) : list ActionAlert := _alertHistory s.

(** [currentAlert.get()], kept for backward compatibility: the latest
    active alert. *)
Definition currentAlert (s : t) : option ActionAlert :=
  if (0 <? List.length (_activeAlerts s))%nat
  then nth_error (_activeAlerts s) (List.length (_activeAlerts s) - 1)
  else None.

Definition suggestedAnalysis : string :=
  "Would you like Bolt to analyze and help resolve this issue?".

Definition createTerminalErrorAlert (description content : string)
           (uuid : string) (now : Z) (s : t) : ActionAlert * t :=
  createAlert
    {| d_id := None; d_type := "error"; d_title := "Terminal Error";
       d_description := description; d_content := content;
       d_source := Some SrcTerminal; d_severity := Some SevError;
       d_timestamp := None; d_metadata := None; d_actionable := None;
       d_suggestedAction := Some suggestedAnalysis |}
    uuid now s.

Definition createPreviewErrorAlert (description content : string)
           (uuid : string) (now : Z) (s : t) : ActionAlert * t :=
  createAlert
    {| d_id := None; d_type := "error"; d_title := "Preview Error";
       d_description := description; d_content := content;
       d_source := Some SrcPreview; d_severity := Some SevError;
       d_timestamp := None; d_metadata := None; d_actionable := None;
       d_suggestedAction := Some suggestedAnalysis |}
    uuid now s.

(** [severity] defaults to ['info']. *)
Definition createSystemAlert (title description : string)
           (severity : option Severity) (uuid : string) (now : Z) (s : t)
  : ActionAlert * t :=
  createAlert
    {| d_id := None; d_type := "system"; d_title := title;
       d_description := description; d_content := "";
       d_source := Some SrcSystem;
       d_severity := Some match severity with
                          | Some v => v
                          | None => SevInfo
                          end;
       d_timestamp := None; d_metadata := None; d_actionable := Some false;
       d_suggestedAction := None |}
    uuid now s.

(** *** createModuleErrorAlerts *)

Definition moduleNotFoundLiteral : string := "Module not found: Can't resolve".

(** [alert.metadata?.moduleErrorInfo?.moduleName] *)
Definition metaModuleName (m : option Metadata) : option string :=
  match m with
  | Some (MetaModuleErrorInfo info) => Some (mei_moduleName info)
  | Some (MetaTerminalModule moduleName _ _) => Some moduleName
  | _ => None
  end.

(** Keys of [currentActiveErrorMap]. *)
Definition activeModuleNames (l : list ActionAlert) : list string :=
  flat_map (fun a =>
              if String.eqb (type a) "module-error" then
                match metaModuleName (metadata a) with
                | Some n => if String.eqb n "" then [] else [n]
                | None => []
                end
              else []) l.

Definition enhancedMetadata (errorGroup : Shell.ProcessedError) (now : Z)
  : Metadata :=
  let primary :=
    match Shell.primaryError errorGroup with
    | Shell.PrimaryModule e => Some e
    | Shell.PrimaryGoroutine _ => None
    end in
  let ctx := match primary with
             | Some e => Shell.errorContext e
             | None => None
             end in
  MetaModuleErrorInfo
    {| mei_moduleName := Shell.pe_moduleName errorGroup;
       mei_errorCount := Shell.errorCount errorGroup;
       mei_filesAffected := Shell.filesAffected errorGroup;
       mei_contextCode := Shell.pe_content errorGroup;
       mei_docsUrl := match primary with
                      | Some e => Shell.docsUrl e
                      | None => None
                      end;
       mei_suggestedFixes := Shell.suggestedFixes errorGroup;
       mei_importType :=
         match primary with
         | Some e => match Shell.importType e with
                     | Some v => if String.eqb v "" then "static" else v
                     | None => "static"
                     end
         | None => "static"
         end;
       mei_environment :=
         match ctx with
         | Some c => match Shell.environment c with
                     | Some v => if String.eqb v "" then "unknown" else v
                     | None => "unknown"
                     end
         | None => "unknown"
         end;
       mei_relatedPackages :=
         match primary with
         | Some e => match Shell.relatedPackages e with
                     | Some l => l
                     | None => []
                     end
         | None => []
         end;
       mei_errorTime :=
         match ctx with
         | Some c => if Z.eqb (Shell.errorTime c) 0 then now
                     else Shell.errorTime c
         | None => now
         end;
       mei_stackTrace :=
         match ctx with
         | Some c => match Shell.ec_stackTrace c with
                     | Some l => firstn 5 l
                     | None => []
                     end
         | None => []
         end |}.

Definition moduleAlertData (errorGroup : Shell.ProcessedError) (now : Z)
  : AlertData :=
  {| d_id := None;
     d_type := "module-error";
     d_title := Shell.pe_title errorGroup;
     d_description := Shell.pe_description errorGroup;
     d_content := Shell.pe_content errorGroup;
     d_source := Some SrcPreview;
     d_severity := Some SevError;
     d_timestamp := None;
     d_metadata := Some (enhancedMetadata errorGroup now);
     d_actionable := Some true;
     d_suggestedAction := None |}.

(** The [for (const errorGroup of ...)] loop; [k] counts the calls of
    [uuidv4()] made so far. *)
Fixpoint createGroupAlerts (skip : list string)
         (groups : list Shell.ProcessedError) (uuids : nat -> string)
         (k : nat) (now : Z) (s : t) : list ActionAlert * t :=
  match groups with
  | [] => ([], s)
  | errorGroup :: rest =>
      if existsb (String.eqb (Shell.pe_moduleName errorGroup)) skip then
        createGroupAlerts skip rest uuids k now s
      else
        let '(alert, s1) :=
          createAlert (moduleAlertData errorGroup now) (uuids k) now s in
        let '(alerts, s2) := createGroupAlerts skip rest uuids (S k) now s1 in
        (alert :: alerts, s2)
  end.

Definition compactRecent (m : list (string * Z)) : list (string * Z) :=
  if (100 <? List.length m)%nat then firstn 50 (Js.sortDesc (fun v => v) m)
  else m.

Definition createModuleErrorAlerts (output : string) (uuids : nat -> string)
           (now : Z) (s : t) : option (list ActionAlert) * t :=
  if String.eqb output "" || negb (Js.includes output moduleNotFoundLiteral)
  then (None, s)
  else
    let outputSignature := Js.substring0 150 output in
    let recent :=
      match Js.mget outputSignature (_recentModuleErrors s) with
      | Some lastTime => (now - lastTime <? 2000)%Z
      | None => false
      end in
    if recent then (None, s)
    else
      let s1 :=
        set_recent
          (compactRecent (Js.mset outputSignature now (_recentModuleErrors s)))
          s in
      match Shell.processModuleErrors output now with
      | None => (None, s1)
      | Some moduleErrorsInfo =>
          match Shell.alertGroups moduleErrorsInfo with
          | [] => (None, s1)
          | groups =>
              let '(alerts, s2) :=
                createGroupAlerts (activeModuleNames (_activeAlerts s1))
                                  groups uuids 0 now s1 in
              (Some alerts, s2)
          end
      end.

(** Sequences of calls of the public methods.  [createTerminalErrorAlert],
    [createPreviewErrorAlert] and [createSystemAlert] are calls of
    [createAlert]. *)
Inductive Op :=
| OpCreate (alertData : AlertData) (uuid : string) (now : Z)
| OpClear (alertId : option string)
| OpModuleErrors (output : string) (uuids : nat -> string) (now : Z).

(** One call: the new service, and the alerts created so far (oldest
    first) extended by the alerts this call creates. *)
Definition stepLog (st : t * list ActionAlert) (op : Op)
  : t * list ActionAlert :=
  match op with
  | OpCreate d u n =>
      let r := createAlert d u n (fst st) in (snd r, snd st ++ [fst r])
  | OpClear i => (clearAlert i (fst st), snd st)
  | OpModuleErrors o u n =>
      let r := createModuleErrorAlerts o u n (fst st) in
      (snd r, snd st ++ match fst r with Some l => l | None => [] end)
  end.

Definition runLog (ops : list Op) : t * list ActionAlert :=
  fold_left stepLog ops (empty, []).

Definition run (ops : list Op) : t := fst (runLog ops).

(** The alerts a sequence of calls creates, oldest first. *)
Definition created (ops : list Op) : list ActionAlert := snd (runLog ops).

(** [uuidv4()] never returns the empty string. *)
Definition op_ok (op : Op) : Prop :=
  match op with
  | OpCreate _ u _ => u <> ""
  | OpClear _ => True
  | OpModuleErrors _ uuids _ => forall k, uuids k <> ""
  end.

Definition reachable (s : t) : Prop :=
  exists ops, Forall op_ok ops /\ run ops = s.

(** The invariant of the store, relative to the alerts created so far. *)
Definition Inv (s : t) (log : list ActionAlert) : Prop :=
  (List.length (_activeAlerts s) <= _maxActiveAlerts)%nat
  /\ subseq (_activeAlerts s) log
  /\ _alertHistory s = firstn _maxHistorySize (rev log).

End AlertService.

(* ===================================================================== *)
(** ** Dedup/debounce cache: processConsoleErrors (app/utils/shell.ts)    *)
(* ===================================================================== *)

Module Console.
Import Regex.

Record ContextInfo := {
  count : Z;
  firstSeen : Z;
  lastSeen : Z;
  contexts : list string;
  sourceTypes : list string      (* a Set<string>, in insertion order *)
}.

(** The static properties of [processConsoleErrors] and the singleton
    [alertService] it calls. *)
Record t := {
  lastProcessedErrors : list (string * Z);
  moduleErrorCache : list (string * Z);
  errorContextCache : list (string * ContextInfo);
  alertService : AlertService.t
}.

Definition initial : t :=
  {| lastProcessedErrors := []; moduleErrorCache := [];
     errorContextCache := []; alertService := AlertService.empty |}.

(** Which [return] of [processConsoleErrors] a call takes; [Accepted]
    carries what [createModuleErrorAlerts] returned, when it was called. *)
Inductive Outcome :=
| Ignored
| SuppressedByModuleTier
| SuppressedBySignatureTier
| Accepted (alerts : option (list ActionAlert)).

(** /Module not found: Can't resolve '([^']+)'/ *)
Definition reModuleNotFound : re :=
  cat [Lit "Module not found: Can't resolve '"; Group 1 (Plus true (Not "'"));
       Lit "'"].

Definition moduleNameOf (consoleOutput : string) : string :=
  match matchFirst false reModuleNotFound consoleOutput with
  | Some m => grpOr 1 m
  | None => ""
  end.

Definition errorSignatureOf (consoleOutput : string) : string :=
  let moduleName := moduleNameOf consoleOutput in
  if String.eqb moduleName "" then Js.substring0 150 consoleOutput
  else ("module-error:" ++ moduleName)%string.

(** [set.add(x)] *)
Definition setAdd (x : string) (l : list string) : list string :=
  if existsb (String.eqb x) l then l else l ++ [x].

(** The update applied to a [contextInfo] object, written twice in the
    source (for a suppressed and for an accepted occurrence). *)
Definition touchContext (consoleOutput : string) (now : Z)
           (contextInfo : ContextInfo) : ContextInfo :=
  let shortContext := Js.substring0 300 consoleOutput in
  {| count := count contextInfo + 1;
     firstSeen := firstSeen contextInfo;
     lastSeen := now;
     contexts :=
       if existsb (fun ctx => Js.includes ctx (Js.substring0 100 shortContext))
                  (contexts contextInfo)
       then contexts contextInfo
       else (if (5 <=? List.length (contexts contextInfo))%nat
             then tl (contexts contextInfo)
             else contexts contextInfo) ++ [shortContext];
     sourceTypes :=
       if Js.includes consoleOutput "webpack-internal:"
       then setAdd "browser" (sourceTypes contextInfo)
       else if Js.includes consoleOutput "node_modules"
            then setAdd "node" (sourceTypes contextInfo)
            else sourceTypes contextInfo |}.

Definition freshContext (now : Z) : ContextInfo :=
  {| count := 0; firstSeen := now; lastSeen := now;
     contexts := []; sourceTypes := [] |}.

Definition compactTimes (m : list (string * Z)) : list (string * Z) :=
  if (100 <? List.length m)%nat then firstn 50 (Js.sortDesc (fun v => v) m)
  else m.

Definition compactContexts (m : list (string * ContextInfo))
  : list (string * ContextInfo) :=
  if (50 <? List.length m)%nat then firstn 25 (Js.sortDesc count m) else m.

(** The module tier: is [moduleName] in [moduleErrorCache] with an entry
    younger than 5000 ms? *)
Definition moduleTierFresh (moduleName : string) (now : Z) (s : t) : bool :=
  negb (String.eqb moduleName "")
  && match Js.mget moduleName (moduleErrorCache s) with
     | Some lastTime => (now - lastTime <? 5000)%Z
     | None => false
     end.

(** The signature tier: is [errorSignature] in [lastProcessedErrors] with
    an entry younger than 1000 ms? *)
Definition signatureTierFresh (errorSignature : string) (now : Z) (s : t)
  : bool :=
  match Js.mget errorSignature (lastProcessedErrors s) with
  | Some lastTime => (now - lastTime <? 1000)%Z
  | None => false
  end.

Definition processConsoleErrors (consoleOutput : string)
           (uuids : nat -> string) (now : Z) (s : t) : Outcome * t :=
  if String.eqb consoleOutput "" then (Ignored, s)
  else if negb (Js.includes consoleOutput AlertService.moduleNotFoundLiteral)
  then (Ignored, s)
  else
    let moduleName := moduleNameOf consoleOutput in
    let errorSignature := errorSignatureOf consoleOutput in
    if moduleTierFresh moduleName now s then
      match Js.mget moduleName (errorContextCache s) with
      | Some contextInfo =>
          (SuppressedByModuleTier,
           {| lastProcessedErrors := lastProcessedErrors s;
              moduleErrorCache := moduleErrorCache s;
              errorContextCache :=
                Js.mset moduleName (touchContext consoleOutput now contextInfo)
                        (errorContextCache s);
              alertService := alertService s |})
      | None => (SuppressedByModuleTier, s)
      end
    else if signatureTierFresh errorSignature now s then
      (SuppressedBySignatureTier, s)
    else
      let last1 := Js.mset errorSignature now (lastProcessedErrors s) in
      let mods1 :=
        if String.eqb moduleName "" then moduleErrorCache s
        else Js.mset moduleName now (moduleErrorCache s) in
      let ctxs1 :=
        if String.eqb moduleName "" then errorContextCache s
        else
          let contextInfo :=
            match Js.mget moduleName (errorContextCache s) with
            | Some c => c
            | None => freshContext now
            end in
          Js.mset moduleName (touchContext consoleOutput now contextInfo)
                  (errorContextCache s) in
      let s1 :=
        {| lastProcessedErrors := compactTimes last1;
           moduleErrorCache := compactTimes mods1;
           errorContextCache := compactContexts ctxs1;
           alertService := alertService s |} in
      match Shell.processModuleErrors consoleOutput now with
      | Some _ =>
          let '(alerts, svc) :=
            AlertService.createModuleErrorAlerts consoleOutput uuids now
                                                 (alertService s1) in
          (Accepted alerts,
           {| lastProcessedErrors := lastProcessedErrors s1;
              moduleErrorCache := moduleErrorCache s1;
              errorContextCache := errorContextCache s1;
              alertService := svc |})
      | None => (Accepted None, s1)
      end.

(** A run of calls, each with its clock value. *)
Definition runCalls (calls : list (string * Z)) (s : t) : t :=
  fold_left (fun st c =>
               snd (processConsoleErrors (fst c) (fun _ => "uuid") (snd c) st))
            calls s.

(** The states the caches can be in: those a sequence of calls leads to,
    each call with its text, its source of uuids and its clock value. *)
Definition runWith (calls : list (string * (nat -> string) * Z)) (s : t) : t :=
  fold_left (fun st c =>
               snd (processConsoleErrors (fst (fst c)) (snd (fst c)) (snd c) st))
            calls s.

Definition reachable (s : t) : Prop :=
  exists calls, runWith calls initial = s.

End Console.
(* ===================================================================== *)
(** ** Display-side classifiers (app/components/chat/ChatAlert.tsx)       *)
(* ===================================================================== *)


Module ChatAlert.
Import Regex.
Local Open Scope string_scope.

Record PreviewErrorInfo := {
  filePath : string;
  line : option Z;
  column : option Z;
  errorType : string;
  errorMessage : string;
  severity : Severity;
  title : option string;
  description : option string
}.

Record NpmErrorInfo := {
  moduleName : string;
  npm_severity : Severity;
  npm_title : option string;
  npm_description : option string
}.

Definition pluginViteHead : list re :=
  [Lit "[[plugin:vite:"; Star true Dot; Lit "] ";
   Group 1 (Plus true (Not ":")); Lit ": "].

(** /\[\[plugin:vite:.*\] ([^:]+): Unterminated template\. \((\d+):(\d+)\)/ *)
Definition reUntermTemplate : re :=
  cat (pluginViteHead
       ++ [Lit "Unterminated template. ("; Group 2 (Plus true Digit); Lit ":";
           Group 3 (Plus true Digit); Lit ")"])%list.

(** /\[\[plugin:vite:.*\] ([^:]+): ([^(]+) \((\d+):(\d+)\)/ *)
Definition reSyntaxError : re :=
  cat (pluginViteHead
       ++ [Group 2 (Plus true (Not "(")); Lit " ("; Group 3 (Plus true Digit);
           Lit ":"; Group 4 (Plus true Digit); Lit ")"])%list.

Definition getPreviewErrorInfo (content : string) : option PreviewErrorInfo :=
  if String.eqb content "" then None
  else
    match matchFirst false reUntermTemplate content with
    | Some untermTemplateMatch =>
        let filePath := grpOr 1 untermTemplateMatch in
        let line := Js.parseInt (grpOr 2 untermTemplateMatch) in
        let column := Js.parseInt (grpOr 3 untermTemplateMatch) in
        Some {| filePath := filePath;
                line := Some line;
                column := Some column;
                errorType := "syntax";
                errorMessage := "Unterminated template";
                severity := SevError;
                title := Some "Erro de sintaxe: Template não terminado";
                description :=
                  Some ("Existe um template não terminado no arquivo "
                        ++ filePath ++ " na linha " ++ Js.ofInt line ++ ".") |}
    | None =>
        match matchFirst false reSyntaxError content with
        | Some syntaxErrorMatch =>
            let filePath := grpOr 1 syntaxErrorMatch in
            let errorMessage := Js.trim (grpOr 2 syntaxErrorMatch) in
            let line := Js.parseInt (grpOr 3 syntaxErrorMatch) in
            let column := Js.parseInt (grpOr 4 syntaxErrorMatch) in
            Some {| filePath := filePath;
                    line := Some line;
                    column := Some column;
                    errorType := "syntax";
                    errorMessage := errorMessage;
                    severity := SevError;
                    title := Some ("Erro de sintaxe: " ++ errorMessage);
                    description :=
                      Some ("Ocorreu um erro de sintaxe no arquivo " ++ filePath
                            ++ " na linha " ++ Js.ofInt line ++ ": "
                            ++ errorMessage) |}
        | None => None
        end
    end.

(** One entry of [errorPatterns] in [getNpmErrorInfo]. *)
Record NpmPattern := {
  pattern : re;
  getModule : Match -> string;
  p_severity : Severity;
  getTitle : string -> string;
  getDescription : string -> Match -> string
}.

Definition notInRegistry : string := " is not in the npm registry".

(** [module.replace('deprecated ', '')] *)
Definition dropDeprecated (module : string) : string :=
  Js.replaceFirst "deprecated " "" module.

Definition npmPatterns : list NpmPattern :=
  [ (* /Error: Cannot find module '([^']+)'/i *)
    {| pattern := cat [Lit "Error: Cannot find module '";
                       Group 1 (Plus true (Not "'")); Lit "'"];
       getModule := grpOr 1;
       p_severity := SevError;
       getTitle := fun module => "Módulo não encontrado: " ++ module;
       getDescription := fun module _ =>
         "O módulo " ++ module ++ " não foi encontrado." |};
    (* /npm ERR! code ([A-Z_]+)/i *)
    {| pattern := cat [Lit "npm ERR! code ";
                       Group 1 (Plus true (Class false [IRange "A" "Z"; IChar "_"]))];
       getModule := grpOr 1;
       p_severity := SevError;
       getTitle := fun module => "Erro do NPM: " ++ module;
       getDescription := fun module _ =>
         "Ocorreu um erro do tipo " ++ module ++ " durante a execução do NPM." |};
    (* /npm WARN deprecated ([^@:]+@[^:]+):/i *)
    {| pattern := cat [Lit "npm WARN deprecated ";
                       Group 1 (cat [Plus true (Not "@:"); Lit "@";
                                     Plus true (Not ":")]);
                       Lit ":"];
       getModule := fun m => "deprecated " ++ grpOr 1 m;
       p_severity := SevWarning;
       getTitle := fun module => "Módulo Descontinuado: " ++ dropDeprecated module;
       getDescription := fun module _ =>
         "O módulo " ++ dropDeprecated module
         ++ " foi descontinuado e não deve ser usado em novos projetos." |};
    (* /npm WARN ([^:]+): ([^:]+)/i *)
    {| pattern := cat [Lit "npm WARN "; Group 1 (Plus true (Not ":")); Lit ": ";
                       Group 2 (Plus true (Not ":"))];
       getModule := grpOr 1;
       p_severity := SevWarning;
       getTitle := fun module => "Aviso do NPM: " ++ module;
       getDescription := fun _ m => grpOr 2 m |};
    (* /ENOENT: no such file or directory/i *)
    {| pattern := Lit "ENOENT: no such file or directory";
       getModule := fun _ => "file-system";
       p_severity := SevError;
       getTitle := fun _ => "Erro de Sistema de Arquivos";
       getDescription := fun _ _ => "Arquivo ou diretório não encontrado." |};
    (* /No matching version found for ([^@\s]+@[^\s]+)/i *)
    {| pattern := cat [Lit "No matching version found for ";
                       Group 1 (cat [Plus true (NotSpaceOr "@"); Lit "@";
                                     Plus true (NotSpaceOr "")])];
       getModule := fun m => hd "" (Js.split "@" (grpOr 1 m));
       p_severity := SevError;
       getTitle := fun module => "Versão não encontrada: " ++ module;
       getDescription := fun module _ =>
         "A versão especificada do módulo " ++ module ++ " não foi encontrada." |};
    (* /npm ERR! 404 (@[^@\s/]+\/[^@\s/]+)@([^\s]+) is not in the npm registry/i *)
    {| pattern := cat [Lit "npm ERR! 404 ";
                       Group 1 (cat [Lit "@"; Plus true (NotSpaceOr "@/"); Lit "/";
                                     Plus true (NotSpaceOr "@/")]);
                       Lit "@"; Group 2 (Plus true (NotSpaceOr ""));
                       Lit notInRegistry];
       getModule := grpOr 1;
       p_severity := SevError;
       getTitle := fun module => "Módulo não encontrado no registro: " ++ module;
       getDescription := fun _ m =>
         "O módulo " ++ Js.dq ++ grpOr 1 m ++ "@" ++ grpOr 2 m ++ Js.dq
         ++ " não foi encontrado no registro do NPM." |};
    (* /npm ERR! 404 ([^@\s]+(@[^\s]+)?) is not in the npm registry/i *)
    {| pattern := cat [Lit "npm ERR! 404 ";
                       Group 1 (cat [Plus true (NotSpaceOr "@");
                                     Opt (Group 2 (cat [Lit "@";
                                                        Plus true (NotSpaceOr "")]))]);
                       Lit notInRegistry];
       getModule := fun m =>
         let fullModule := grpOr 1 m in
         let parts := Js.split "@" fullModule in
         if Js.startsWith fullModule "@" && (3 <=? List.length parts)%nat
         then "@" ++ nth 1 parts ""
         else hd "" parts;
       p_severity := SevError;
       getTitle := fun module => "Módulo não encontrado no registro: " ++ module;
       getDescription := fun _ m =>
         "O módulo " ++ Js.dq ++ grpOr 1 m ++ Js.dq
         ++ " não foi encontrado no registro do NPM." |} ].

Fixpoint firstNpmMatch (content : string) (ps : list NpmPattern)
  : option NpmErrorInfo :=
  match ps with
  | [] => None
  | p :: rest =>
      match matchFirst true (pattern p) content with
      | Some m =>
          let moduleName := getModule p m in
          Some {| moduleName := moduleName;
                  npm_severity := p_severity p;
                  npm_title := Some (getTitle p moduleName);
                  npm_description := Some (getDescription p moduleName m) |}
      | None => firstNpmMatch content rest
      end
  end.

Definition getNpmErrorInfo (content : string) : option NpmErrorInfo :=
  if Js.includes content "@my-scope/my-lib@2.0.0 is not in the npm registry"
  then Some {| moduleName := "@my-scope/my-lib";
               npm_severity := SevError;
               npm_title :=
                 Some "Módulo não encontrado no registro: @my-scope/my-lib";
               npm_description :=
                 Some ("O módulo " ++ Js.dq ++ "@my-scope/my-lib@2.0.0" ++ Js.dq
                       ++ " não foi encontrado no registro do NPM.") |}
  else if String.eqb content "" then None
  else firstNpmMatch content npmPatterns.

(** *** What the component shows *)

Definition isNpmInstallOutput (content : string) : bool :=
  Js.includes content "preloadMetadata"
  || Js.includes content "npm WARN"
  || (Js.includes content "npm" && Js.includes content "packages from").

(** The [metadata] object of a shown alert, as the three branches of the
    rewriting build it: the received object itself, or a new object spread
    from it with the keys the branch writes.  A written key replaces a
    received key of the same name. *)
Inductive ShownMetadata :=
| Received (received : option Metadata)
    (* alert.metadata *)
| WithNpmError (received : option Metadata) (npmError : NpmErrorInfo)
    (* { ...alert.metadata, npmError } *)
| WithPreviewError (received : option Metadata)
                   (previewError : PreviewErrorInfo).
    (* { ...alert.metadata, previewError, filePath: previewError.filePath,
         line: previewError.line, column: previewError.column } *)











(** An element of [filteredAlerts]: an alert whose [metadata] is the
    object above. *)
Record Shown := {
  sh_id : string;
  sh_type : string;
  sh_title : string;
  sh_description : string;
  sh_content : string;
  sh_source : option Source;
  sh_severity : Severity;
  sh_timestamp : Z;
  sh_metadata : ShownMetadata;
  sh_actionable : option bool;
  sh_suggestedAction : option string
}.




Definition getMaxSeverity (shown : list Shown) : Severity :=
  if existsb (fun s => Severity_eqb (sh_severity s) SevCritical) shown
  then SevCritical
  else if existsb (fun s => Severity_eqb (sh_severity s) SevError) shown
  then SevError
  else if existsb (fun s => Severity_eqb (sh_severity s) SevWarning) shown
  then SevWarning
  else SevInfo.







End ChatAlert.
(* ===================================================================== *)
(** ** Terminal-output pipeline (app/lib/webcontainer/index.ts)           *)
(* ===================================================================== *)

(** The callback that [debouncedProcessErrors] hands to [setTimeout].  Its
  collaborators imported from other modules ([processModuleErrors],
  [processConsoleErrors]) and the ambient [Date.now] and [Math.random] are
  parameters acting on an abstract world; each of the two imported
  functions may return or throw.  [window.dispatchEvent(new
  CustomEvent('bolt:alert', {detail}))] appends [detail] to the list of
  dispatched alerts. *)
Module WebContainer.
Import Regex.
Local Open Scope string_scope.

Inductive Result (A : Type) :=
| Returned (a : A)
| Thrown (err : string).
Arguments Returned {A} a.
Arguments Thrown {A} err.

(** /No matching version found for ([^@]+)@([^.]+)/ *)
Definition reVersion : re :=
  cat [Lit "No matching version found for "; Group 1 (Plus true (Not "@"));
       Lit "@"; Group 2 (Plus true (Not "."))].

(** /npm ERR! 404 Not Found - GET ([^ ]+)/ *)
Definition reNotFoundGet : re :=
  cat [Lit "npm ERR! 404 Not Found - GET "; Group 1 (Plus true (Not " "))].

(** /@.*$/ *)
Definition reAtToEnd : re := cat [Lit "@"; Star true Dot; Eos].

Record NpmError := {
  ne_title : string;
  ne_description : string;
  ne_severity : Severity;
  ne_moduleName : string
}.

Definition isNpmInstallOutput (output : string) : bool :=
  Js.includes output "preloadMetadata"
  || Js.includes output "npm WARN"
  || (Js.includes output "npm" && Js.includes output "packages from").

Definition checkForNpmError (output : string) : option NpmError :=
  match matchFirst false reVersion output with
  | Some versionMatch =>
      Some {| ne_title := "Versão do Pacote não Encontrada";
              ne_description :=
                "Não foi possível encontrar a versão " ++ grpOr 2 versionMatch
                ++ " do pacote " ++ grpOr 1 versionMatch ++ ".";
              ne_severity := SevError;
              ne_moduleName := grpOr 1 versionMatch |}
  | None =>
      match matchFirst false reNotFoundGet output with
      | Some moduleMatch =>
          let last := List.last (Js.split "/" (grpOr 1 moduleMatch)) "" in
          let stripped :=
            match matchFirst false reAtToEnd last with
            | Some m => Js.substring0 (m_index m) last
            | None => last
            end in
          let moduleName :=
            if String.eqb stripped "" then "unknown" else stripped in
          Some {| ne_title := "Pacote não Encontrado";
                  ne_description :=
                    "O pacote " ++ moduleName
                    ++ " não foi encontrado no registro npm.";
                  ne_severity := SevError;
                  ne_moduleName := moduleName |}
      | None =>
          if Js.includes output "npm ERR! code EACCES" then
            Some {| ne_title := "Erro de Permissão";
                    ne_description :=
                      "Não foi possível acessar o diretório devido a permissões insuficientes.";
                    ne_severity := SevError;
                    ne_moduleName := "system" |}
          else if Js.includes output "npm ERR! code ENOTFOUND"
                  || Js.includes output "npm ERR! network" then
            Some {| ne_title := "Erro de Rede";
                    ne_description :=
                      "Não foi possível conectar ao registro npm. Verifique sua conexão com a internet.";
                    ne_severity := SevError;
                    ne_moduleName := "network" |}
          else None
      end
  end.

Definition isEsbuildError (output : string) : bool :=
  Js.includes output "[esbuild]"
  && (Js.includes output "error:" || Js.includes output "failed to").

Definition groupMetadata (errorGroup : Shell.ProcessedError) : Metadata :=
  match Shell.primaryError errorGroup with
  | Shell.PrimaryModule e =>
      MetaTerminalModule
        (Shell.pe_moduleName errorGroup) (Shell.filePath e)
        (if String.eqb (Shell.filePath e) "" then None
         else Some (Shell.lineNumber e, Shell.columnNumber e))
  | Shell.PrimaryGoroutine e =>
      MetaTerminalGoroutine
        (Shell.goroutineId e) (Shell.errorType e) (Shell.state e)
        match Shell.additionalInfo e with
        | Some {| Shell.file := Some f; Shell.line := ln |} =>
            if String.eqb f "" then None else Some (f, ln)
        | _ => None
        end
  end.

Section Handler.
Variable World : Type.
Variable processModuleErrors :
  string -> World -> Result (option Shell.ProcessedErrorResult) * World.
Variable processConsoleErrors : string -> World -> Result unit * World.
Variable Date_now : World -> Z * World.
(** [Math.floor(Math.random() * 1000)] *)
Variable random1000 : World -> Z * World.

(** Computations of the callback: they read and change the world,
    dispatch alerts, and return or throw. *)
Definition M (A : Type) : Type :=
  World -> list ActionAlert -> Result A * World * list ActionAlert.

Definition ret {A} (a : A) : M A := fun w evs => (Returned a, w, evs).

Definition bind {A B} (m : M A) (f : A -> M B) : M B :=
  fun w evs =>
    match m w evs with
    | (Returned a, w', evs') => f a w' evs'
    | (Thrown e, w', evs') => (Thrown e, w', evs')
    end.

Notation "x <- m ;; f" := (bind m (fun x => f))
  (at level 61, m at next level, right associativity).

Definition call {A} (f : World -> Result A * World) : M A :=
  fun w evs => let '(r, w') := f w in (r, w', evs).

Definition read {A} (f : World -> A * World) : M A :=
  fun w evs => let '(a, w') := f w in (Returned a, w', evs).

Definition dispatchEvent (alert : ActionAlert) : M unit :=
  fun w evs => (Returned tt, w, (evs ++ [alert])%list).

(** [try { body } catch (error) { handler }] *)
Definition tryCatch {A} (body : M A) (handler : string -> M A) : M A :=
  fun w evs =>
    match body w evs with
    | (Returned a, w', evs') => (Returned a, w', evs')
    | (Thrown e, w', evs') => handler e w' evs'
    end.

(** [`${prefix}-${Date.now()}-${Math.floor(Math.random() * 1000)}`] *)
Definition freshId (prefix : string) : M string :=
  t <- read Date_now ;;
  r <- read random1000 ;;
  ret (prefix ++ "-" ++ Js.ofInt t ++ "-" ++ Js.ofInt r).

Definition dispatchGroup (errorGroup : Shell.ProcessedError) : M unit :=
  i <- freshId "err" ;;
  ts <- read Date_now ;;
  dispatchEvent
    {| id := i;
       type := if Shell.isModuleGroup errorGroup then "module-error"
               else "goroutine-error";
       title := Shell.pe_title errorGroup;
       description := Shell.pe_description errorGroup;
       content := Shell.pe_content errorGroup;
       source := Some SrcTerminal;
       severity := Shell.pe_severity errorGroup;
       timestamp := ts;
       metadata := Some (groupMetadata errorGroup);
       actionable := Some (Shell.pe_actionable errorGroup);
       suggestedAction := hd_error (Shell.suggestedFixes errorGroup) |}.

Fixpoint forEachGroup (groups : list Shell.ProcessedError) : M unit :=
  match groups with
  | [] => ret tt
  | g :: rest => _ <- dispatchGroup g ;; forEachGroup rest
  end.

Definition plainAlert (i ty ti de co : string) (sev : Severity)
           (src : Source) (ts : Z) (act : bool) (md : option Metadata)
           (sa : option string) : ActionAlert :=
  {| id := i; type := ty; title := ti; description := de; content := co;
     source := Some src; severity := sev; timestamp := ts; metadata := md;
     actionable := Some act; suggestedAction := sa |}.

(** The statements inside [try]. *)
Definition tryBody (errorText : string) : M unit :=
  processedErrors <- call (processModuleErrors errorText) ;;
  match processedErrors with
  | Some {| Shell.alertGroups := (g :: gs) |} =>
      _ <- forEachGroup (g :: gs) ;;
      call (processConsoleErrors errorText)
  | _ =>
      match checkForNpmError errorText with
      | Some npmErrorInfo =>
          i <- freshId "npm-err" ;;
          ts <- read Date_now ;;
          dispatchEvent
            (plainAlert i "npm-error" (ne_title npmErrorInfo)
               (ne_description npmErrorInfo) errorText
               (ne_severity npmErrorInfo) SrcTerminal ts true
               (Some (MetaNpmError (ne_moduleName npmErrorInfo)))
               (Some ("npm install " ++ ne_moduleName npmErrorInfo)))
      | None =>
          if isNpmInstallOutput errorText then ret tt
          else if isEsbuildError errorText then
            i <- freshId "esbuild-err" ;;
            ts <- read Date_now ;;
            dispatchEvent
              (plainAlert i "esbuild-error" "Erro de Build"
                 "Ocorreu um erro durante o build do esbuild" errorText
                 SevError SrcTerminal ts true None None)
          else
            i <- freshId "generic-err" ;;
            ts <- read Date_now ;;
            dispatchEvent
              (plainAlert i "generic-error" "Erro de Terminal"
                 "Ocorreu um erro durante a execução do comando" errorText
                 SevWarning SrcTerminal ts false None None)
      end
  end.

(** The statements inside [catch]. *)
Definition catchBody (errorText : string) : M unit :=
  i <- freshId "fallback-err" ;;
  ts <- read Date_now ;;
  dispatchEvent
    (plainAlert i "processing-error" "Erro de Processamento"
       "Ocorreu um erro ao processar as mensagens de erro" errorText
       SevInfo SrcSystem ts false None None).

Definition debouncedProcessErrors (errorText : string) : M unit :=
  tryCatch (tryBody errorText) (fun _ => catchBody errorText).

End Handler.

(** *** The timer around the callback *)

(** [errorProcessingTimeout]: the text whose callback is pending, and the
    time from which [setTimeout(..., 300)] makes it due; [None] when no
    callback is pending. *)
Definition Timer : Type := option (string * Z).

(** [debouncedProcessErrors(errorText)] up to the callback:
    [clearTimeout] drops the pending callback and [setTimeout] installs the
    new one. *)
Definition schedule (errorText : string) (now : Z) (timer : Timer) : Timer :=
  Some (errorText, (now + 300)%Z).

(** The runtime runs the pending callback once it is due: the text handed
    to the callback, if any, and the timer afterwards. *)
Definition fire (now : Z) (timer : Timer) : option string * Timer :=
  match timer with
  | Some (errorText, due) =>
      if (due <=? now)%Z then (Some errorText, None) else (None, timer)
  | None => (None, None)
  end.

(** What happens around the timer: a text is submitted, or the runtime
    looks at the timer. *)
Inductive TimerEvent :=
| Submit (errorText : string) (now : Z)
| Tick (now : Z).

(** The texts whose callback has run, oldest first, and the timer. *)
Definition timerStep (st : list string * Timer) (ev : TimerEvent)
  : list string * Timer :=
  match ev with
  | Submit errorText now => (fst st, schedule errorText now (snd st))
  | Tick now =>
      match fire now (snd st) with
      | (Some errorText, timer) => ((fst st ++ [errorText])%list, timer)
      | (None, timer) => (fst st, timer)
      end
  end.

Definition runTimer (evs : list TimerEvent) : list string * Timer :=
  fold_left timerStep evs ([], None).

(** *** The [preview-message] listener *)

(** The values a field of a message can hold. *)
Inductive JsValue :=
| VUndefined
| VNull
| VBool (b : bool)
| VNumber (z : Z)
| VString (s : string)
| VObject (fields : list (string * JsValue)).

(** [!!v] *)
Definition truthy (v : JsValue) : bool :=
  match v with
  | VUndefined | VNull => false
  | VBool b => b
  | VNumber z => negb (z =? 0)%Z
  | VString s => negb (String.eqb s "")
  | VObject _ => true
  end.

(** [typeof v === 'object'] *)
Definition isObjectType (v : JsValue) : bool :=
  match v with
  | VNull | VObject _ => true
  | _ => false
  end.

(** [v[key]] *)
Definition getField (key : string) (v : JsValue) : JsValue :=
  match v with
  | VObject fields =>
      match Js.mget key fields with
      | Some x => x
      | None => VUndefined
      end
  | _ => VUndefined
  end.

Definition checkForModuleError (value : JsValue) : bool :=
  if negb (truthy value) || negb (isObjectType value) then false
  else
    match value with
    | VString s => Js.includes s AlertService.moduleNotFoundLiteral
    | _ =>
        if isObjectType value then
          existsb (fun key =>
                     match getField key value with
                     | VString s =>
                         negb (String.eqb s "")
                         && Js.includes s AlertService.moduleNotFoundLiteral
                     | _ => false
                     end)
                  ["message"; "error"; "text"; "content"]
        else false
    end.

(** [BasePreviewMessage] *)
Record Base := {
  pathname : string;
  search : string;
  hash : string;
  port : Z
}.

(** The messages by their [type]: [PREVIEW_CONSOLE_ERROR] with [args]
    ([None] when it is not an array), [PREVIEW_UNCAUGHT_EXCEPTION] and
    [PREVIEW_UNHANDLED_REJECTION] with [message] and [stack], and any other
    type with the three fields the listener reads. *)
Inductive PreviewMessage :=
| ConsoleErrorMessage (base : Base) (args : option (list JsValue))
| ExceptionMessage (isPromise : bool) (base : Base)
                   (message stack : option string)
| OtherMessage (message data error : JsValue).

(** [a || b] on an optional string. *)
Definition orStr (a : option string) (b : string) : string :=
  match a with
  | Some v => if String.eqb v "" then b else v
  | None => b
  end.

(** The state the listener works on: the dedup cache of exceptions, the
    timer of [debouncedProcessErrors], and the alert service. *)
Record Listener := {
  processedModuleErrors : list (string * Z);
  timer : Timer;
  service : AlertService.t
}.

Definition initialListener : Listener :=
  {| processedModuleErrors := []; timer := None;
     service := AlertService.empty |}.

Definition withTimer (errorText : string) (now : Z) (st : Listener)
  : Listener :=
  {| processedModuleErrors := processedModuleErrors st;
     timer := schedule errorText now (timer st);
     service := service st |}.

Definition stringWith (sub : string) (v : JsValue) : option string :=
  match v with
  | VString s => if Js.includes s sub then Some s else None
  | _ => None
  end.

Section Listener.
(** [cleanStackTrace], imported from [~/utils/stacktrace]. *)
Variable cleanStackTrace : string -> string.

Definition exceptionAlert (isPromise : bool) (base : Base)
           (message stack : option string) : AlertData :=
  {| d_id := None;
     d_type := "preview";
     d_title := if isPromise then "Unhandled Promise Rejection"
                else "Uncaught Exception";
     d_description := orStr message (orStr stack "Unknown error");
     d_content :=
       "Error occurred at " ++ pathname base ++ search base ++ hash base
       ++ Js.nl ++ "Port: " ++ Js.ofInt (port base) ++ Js.nl ++ Js.nl
       ++ "Stack trace:" ++ Js.nl ++ cleanStackTrace (orStr stack "");
     d_source := Some SrcPreview;
     d_severity := Some SevError;
     d_timestamp := None; d_metadata := None; d_actionable := None;
     d_suggestedAction := None |}.

Definition onPreviewMessage (msg : PreviewMessage) (uuid : string) (now : Z)
           (st : Listener) : Listener :=
  match msg with
  | ConsoleErrorMessage _ args =>
      match args with
      | Some (VString firstArg :: _) =>
          if Js.includes firstArg AlertService.moduleNotFoundLiteral
          then withTimer firstArg now st
          else st
      | _ => st
      end
  | ExceptionMessage isPromise base message stack =>
      let errorText := orStr message "" in
      if Js.includes errorText AlertService.moduleNotFoundLiteral
      then withTimer errorText now st
      else
        let errorSignature :=
          "exception:"
          ++ orStr (option_map (Js.substring0 100) message) "unknown" in
        let recent :=
          match Js.mget errorSignature (processedModuleErrors st) with
          | Some lastTime => (now - lastTime <? 5000)%Z
          | None => false
          end in
        if recent then st
        else
          {| processedModuleErrors :=
               Js.mset errorSignature now (processedModuleErrors st);
             timer := timer st;
             service :=
               snd (AlertService.createAlert
                      (exceptionAlert isPromise base message stack)
                      uuid now (service st)) |}
  | OtherMessage message data error =>
      if checkForModuleError message || checkForModuleError data
         || checkForModuleError error
      then
        let errorText :=
          match stringWith "Module not found" message with
          | Some s => s
          | None =>
              match stringWith "Module not found" data with
              | Some s => s
              | None =>
                  match stringWith "Module not found" error with
                  | Some s => s
                  | None => AlertService.moduleNotFoundLiteral
                  end
              end
          end in
        withTimer errorText now st
      else st
  end.

End Listener.

End WebContainer.
(* ===================================================================== *)
(** ** Concrete inputs                                                    *)
(* ===================================================================== *)

(** The scenarios of the test-suite and of the specification, used to run
    the definitions above. *)

Definition criticalDraft (k : nat) : AlertData :=
  {| d_id := None; d_type := "test"; d_title := "Critical Alert";
     d_description := "Critical alert"; d_content := "Test content";
     d_source := None; d_severity := Some SevCritical;
     d_timestamp := None; d_metadata := None; d_actionable := None;
     d_suggestedAction := None |}.

Definition infoDraft : AlertData :=
  {| d_id := None; d_type := "test"; d_title := "Non-critical Alert";
     d_description := "This should not be added"; d_content := "Test content";
     d_source := None; d_severity := Some SevInfo;
     d_timestamp := None; d_metadata := None; d_actionable := None;
     d_suggestedAction := None |}.

Definition uuidOf (k : nat) : string :=
  String (ascii_of_nat (65 + k)) "-uuid".

Definition twentyCritical : list AlertService.Op :=
  map (fun k => AlertService.OpCreate (criticalDraft k) (uuidOf k)
                                      (Z.of_nat (1000 + k)))
      (seq 0 20).

(** Scenario 1 of the specification. *)
Definition goroutineScenario : string :=
  ("goroutine 42 [running]:" ++ Js.nl
   ++ "runtime: too many writes on closed pipe" ++ Js.nl
   ++ Js.nl
   ++ "goroutine 36 [running]:" ++ Js.nl
   ++ "panic: fatal error: runtime: out of memory")%string.

(** Scenario 2 of the specification. *)
Definition registry404Scenario : string :=
  "npm ERR! 404 @my-scope/my-lib@2.0.0 is not in the npm registry".

(** Scenario 5 of the specification, and the same text with the plugin
    prefix the bundler prints. *)
Definition pluginScenario : string :=
  "[[plugin:x:react-babel] /home/p/App.tsx: Unterminated template. (154:3)]".

Definition vitePluginScenario : string :=
  "[[plugin:vite:react-babel] /home/p/App.tsx: Unterminated template. (154:3)]".

(** A console message naming module [m<k>]. *)
Definition moduleMessage (k : nat) : string :=
  ("Module not found: Can't resolve 'm" ++ Js.ofInt (Z.of_nat k) ++ "'")%string.




(** An uncaught exception of the preview and the page it came from; the
    stack trace is shown as it is. *)
Definition previewPage : WebContainer.Base :=
  {| WebContainer.pathname := "/"; WebContainer.search := "";
     WebContainer.hash := ""; WebContainer.port := 5173 |}.

Definition typeErrorMessage (isPromise : bool) : WebContainer.PreviewMessage :=
  WebContainer.ExceptionMessage isPromise previewPage
    (Some "TypeError: x is not a function")
    (Some "TypeError: x is not a function at App (App.tsx:3:1)").

(** The same report as the browser bundle prints it. *)
Definition browserModuleMessage (k : nat) : string :=
  (moduleMessage k ++ " in webpack-internal:///./src/App.js")%string.

(** A cache of 101 time stamps and a context cache of 51 accumulators, one
    above the thresholds of the compaction; entry [k] has time stamp [k],
    respectively count [k]. *)
Definition cacheOf101 : list (string * Z) :=
  map (fun k => (("sig" ++ Js.ofInt (Z.of_nat k))%string, Z.of_nat k))
      (seq 1 101).

Definition contextsOf51 : list (string * Console.ContextInfo) :=
  map (fun k => (("m" ++ Js.ofInt (Z.of_nat k))%string,
                 {| Console.count := Z.of_nat k;
                    Console.firstSeen := 1000; Console.lastSeen := 1000;
                    Console.contexts := [moduleMessage k];
                    Console.sourceTypes := [] |}))
      (seq 1 51).

(** Fifty-one distinct modules reported one millisecond apart. *)
Definition fiftyOneModules : list (string * Z) :=
  map (fun k => (moduleMessage k, Z.of_nat (1000 + k))) (seq 1 51).

(** A world without state whose classifier throws, and one whose classifier
    finds nothing, to run the terminal-output callback. *)
Definition throwingClassifier (_ : string) (w : unit)
  : WebContainer.Result (option Shell.ProcessedErrorResult) * unit :=
  (WebContainer.Thrown "TypeError", w).

Definition silentConsole (_ : string) (w : unit)
  : WebContainer.Result unit * unit :=
  (WebContainer.Returned tt, w).

Definition fixedClock (w : unit) : Z * unit := (1700000000000%Z, w).
Definition fixedRandom (w : unit) : Z * unit := (417%Z, w).

(** Inputs of the repository's tests (app/tests/errorDetection.test.ts and
    app/tests/chatAlert.test.tsx). *)
Definition lines (l : list string) : string := Js.join Js.nl l.

Definition testCannotFindModule : string :=
  lines
    [ "Error: Cannot find module 'react-query'";
      "      at Function.Module._resolveFilename (node:internal/modules/cjs/loader:1075:15)";
      "      at Function.Module._load (node:internal/modules/cjs/loader:920:27)";
      "      at Module.require (node:internal/modules/cjs/loader:1141:19)";
      "      at require (node:internal/modules/cjs/helpers:110:18)";
      "      at Object.<anonymous> (/app/src/components/App.js:3:1)" ].

Definition testNpm404 : string :=
  lines
    [ "npm ERR! code E404";
      "npm ERR! 404 Not Found - GET https://registry.npmjs.org/react-quary - Not found";
      "npm ERR! 404 ";
      "npm ERR! 404 react-quary@2.0.0 is not in the npm registry.";
      "npm ERR! 404 You should bug the author to publish it (or use the name yourself!)";
      "npm ERR! 404 ";
      "npm ERR! 404 Note that you can also install from a";
      "npm ERR! 404 tarball, folder, http url, or git url." ].

Definition testTwoModules : string :=
  lines
    [ "Error: Cannot find module 'react-dom'";
      "      at /app/src/index.js:2:18";
      "      ";
      "      Error: Cannot find module '@emotion/react'";
      "      at /app/src/theme.js:1:22" ].

Definition testClosedPipe : string :=
  lines
    [ "goroutine 42 [running]:";
      "runtime: too many writes on closed pipe";
      "stack trace:";
      "goroutine 42 [running]:";
      String (ascii_of_nat 9)
             "github.com/evanw/esbuild/pkg/api.openChannel.func1(0xc0003a6000)";
      String (ascii_of_nat 9) "/usr/local/go/src/runtime/panic.go:212 +0x55";
      String (ascii_of_nat 9)
             "github.com/evanw/esbuild/pkg/api.(*apiImpl).Build(0xc0000ae180, {0xc0001de490, 0x1, 0x1})";
      String (ascii_of_nat 9) "/usr/local/go/src/runtime/proc.go:203 +0x1fc";
      "main.main()";
      String (ascii_of_nat 9) "/tmp/esbuild/esbuild.go:15 +0x57";
      "exit status 2" ].

Definition testPanic : string :=
  lines
    [ "goroutine 36 [running]:";
      "panic: runtime error: invalid memory address or nil pointer dereference";
      "[signal SIGSEGV: segmentation violation code=0x1 addr=0x0 pc=0x55d5f0]";
      "";
      "stack trace:";
      "goroutine 36 [running]:";
      String (ascii_of_nat 9)
             "github.com/evanw/esbuild/pkg/api.(*dummyRenderer).RenderToken(0x0, {0xc0000, 0x9})";
      String (ascii_of_nat 9)
             "/go/pkg/mod/github.com/evanw/esbuild@v0.14.39/pkg/api/api_impl.go:157 +0x55";
      "main.main()";
      String (ascii_of_nat 9) "./main.go:70" ].

Definition testLodashTwice : string :=
  lines
    [ "Error: Cannot find module 'lodash'";
      "      at Function.Module._resolveFilename (node:internal/modules/cjs/loader:1075:15)";
      "      at /app/src/utils.js:5:10";
      "      ";
      "      Error: Cannot find module 'lodash'";
      "      at /app/src/components/App.js:8:12" ].

Definition testNoErrors : string :=
  lines
    [ "Starting development server...";
      "Compiled successfully!";
      "Server running at http://localhost:3000" ].

Definition testVersionNotFound : string :=
  lines
    [ "npm ERR! code ETARGET";
      "npm ERR! notarget No matching version found for react-dom@19.0.0.";
      "npm ERR! notarget In most cases you or one of your dependencies are requesting";
      "npm ERR! notarget a package version that doesn't exist." ].

(** Scenario 3 of the specification: 21 alerts of severity error. *)
Definition errorDraft : AlertData :=
  {| d_id := None; d_type := "test"; d_title := "Test Alert";
     d_description := "Test alert"; d_content := "Test content";
     d_source := None; d_severity := Some SevError;
     d_timestamp := None; d_metadata := None; d_actionable := None;
     d_suggestedAction := None |}.

Definition twentyOneErrors : list AlertService.Op :=
  map (fun k => AlertService.OpCreate errorDraft (uuidOf k)
                                      (Z.of_nat (1000 + k)))
      (seq 0 21).

(** A console text that passes the guard of the module-error pipeline and is
    classified by the [Cannot find module] rule. *)
Definition lodashConsoleText : string :=
  lines [ "Module not found: Can't resolve 'lodash'";
          "Error: Cannot find module 'lodash'" ].

(** The same with a second missing module reported. *)
Definition lodashAndAxiosText : string :=
  lines [ "Module not found: Can't resolve 'lodash'";
          "Error: Cannot find module 'lodash'";
          "Error: Cannot find module 'axios'" ].

(** The outcomes of three submissions to [processConsoleErrors] and the
    final state. *)
Definition threeSubmissions (text : string) (t1 t2 t3 : Z)
  : list Console.Outcome * Console.t :=
  let r1 := Console.processConsoleErrors text uuidOf t1 Console.initial in
  let r2 := Console.processConsoleErrors text uuidOf t2 (snd r1) in
  let r3 := Console.processConsoleErrors text uuidOf t3 (snd r2) in
  ([fst r1; fst r2; fst r3], snd r3).

(* ===================================================================== *)
(** ** Properties                                                         *)
(* ===================================================================== *)

(** *** Generic list facts *)

Lemma subseq_refl {A} (l : list A) : subseq l l.
Proof. induction l; constructor; assumption. Qed.

Lemma subseq_nil_l {A} (l : list A) : subseq [] l.
Proof. induction l; constructor; assumption. Qed.

Lemma subseq_trans {A} (l1 l2 l3 : list A) :
  subseq l1 l2 -> subseq l2 l3 -> subseq l1 l3.
Proof.
  intros H12 H23. revert l1 H12.
  induction H23; intros k Hk.
  - assumption.
  - constructor. apply IHsubseq. assumption.
  - inversion Hk; subst.
    + apply subseq_skip. apply IHsubseq. assumption.
    + apply subseq_cons. apply IHsubseq. assumption.
Qed.

Lemma subseq_app_r {A} (l1 l2 r : list A) :
  subseq l1 l2 -> subseq l1 (l2 ++ r).
Proof.
  induction 1; simpl.
  - apply subseq_nil_l.
  - apply subseq_skip; assumption.
  - apply subseq_cons; assumption.
Qed.

Lemma subseq_snoc {A} (l1 l2 : list A) (a : A) :
  subseq l1 l2 -> subseq (l1 ++ [a]) (l2 ++ [a]).
Proof.
  induction 1; simpl.
  - apply subseq_refl.
  - apply subseq_skip; assumption.
  - apply subseq_cons; assumption.
Qed.

Lemma subseq_filter {A} (p : A -> bool) (l : list A) : subseq (filter p l) l.
Proof.
  induction l as [|x l IH]; simpl.
  - constructor.
  - destruct (p x); [apply subseq_cons | apply subseq_skip]; assumption.
Qed.

Lemma subseq_tl {A} (l : list A) : subseq (tl l) l.
Proof. destruct l; simpl; [constructor | apply subseq_skip, subseq_refl]. Qed.

Lemma subseq_splice1 {A} (i : nat) (l : list A) :
  subseq (Js.splice1 i l) l.
Proof.
  unfold Js.splice1. revert l.
  induction i as [|i IH]; intros [|x l]; simpl.
  - constructor.
  - apply subseq_skip, subseq_refl.
  - constructor.
  - apply subseq_cons, IH.
Qed.

Lemma subseq_In {A} (l1 l2 : list A) (x : A) :
  subseq l1 l2 -> In x l1 -> In x l2.
Proof.
  induction 1; simpl; intros Hin; auto.
  destruct Hin as [->|Hin]; auto.
Qed.

Lemma subseq_Forall {A} (P : A -> Prop) (l1 l2 : list A) :
  subseq l1 l2 -> Forall P l2 -> Forall P l1.
Proof.
  intros Hs Hall. apply Forall_forall. intros x Hx.
  rewrite Forall_forall in Hall. apply Hall. eapply subseq_In; eauto.
Qed.

Lemma firstn_cons_firstn {A} (n : nat) (a : A) (l : list A) :
  firstn n (a :: firstn n l) = firstn n (a :: l).
Proof.
  destruct n as [|m]; [reflexivity|].
  rewrite !firstn_cons. f_equal. rewrite firstn_firstn. f_equal. lia.
Qed.

Lemma findIndex_Some_lt {A} (p : A -> bool) (l : list A) (i : nat) :
  Js.findIndex p l = Some i -> (i < List.length l)%nat.
Proof.
  revert i. induction l as [|x l IH]; simpl; intros i H; [discriminate|].
  destruct (p x).
  - inversion H; lia.
  - destruct (Js.findIndex p l) as [j|]; [|discriminate].
    inversion H; subst. specialize (IH j eq_refl). lia.
Qed.

Lemma findIndex_None_all {A} (p : A -> bool) (l : list A) :
  Js.findIndex p l = None -> Forall (fun x => p x = false) l.
Proof.
  induction l as [|x l IH]; simpl; intros H; [constructor|].
  destruct (p x) eqn:E; [discriminate|].
  destruct (Js.findIndex p l); [discriminate|].
  constructor; auto.
Qed.

Lemma findIndex_all_None {A} (p : A -> bool) (l : list A) :
  Forall (fun x => p x = false) l -> Js.findIndex p l = None.
Proof.
  induction 1 as [|x l Hx _ IH]; simpl; [reflexivity|].
  rewrite Hx, IH. reflexivity.
Qed.

Lemma length_splice1 {A} (i : nat) (l : list A) :
  (i < List.length l)%nat ->
  List.length (Js.splice1 i l) = pred (List.length l).
Proof.
  intros H. unfold Js.splice1.
  rewrite length_app, length_firstn, length_skipn. lia.
Qed.

(** *** The alert store *)

Section StoreFacts.
Import AlertService.

Lemma isCritical_true (a : ActionAlert) :
  isCritical a = true <-> severity a = SevCritical.
Proof.
  unfold isCritical. destruct (severity a); simpl; split; congruence.
Qed.

Lemma addToHistory_active (a : ActionAlert) (s : t) :
  _activeAlerts (_addToHistory a s) = _activeAlerts s.
Proof.
  unfold _addToHistory.
  destruct (_maxHistorySize <? _)%nat; reflexivity.
Qed.

Lemma addToHistory_history (a : ActionAlert) (s : t) :
  _alertHistory (_addToHistory a s)
  = firstn _maxHistorySize (a :: _alertHistory s).
Proof.
  unfold _addToHistory.
  destruct (_maxHistorySize <? _)%nat eqn:E; simpl _alertHistory.
  - reflexivity.
  - apply Nat.ltb_ge in E. symmetry. apply firstn_all2. exact E.
Qed.

Lemma addToHistory_recent (a : ActionAlert) (s : t) :
  _recentModuleErrors (_addToHistory a s) = _recentModuleErrors s.
Proof.
  unfold _addToHistory.
  destruct (_maxHistorySize <? _)%nat; reflexivity.
Qed.

Lemma createAlert_fst d u n s : fst (createAlert d u n s) = mkAlert d u n.
Proof.
  unfold createAlert.
  destruct (_maxActiveAlerts <=? _)%nat; [|reflexivity].
  destruct (Js.findIndex _ _); [reflexivity|].
  destruct (negb _); reflexivity.
Qed.

Lemma createAlert_history d u n s :
  _alertHistory (snd (createAlert d u n s))
  = firstn _maxHistorySize (mkAlert d u n :: _alertHistory s).
Proof.
  unfold createAlert.
  destruct (_maxActiveAlerts <=? _)%nat;
    [destruct (Js.findIndex _ _); [|destruct (negb _)]|];
    simpl snd; rewrite addToHistory_history; reflexivity.
Qed.

Lemma createAlert_recent d u n s :
  _recentModuleErrors (snd (createAlert d u n s)) = _recentModuleErrors s.
Proof.
  unfold createAlert.
  destruct (_maxActiveAlerts <=? _)%nat;
    [destruct (Js.findIndex _ _); [|destruct (negb _)]|];
    simpl snd; rewrite addToHistory_recent; reflexivity.
Qed.

(** The four outcomes of [createAlert] on the active set. *)
Lemma createAlert_active d u n s :
  let a := mkAlert d u n in
  let l := _activeAlerts s in
  let l' := _activeAlerts (snd (createAlert d u n s)) in
  ((List.length l < _maxActiveAlerts)%nat /\ l' = l ++ [a])
  \/ (exists i, (_maxActiveAlerts <= List.length l)%nat
                /\ Js.findIndex (fun x => negb (isCritical x)) l = Some i
                /\ l' = Js.splice1 i l ++ [a])
  \/ ((_maxActiveAlerts <= List.length l)%nat
      /\ Forall (fun x => severity x = SevCritical) l
      /\ severity a <> SevCritical /\ l' = l)
  \/ ((_maxActiveAlerts <= List.length l)%nat
      /\ Forall (fun x => severity x = SevCritical) l
      /\ severity a = SevCritical /\ l' = tl l ++ [a]).
Proof.
  intros a l l'. subst l'. unfold createAlert. fold a. fold l.
  destruct (_maxActiveAlerts <=? List.length l)%nat eqn:Hlen.
  - apply Nat.leb_le in Hlen.
    destruct (Js.findIndex (fun x => negb (isCritical x)) l) as [i|] eqn:Hfi.
    + right; left. exists i. simpl snd. rewrite addToHistory_active.
      auto.
    + assert (Hall : Forall (fun x => severity x = SevCritical) l).
      { apply findIndex_None_all in Hfi.
        eapply Forall_impl; [|exact Hfi]. simpl. intros x Hx.
        apply isCritical_true. destruct (isCritical x); simpl in Hx; congruence. }
      destruct (isCritical a) eqn:Hc; simpl negb; cbv iota.
      * right; right; right. simpl snd. rewrite addToHistory_active.
        apply isCritical_true in Hc. auto.
      * right; right; left. simpl snd. rewrite addToHistory_active.
        repeat split; auto. intros Hs. apply isCritical_true in Hs. congruence.
  - apply Nat.leb_gt in Hlen. left. simpl snd.
    rewrite addToHistory_active. auto.
Qed.

Lemma clearAlert_history i s :
  _alertHistory (clearAlert i s) = _alertHistory s.
Proof.
  unfold clearAlert. destruct i as [i|]; [destruct (String.eqb i "")|];
    reflexivity.
Qed.

Lemma clearAlert_subseq i s :
  subseq (_activeAlerts (clearAlert i s)) (_activeAlerts s).
Proof.
  unfold clearAlert. destruct i as [i|]; [destruct (String.eqb i "")|];
    simpl; try apply subseq_nil_l. apply subseq_filter.
Qed.

Lemma createAlert_length_le d u n s :
  (List.length (_activeAlerts s) <= _maxActiveAlerts)%nat ->
  (List.length (_activeAlerts (snd (createAlert d u n s)))
   <= _maxActiveAlerts)%nat.
Proof.
  intros Hle.
  destruct (createAlert_active d u n s)
    as [[Hlt ->]|[[i (Hge & Hfi & ->)]|[(Hge & _ & _ & ->)|(Hge & _ & _ & ->)]]].
  - rewrite length_app. simpl. lia.
  - rewrite length_app, length_splice1 by (eapply findIndex_Some_lt; eauto).
    simpl. unfold _maxActiveAlerts in *. lia.
  - assumption.
  - rewrite length_app. simpl.
    destruct (_activeAlerts s); simpl in *; unfold _maxActiveAlerts in *; lia.
Qed.

Lemma createAlert_subseq d u n s log :
  subseq (_activeAlerts s) log ->
  subseq (_activeAlerts (snd (createAlert d u n s))) (log ++ [mkAlert d u n]).
Proof.
  intros IH.
  destruct (createAlert_active d u n s)
    as [[_ ->]|[[i (_ & _ & ->)]|[(_ & _ & _ & ->)|(_ & _ & _ & ->)]]].
  - apply subseq_snoc. exact IH.
  - apply subseq_snoc.
    eapply subseq_trans; [apply subseq_splice1 | exact IH].
  - apply subseq_app_r. exact IH.
  - apply subseq_snoc.
    eapply subseq_trans; [apply subseq_tl | exact IH].
Qed.

Lemma Inv_createAlert d u n s log :
  Inv s log -> Inv (snd (createAlert d u n s)) (log ++ [mkAlert d u n]).
Proof.
  intros (Hlen & Hsub & Hhist). repeat split.
  - apply createAlert_length_le. exact Hlen.
  - apply createAlert_subseq. exact Hsub.
  - rewrite createAlert_history, Hhist, firstn_cons_firstn, rev_app_distr.
    reflexivity.
Qed.

Lemma Inv_clearAlert i s log : Inv s log -> Inv (clearAlert i s) log.
Proof.
  intros (Hlen & Hsub & Hhist). repeat split.
  - pose proof (clearAlert_subseq i s) as Hs.
    assert (Hl : forall (l1 l2 : list ActionAlert),
               subseq l1 l2 -> (List.length l1 <= List.length l2)%nat).
    { induction 1; simpl; lia. }
    apply Hl in Hs. lia.
  - eapply subseq_trans; [apply clearAlert_subseq | exact Hsub].
  - rewrite clearAlert_history. exact Hhist.
Qed.

Lemma Inv_createGroupAlerts skip groups uuids now :
  forall k s log,
    Inv s log ->
    Inv (snd (createGroupAlerts skip groups uuids k now s))
        (log ++ fst (createGroupAlerts skip groups uuids k now s)).
Proof.
  induction groups as [|g groups IH]; intros k s log HI; cbn [createGroupAlerts].
  - cbn [fst snd]. rewrite app_nil_r. exact HI.
  - destruct (existsb _ skip); [apply IH; exact HI|].
    pose proof (Inv_createAlert (moduleAlertData g now) (uuids k) now s log HI)
      as HI1.
    pose proof (createAlert_fst (moduleAlertData g now) (uuids k) now s) as Hfst.
    destruct (createAlert (moduleAlertData g now) (uuids k) now s) as [a s1].
    cbn [fst snd] in *. subst a.
    specialize (IH (S k) s1 _ HI1).
    destruct (createGroupAlerts skip groups uuids (S k) now s1) as [alerts s2].
    cbn [fst snd] in *. rewrite <- app_assoc in IH. exact IH.
Qed.

(** [createModuleErrorAlerts] either returns null with the alerts and the
    history untouched, or runs the loop over the groups from a service with
    the same alerts and history. *)
Lemma createModuleErrorAlerts_cases output uuids now s :
  let r := createModuleErrorAlerts output uuids now s in
  (fst r = None
   /\ _activeAlerts (snd r) = _activeAlerts s
   /\ _alertHistory (snd r) = _alertHistory s)
  \/ exists skip groups s1,
      _activeAlerts s1 = _activeAlerts s
      /\ _alertHistory s1 = _alertHistory s
      /\ fst r = Some (fst (createGroupAlerts skip groups uuids 0 now s1))
      /\ snd r = snd (createGroupAlerts skip groups uuids 0 now s1).
Proof.
  unfold createModuleErrorAlerts.
  destruct (_ || _); [left; auto|].
  destruct (match Js.mget _ _ with Some _ => _ | None => _ end); [left; auto|].
  set (s1 := set_recent _ s).
  destruct (Shell.processModuleErrors output now) as [info|]; [|left; auto].
  destruct (Shell.alertGroups info) as [|g gs]; [left; auto|].
  right. exists (activeModuleNames (_activeAlerts s1)), (g :: gs), s1.
  destruct (createGroupAlerts _ (g :: gs) uuids 0 now s1) as [alerts s2].
  auto.
Qed.

Lemma Inv_same s s1 log :
  _activeAlerts s1 = _activeAlerts s ->
  _alertHistory s1 = _alertHistory s ->
  Inv s log -> Inv s1 log.
Proof. unfold Inv. intros -> ->. auto. Qed.

Lemma Inv_createModuleErrorAlerts output uuids now s log :
  Inv s log ->
  Inv (snd (createModuleErrorAlerts output uuids now s))
      (log ++ match fst (createModuleErrorAlerts output uuids now s) with
              | Some l => l
              | None => []
              end).
Proof.
  intros HI.
  destruct (createModuleErrorAlerts_cases output uuids now s)
    as [(-> & Ha & Hh)|(skip & groups & s1 & Ha & Hh & -> & ->)].
  - rewrite app_nil_r. eapply Inv_same; eauto.
  - apply Inv_createGroupAlerts. eapply Inv_same; eauto.
Qed.

Lemma runLog_snoc ops op : runLog (ops ++ [op]) = stepLog (runLog ops) op.
Proof. unfold runLog. rewrite fold_left_app. reflexivity. Qed.

Lemma run_Inv ops : Inv (run ops) (created ops).
Proof.
  unfold run, created.
  induction ops as [|op ops IH] using rev_ind.
  - unfold Inv, _maxActiveAlerts. simpl. repeat split; [lia | constructor].
  - rewrite runLog_snoc. destruct op as [d u n|i|o u n]; cbn [stepLog fst snd].
    + rewrite createAlert_fst. apply Inv_createAlert. exact IH.
    + apply Inv_clearAlert. exact IH.
    + apply Inv_createModuleErrorAlerts. exact IH.
Qed.

Lemma mkAlert_id_nonempty d u n : u <> "" -> id (mkAlert d u n) <> "".
Proof.
  intros Hu. simpl. unfold id_or.
  destruct (d_id d) as [i|]; [|exact Hu].
  destruct (String.eqb i "") eqn:E; [exact Hu|].
  apply String.eqb_neq. exact E.
Qed.

Lemma createGroupAlerts_ids skip groups uuids now :
  (forall k, uuids k <> "") ->
  forall k s,
    Forall (fun a => id a <> "")
           (fst (createGroupAlerts skip groups uuids k now s)).
Proof.
  intros Hu. induction groups as [|g groups IH]; intros k s;
    cbn [createGroupAlerts].
  - constructor.
  - destruct (existsb _ skip); [apply IH|].
    pose proof (createAlert_fst (moduleAlertData g now) (uuids k) now s) as Hfst.
    destruct (createAlert (moduleAlertData g now) (uuids k) now s) as [a s1].
    cbn [fst] in Hfst. subst a.
    specialize (IH (S k) s1).
    destruct (createGroupAlerts skip groups uuids (S k) now s1) as [alerts s2].
    cbn [fst] in *. constructor; [|exact IH].
    apply mkAlert_id_nonempty. apply Hu.
Qed.

Lemma created_ids_nonempty ops :
  Forall op_ok ops -> Forall (fun a => id a <> "") (created ops).
Proof.
  unfold created.
  induction ops as [|op ops IH] using rev_ind; intros Hok.
  - constructor.
  - apply Forall_app in Hok. destruct Hok as [Hok Hop].
    inversion Hop as [|? ? Hop1 _]; subst.
    rewrite runLog_snoc. specialize (IH Hok).
    destruct op as [d u n|i|o u n]; cbn [stepLog fst snd].
    + apply Forall_app. split; [exact IH|].
      rewrite createAlert_fst. constructor; [|constructor].
      apply mkAlert_id_nonempty. exact Hop1.
    + exact IH.
    + apply Forall_app. split; [exact IH|].
      destruct (createModuleErrorAlerts_cases o u n (fst (runLog ops)))
        as [(-> & _)|(skip & groups & s1 & _ & _ & -> & _)].
      * constructor.
      * apply createGroupAlerts_ids. exact Hop1.
Qed.

Lemma reachable_ids_nonempty s :
  reachable s -> Forall (fun a => id a <> "") (_activeAlerts s).
Proof.
  intros [ops [Hok <-]].
  eapply subseq_Forall; [apply (run_Inv ops) | apply created_ids_nonempty, Hok].
Qed.

End StoreFacts.

(** *** Claims about the alert store *)

Lemma twentyCritical_ok : Forall AlertService.op_ok twentyCritical.
Proof.
  unfold twentyCritical. apply Forall_forall. intros op Hin.
  apply in_map_iff in Hin. destruct Hin as [k [<- _]]. simpl. discriminate.
Qed.


(** C1.  Whatever sequence of [createAlert] and [clearAlert] calls (and of
    [createModuleErrorAlerts] calls) is applied to the empty store, at most 20
    alerts are active and the active list keeps the alerts in creation order.  When its 20 slots all hold critical alerts
    and a critical alert is created, the head of the list (the earliest
    inserted alert) is dropped and the new alert appended: the count stays 20
    and every active alert is still critical. *)
Theorem active_bounded_critical_fifo :
  forall ops : list AlertService.Op,
    let s := AlertService.run ops in
    (List.length (AlertService._activeAlerts s) <= 20)%nat
    /\ subseq (AlertService._activeAlerts s) (AlertService.created ops)
    /\ (forall d u n,
          List.length (AlertService._activeAlerts s) = 20%nat ->
          Forall (fun a => severity a = SevCritical)
                 (AlertService._activeAlerts s) ->
          severity (AlertService.mkAlert d u n) = SevCritical ->
          let r := AlertService.createAlert d u n s in
          fst r = AlertService.mkAlert d u n
          /\ AlertService._activeAlerts (snd r)
             = tl (AlertService._activeAlerts s) ++ [fst r]
          /\ List.length (AlertService._activeAlerts (snd r)) = 20%nat
          /\ Forall (fun a => severity a = SevCritical)
                    (AlertService._activeAlerts (snd r))).
Proof.
  intros ops s. split; [|split].
  - apply (run_Inv ops).
  - apply (run_Inv ops).
  - intros d u n Hlen Hall Hsev r. subst r.
    rewrite createAlert_fst. split; [reflexivity|].
    destruct (createAlert_active d u n s)
      as [[Hlt _]|[[i (_ & Hfi & _)]|[(_ & _ & Hne & _)|(_ & _ & _ & Heq)]]].
    + unfold AlertService._maxActiveAlerts in Hlt. lia.
    + exfalso. rewrite findIndex_all_None in Hfi; [discriminate|].
      eapply Forall_impl; [|exact Hall]. simpl. intros a Ha.
      apply isCritical_true in Ha. rewrite Ha. reflexivity.
    + contradiction.
    + rewrite Heq. split; [reflexivity|]. split.
      * rewrite length_app. simpl.
        destruct (AlertService._activeAlerts s); simpl in *; lia.
      * apply Forall_app. split.
        -- eapply subseq_Forall; [apply subseq_tl | exact Hall].
        -- constructor; [exact Hsev | constructor].
Qed.

Lemma active_bounded_critical_fifo_witness :
  let s := AlertService.run twentyCritical in
  let r := AlertService.createAlert (criticalDraft 20) "new-uuid" 2000 s in
  (List.length (AlertService._activeAlerts s) <= 20)%nat
  /\ AlertService._activeAlerts (snd r)
     = tl (AlertService._activeAlerts s) ++ [fst r]
  /\ List.length (AlertService._activeAlerts (snd r)) = 20%nat.
Proof.
  intros s r.
  destruct (active_bounded_critical_fifo twentyCritical) as (Hle & _ & Hfull).
  destruct (Hfull (criticalDraft 20) "new-uuid" 2000%Z)
    as (_ & Hact & Hlen & _).
  - reflexivity.
  - vm_compute. repeat constructor.
  - reflexivity.
  - subst s r. auto.
Defined.

(** C6.  When the 20 active alerts are all critical and the alert being
    created is not, [createAlert] leaves the active list as it is and still
    puts the new alert at the front of the history. *)
Theorem noncritical_rejected_when_all_critical :
  forall (s : AlertService.t) d u n,
    List.length (AlertService._activeAlerts s) = 20%nat ->
    Forall (fun a => severity a = SevCritical) (AlertService._activeAlerts s) ->
    severity (AlertService.mkAlert d u n) <> SevCritical ->
    let r := AlertService.createAlert d u n s in
    fst r = AlertService.mkAlert d u n
    /\ AlertService._activeAlerts (snd r) = AlertService._activeAlerts s
    /\ AlertService._alertHistory (snd r)
       = firstn 50 (fst r :: AlertService._alertHistory s)
    /\ hd_error (AlertService._alertHistory (snd r)) = Some (fst r).
Proof.
  intros s d u n Hlen Hall Hsev r. subst r.
  rewrite createAlert_history, createAlert_fst.
  split; [reflexivity|]. split; [|split; reflexivity].
  destruct (createAlert_active d u n s)
    as [[Hlt _]|[[i (_ & Hfi & _)]|[(_ & _ & _ & Heq)|(_ & _ & Hc & _)]]].
  - unfold AlertService._maxActiveAlerts in Hlt. lia.
  - exfalso. rewrite findIndex_all_None in Hfi; [discriminate|].
    eapply Forall_impl; [|exact Hall]. simpl. intros a Ha.
    apply isCritical_true in Ha. rewrite Ha. reflexivity.
  - exact Heq.
  - contradiction.
Qed.

Lemma noncritical_rejected_when_all_critical_witness :
  let s := AlertService.run twentyCritical in
  let r := AlertService.createAlert infoDraft "info-uuid" 3000 s in
  AlertService._activeAlerts (snd r) = AlertService._activeAlerts s
  /\ hd_error (AlertService._alertHistory (snd r)) = Some (fst r).
Proof.
  intros s r.
  destruct (noncritical_rejected_when_all_critical s infoDraft "info-uuid" 3000%Z)
    as (_ & Hact & _ & Hhd).
  - reflexivity.
  - vm_compute. repeat constructor.
  - simpl. discriminate.
  - subst r. auto.
Defined.

(** C7.  After any sequence of calls of the store's methods the history is
    the list of the (at most) 50 most recently created alerts, newest first,
    whether or not those alerts entered or stayed in the active set; the
    alert a further [createAlert] returns is at index 0 of the history. *)
Theorem history_is_last_50_created_newest_first :
  forall ops : list AlertService.Op,
    AlertService.getAlertHistory (AlertService.run ops)
    = firstn 50 (rev (AlertService.created ops))
    /\ (List.length (AlertService.getAlertHistory (AlertService.run ops))
        <= 50)%nat
    /\ forall d u n,
         let r := AlertService.createAlert d u n (AlertService.run ops) in
         AlertService.getAlertHistory (snd r)
         = firstn 50 (fst r :: rev (AlertService.created ops))
         /\ hd_error (AlertService.getAlertHistory (snd r)) = Some (fst r).
Proof.
  intros ops. unfold AlertService.getAlertHistory.
  destruct (run_Inv ops) as (_ & _ & Hhist). split; [exact Hhist|]. split.
  - rewrite Hhist. apply firstn_le_length.
  - intros d u n. cbv zeta. rewrite createAlert_history, createAlert_fst.
    rewrite Hhist. unfold AlertService._maxHistorySize.
    rewrite firstn_cons_firstn. split; reflexivity.
Qed.

(** C8.  In a store reached from the empty one, [clearAlert(id)] for an id
    that is active keeps exactly the active alerts with another id, in their
    order (it removes one alert when ids are distinct), and [clearAlert()]
    empties the active list; neither changes the history. *)
Theorem clearAlert_removes_id_keeps_rest_and_history :
  forall s : AlertService.t,
    AlertService.reachable s ->
    forall i : string,
      In i (map id (AlertService._activeAlerts s)) ->
      let s' := AlertService.clearAlert (Some i) s in
      AlertService._activeAlerts s'
      = filter (fun a => negb (String.eqb (id a) i)) (AlertService._activeAlerts s)
      /\ (forall a, In a (AlertService._activeAlerts s') <->
                    In a (AlertService._activeAlerts s) /\ id a <> i)
      /\ subseq (AlertService._activeAlerts s') (AlertService._activeAlerts s)
      /\ (NoDup (map id (AlertService._activeAlerts s)) ->
          exists l1 a l2,
            AlertService._activeAlerts s = l1 ++ a :: l2 /\ id a = i
            /\ AlertService._activeAlerts s' = l1 ++ l2)
      /\ AlertService._alertHistory s' = AlertService._alertHistory s
      /\ AlertService._activeAlerts (AlertService.clearAlert None s) = []
      /\ AlertService._alertHistory (AlertService.clearAlert None s)
         = AlertService._alertHistory s.
Proof.
  intros s Hreach i Hin s'.
  assert (Hne : i <> "").
  { apply reachable_ids_nonempty in Hreach. rewrite Forall_forall in Hreach.
    apply in_map_iff in Hin. destruct Hin as [a [<- Ha]]. auto. }
  assert (Hact : AlertService._activeAlerts s'
                 = filter (fun a => negb (String.eqb (id a) i))
                          (AlertService._activeAlerts s)).
  { subst s'. unfold AlertService.clearAlert.
    apply String.eqb_neq in Hne. rewrite Hne. reflexivity. }
  split; [exact Hact|]. split; [|split; [|split; [|split; [|split]]]].
  - intros a. rewrite Hact, filter_In. split; intros [H1 H2]; split; auto.
    + intros He. rewrite He, String.eqb_refl in H2. discriminate.
    + apply String.eqb_neq in H2. rewrite H2. reflexivity.
  - rewrite Hact. apply subseq_filter.
  - rewrite Hact. clear -Hin.
    induction (AlertService._activeAlerts s) as [|x l IH]; simpl in *;
      [contradiction|]. intros Hnd. inversion Hnd as [|? ? Hnotin Hnd']; subst.
    destruct (String.eqb (id x) i) eqn:E; simpl.
    + apply String.eqb_eq in E. exists [], x, l. repeat split; auto. simpl.
      f_equal. clear -Hnotin E. induction l as [|y l IH]; simpl; [reflexivity|].
      destruct (String.eqb (id y) i) eqn:E'; simpl.
      * exfalso. apply Hnotin. simpl. left. apply String.eqb_eq in E'. congruence.
      * f_equal. apply IH. intros H. apply Hnotin. right. exact H.
    + destruct Hin as [Hx|Hin]; [rewrite Hx, String.eqb_refl in E; discriminate|].
      destruct (IH Hin Hnd') as (l1 & a & l2 & -> & Ha & Hf).
      exists (x :: l1), a, l2. repeat split; auto. simpl. f_equal. exact Hf.
  - apply clearAlert_history.
  - reflexivity.
  - reflexivity.
Qed.

Lemma clearAlert_removes_id_keeps_rest_and_history_witness :
  let s := AlertService.run twentyCritical in
  let s' := AlertService.clearAlert (Some "C-uuid") s in
  List.length (AlertService._activeAlerts s') = 19%nat
  /\ AlertService._alertHistory s' = AlertService._alertHistory s.
Proof.
  intros s s'.
  destruct (clearAlert_removes_id_keeps_rest_and_history s
              (ex_intro _ twentyCritical (conj twentyCritical_ok eq_refl))
              "C-uuid")
    as (Hact & _ & _ & _ & Hhist & _).
  - vm_compute. tauto.
  - subst s'. split; [rewrite Hact; reflexivity | exact Hhist].
Defined.

(** *** Strings and maps *)

Lemma startsWith_spec (s p : string) :
  Js.startsWith s p = true <-> exists q, s = (p ++ q)%string.
Proof.
  revert s. induction p as [|a p IH]; intros s.
  - split; [intros _; exists s; reflexivity | intros _; destruct s; reflexivity].
  - destruct s as [|b s]; cbn [Js.startsWith].
    + split; [discriminate | intros [q Hq]; discriminate].
    + destruct (Ascii.eqb a b) eqn:E.
      * apply Ascii.eqb_eq in E. subst b. rewrite IH. split.
        -- intros [q ->]. exists q. reflexivity.
        -- intros [q Hq]. inversion Hq. exists q. reflexivity.
      * split; [discriminate|]. intros [q Hq]. inversion Hq; subst.
        rewrite Ascii.eqb_refl in E. discriminate.
Qed.

(** [Js.includes] is the substring test. *)
Lemma includes_spec (s sub : string) :
  Js.includes s sub = true
  <-> exists pre post, s = (pre ++ sub ++ post)%string.
Proof.
  induction s as [|c s IH].
  - cbn [Js.includes]. destruct (Js.startsWith "" sub) eqn:E.
    + split; [|reflexivity]. intros _. apply startsWith_spec in E.
      destruct E as [q Hq]. exists "", q. exact Hq.
    + split; [discriminate|]. intros (pre & post & H).
      destruct pre; [|discriminate]. simpl in H.
      assert (Js.startsWith "" sub = true)
        by (apply startsWith_spec; exists post; exact H).
      congruence.
  - cbn [Js.includes]. destruct (Js.startsWith (String c s) sub) eqn:E.
    + split; [|reflexivity]. intros _. apply startsWith_spec in E.
      destruct E as [q Hq]. exists "", q. exact Hq.
    + rewrite IH. split.
      * intros (pre & post & ->). exists (String c pre), post. reflexivity.
      * intros (pre & post & H). destruct pre as [|d pre].
        -- simpl in H.
           assert (Js.startsWith (String c s) sub = true)
             by (apply startsWith_spec; exists post; exact H).
           congruence.
        -- inversion H. exists pre, post. reflexivity.
Qed.

Lemma mget_mset_same {V} (k : string) (v : V) (m : list (string * V)) :
  Js.mget k (Js.mset k v m) = Some v.
Proof.
  induction m as [|[k' v'] m IH]; simpl.
  - rewrite String.eqb_refl. reflexivity.
  - destruct (String.eqb k' k) eqn:E; simpl.
    + rewrite String.eqb_refl. reflexivity.
    + rewrite E. exact IH.
Qed.

(** *** The guards on the literal [Module not found: Can't resolve] *)

Lemma createModuleErrorAlerts_without_literal output uuids now s :
  Js.includes output AlertService.moduleNotFoundLiteral = false ->
  AlertService.createModuleErrorAlerts output uuids now s = (None, s).
Proof.
  intros H. unfold AlertService.createModuleErrorAlerts. rewrite H.
  rewrite orb_true_r. reflexivity.
Qed.

Lemma processConsoleErrors_without_literal output uuids now s :
  Js.includes output AlertService.moduleNotFoundLiteral = false ->
  Console.processConsoleErrors output uuids now s = (Console.Ignored, s).
Proof.
  intros H. unfold Console.processConsoleErrors. rewrite H. simpl.
  destruct (String.eqb output ""); reflexivity.
Qed.

(** *** Claims about the classifier, the dedup cache and the pipeline *)

(** C2 (as stated, refuted).  Fifty-one distinct modules are reported
    within 51 ms; the context cache then keeps 25 entries and drops [m51],
    which stays in the module tier.  The next report of [m51] is suppressed
    by the module tier although its module name is extracted, and no cache
    changes: the accumulator of [m51] is not updated. *)
Lemma suppressed_occurrence_without_context_update :
  let s := Console.runCalls fiftyOneModules Console.initial in
  let r := Console.processConsoleErrors (moduleMessage 51) (fun _ => "uuid")
                                        1100 s in
  Console.moduleNameOf (moduleMessage 51) = "m51"
  /\ fst r = Console.SuppressedByModuleTier
  /\ Js.mget "m51" (Console.errorContextCache s) = None
  /\ Js.mget "m51" (Console.errorContextCache (snd r)) = None
  /\ snd r = s.
Proof. vm_compute. repeat split; reflexivity. Qed.

(** C2 (amended).  [processConsoleErrors] accepts an occurrence only when
    both tiers are stale: the module name is empty or absent from the module
    tier or at least 5000 ms old there, and the signature is absent from the
    signature tier or at least 1000 ms old there.  An occurrence suppressed
    by the module tier whose module has an entry in the context cache gets
    that entry updated in place: count plus one, lastSeen set to now, the
    first 300 characters appended to contexts unless a stored context
    contains their first 100 characters (the oldest dropped when five are
    stored), and the tag browser added to the set of tags when the text
    contains [webpack-internal:], otherwise node when it contains
    [node_modules], otherwise no tag: the new set is the old one with that
    tag added by [Set.add], so no tag is lost; nothing else changes.  An
    occurrence suppressed by the module tier without such an entry, or
    suppressed by the signature tier, changes nothing. *)
Theorem dedup_tiers_and_context_update :
  forall (s : Console.t) (consoleOutput : string) (uuids : nat -> string)
         (now : Z),
    let r := Console.processConsoleErrors consoleOutput uuids now s in
    let moduleName := Console.moduleNameOf consoleOutput in
    let errorSignature := Console.errorSignatureOf consoleOutput in
    (forall alerts,
        fst r = Console.Accepted alerts ->
        (moduleName = ""
         \/ forall t, Js.mget moduleName (Console.moduleErrorCache s) = Some t ->
                      (5000 <= now - t)%Z)
        /\ (forall t,
               Js.mget errorSignature (Console.lastProcessedErrors s) = Some t ->
               (1000 <= now - t)%Z))
    /\ (forall c,
           fst r = Console.SuppressedByModuleTier ->
           Js.mget moduleName (Console.errorContextCache s) = Some c ->
           exists c',
             Console.errorContextCache (snd r)
             = Js.mset moduleName c' (Console.errorContextCache s)
             /\ Js.mget moduleName (Console.errorContextCache (snd r)) = Some c'
             /\ Console.count c' = (Console.count c + 1)%Z
             /\ Console.firstSeen c' = Console.firstSeen c
             /\ Console.lastSeen c' = now
             /\ Console.contexts c'
                = (if existsb
                        (fun ctx =>
                           Js.includes ctx
                             (Js.substring0 100 (Js.substring0 300 consoleOutput)))
                        (Console.contexts c)
                   then Console.contexts c
                   else (if (5 <=? List.length (Console.contexts c))%nat
                         then tl (Console.contexts c)
                         else Console.contexts c)
                        ++ [Js.substring0 300 consoleOutput])
             /\ ((List.length (Console.contexts c) <= 5)%nat ->
                 (List.length (Console.contexts c') <= 5)%nat)
             /\ (Js.includes consoleOutput "webpack-internal:" = true ->
                 Console.sourceTypes c'
                 = Console.setAdd "browser" (Console.sourceTypes c)
                 /\ In "browser" (Console.sourceTypes c'))
             /\ (Js.includes consoleOutput "webpack-internal:" = false ->
                 Js.includes consoleOutput "node_modules" = true ->
                 Console.sourceTypes c'
                 = Console.setAdd "node" (Console.sourceTypes c)
                 /\ In "node" (Console.sourceTypes c'))
             /\ (Js.includes consoleOutput "webpack-internal:" = false ->
                 Js.includes consoleOutput "node_modules" = false ->
                 Console.sourceTypes c' = Console.sourceTypes c)
             /\ (forall tag, In tag (Console.sourceTypes c) ->
                             In tag (Console.sourceTypes c'))
             /\ Console.lastProcessedErrors (snd r) = Console.lastProcessedErrors s
             /\ Console.moduleErrorCache (snd r) = Console.moduleErrorCache s
             /\ Console.alertService (snd r) = Console.alertService s)
    /\ ((fst r = Console.SuppressedByModuleTier
         /\ Js.mget moduleName (Console.errorContextCache s) = None)
        \/ fst r = Console.SuppressedBySignatureTier ->
        snd r = s).
Proof.
  intros s consoleOutput uuids now r moduleName errorSignature.
  subst r. unfold Console.processConsoleErrors.
  fold moduleName. fold errorSignature.
  destruct (String.eqb consoleOutput "");
    [simpl; repeat split; try discriminate; intros [[H _]|H]; discriminate|].
  destruct (negb (Js.includes consoleOutput AlertService.moduleNotFoundLiteral));
    [simpl; repeat split; try discriminate; intros [[H _]|H]; discriminate|].
  destruct (Console.moduleTierFresh moduleName now s) eqn:Hmod.
  - (* suppressed by the module tier *)
    destruct (Js.mget moduleName (Console.errorContextCache s)) as [c0|] eqn:Hctx.
    + cbn [fst snd]. split; [discriminate|]. split.
      * intros c _ Hc. inversion Hc; subst c0.
        exists (Console.touchContext consoleOutput now c).
        cbn [Console.errorContextCache Console.lastProcessedErrors
             Console.moduleErrorCache Console.alertService].
        rewrite mget_mset_same.
        unfold Console.touchContext.
        cbn [Console.count Console.firstSeen Console.lastSeen Console.contexts
             Console.sourceTypes].
        repeat match goal with |- _ /\ _ => split end;
          try match goal with |- _ = _ => reflexivity end.
        -- intros Hlen.
           destruct (existsb _ (Console.contexts c)); [exact Hlen|].
           rewrite length_app. cbn [List.length].
           destruct (5 <=? List.length (Console.contexts c))%nat eqn:E.
           ++ apply Nat.leb_le in E.
              destruct (Console.contexts c); simpl in *; lia.
           ++ apply Nat.leb_gt in E. lia.
        -- intros ->. split; [reflexivity|]. unfold Console.setAdd.
           destruct (existsb (String.eqb "browser") (Console.sourceTypes c)) eqn:E.
           ++ apply existsb_exists in E. destruct E as [x [Hx Hx']].
              apply String.eqb_eq in Hx'. subst x. exact Hx.
           ++ apply in_or_app. right. left. reflexivity.
        -- intros -> ->. split; [reflexivity|]. unfold Console.setAdd.
           destruct (existsb (String.eqb "node") (Console.sourceTypes c)) eqn:E.
           ++ apply existsb_exists in E. destruct E as [x [Hx Hx']].
              apply String.eqb_eq in Hx'. subst x. exact Hx.
           ++ apply in_or_app. right. left. reflexivity.
        -- intros -> ->. reflexivity.
        -- intros tag Htag.
           assert (Hadd : forall x, In tag (Console.setAdd x (Console.sourceTypes c))).
           { intros x. unfold Console.setAdd.
             destruct (existsb (String.eqb x) (Console.sourceTypes c));
               [exact Htag | apply in_or_app; left; exact Htag]. }
           destruct (Js.includes consoleOutput "webpack-internal:");
             [apply Hadd|].
           destruct (Js.includes consoleOutput "node_modules");
             [apply Hadd | exact Htag].
      * intros [[_ H]|H]; discriminate.
    + cbn [fst snd]. split; [discriminate|]. split.
      * intros c _ Hc. discriminate.
      * intros _. reflexivity.
  - destruct (Console.signatureTierFresh errorSignature now s) eqn:Hsig.
    + cbn [fst snd]. split; [discriminate|]. split.
      * intros c H. discriminate.
      * intros _. reflexivity.
    + (* accepted *)
      assert (Hstale :
                (moduleName = ""
                 \/ forall t,
                    Js.mget moduleName (Console.moduleErrorCache s) = Some t ->
                    (5000 <= now - t)%Z)
                /\ (forall t,
                       Js.mget errorSignature (Console.lastProcessedErrors s)
                       = Some t ->
                       (1000 <= now - t)%Z)).
      { split.
        - unfold Console.moduleTierFresh in Hmod.
          destruct (String.eqb moduleName "") eqn:E.
          + left. apply String.eqb_eq. exact E.
          + right. intros t Ht. rewrite Ht in Hmod. simpl in Hmod.
            apply Z.ltb_ge in Hmod. exact Hmod.
        - intros t Ht. unfold Console.signatureTierFresh in Hsig.
          rewrite Ht in Hsig. apply Z.ltb_ge in Hsig. exact Hsig. }
      destruct (Shell.processModuleErrors consoleOutput now).
      * destruct (AlertService.createModuleErrorAlerts _ _ _ _) as [alerts svc].
        cbn [fst snd]. split; [intros _ _; exact Hstale|].
        split; [intros c H; discriminate | intros [[H _]|H]; discriminate].
      * cbn [fst snd]. split; [intros _ _; exact Hstale|].
        split; [intros c H; discriminate | intros [[H _]|H]; discriminate].
Qed.

Lemma dedup_tiers_and_context_update_witness :
  let s := Console.runCalls [(moduleMessage 1, 1000%Z)] Console.initial in
  let r := Console.processConsoleErrors (browserModuleMessage 1)
                                        (fun _ => "uuid") 1100 s in
  exists c',
    Js.mget "m1" (Console.errorContextCache (snd r)) = Some c'
    /\ Console.count c' = 2%Z /\ Console.lastSeen c' = 1100%Z
    /\ Console.sourceTypes c' = ["browser"].
Proof.
  intros s r.
  destruct (dedup_tiers_and_context_update s (browserModuleMessage 1)
              (fun _ => "uuid") 1100%Z) as (_ & Hupd & _).
  destruct (Hupd {| Console.count := 1; Console.firstSeen := 1000;
                    Console.lastSeen := 1000;
                    Console.contexts := [moduleMessage 1];
                    Console.sourceTypes := [] |})
    as (c' & _ & Hget & Hcount & _ & Hlast & _ & _ & Htag & _).
  - reflexivity.
  - reflexivity.
  - exists c'. subst r. destruct Htag as [Htag _]; [reflexivity|].
    repeat split; assumption.
Defined.

(** C3.  On the input of scenario 1 [detectGoroutineErrors] returns two
    records, for goroutines 42 and 36; the first has errorType [pipe] (not
    [closed_pipe]) and the second [panic]. *)
Theorem detectGoroutineErrors_scenario :
  Shell.detectGoroutineErrors goroutineScenario
  = [ {| Shell.errorType := "pipe";
         Shell.message := "runtime: too many writes on closed pipe";
         Shell.stackTrace := [];
         Shell.goroutineId := "42";
         Shell.state := "running";
         Shell.additionalInfo := None |};
      {| Shell.errorType := "panic";
         Shell.message := "fatal error: runtime: out of memory";
         Shell.stackTrace := [];
         Shell.goroutineId := "36";
         Shell.state := "running";
         Shell.additionalInfo := None |} ]
  /\ map Shell.errorType (Shell.detectGoroutineErrors goroutineScenario)
     <> ["closed_pipe"; "panic"].
Proof. split; [vm_compute; reflexivity | vm_compute; discriminate]. Qed.

(** C4 (as stated, refuted).  Three submissions of the registry-404 text to
    [createModuleErrorAlerts], 100 ms apart, starting from the empty store:
    each returns null and no alert is ever created. *)
Lemma registry404_three_submissions_create_nothing :
  let r1 := AlertService.createModuleErrorAlerts registry404Scenario uuidOf
                                                 1000 AlertService.empty in
  let r2 := AlertService.createModuleErrorAlerts registry404Scenario uuidOf
                                                 1100 (snd r1) in
  let r3 := AlertService.createModuleErrorAlerts registry404Scenario uuidOf
                                                 1200 (snd r2) in
  fst r1 = None /\ fst r2 = None /\ fst r3 = None
  /\ AlertService._activeAlerts (snd r3) = []
  /\ AlertService._alertHistory (snd r3) = [].
Proof. vm_compute. repeat split; reflexivity. Qed.

(** C4 (amended).  The registry-404 text of scenario 2 lacks the literal
    [Module not found: Can't resolve]: every submission of it to
    [createModuleErrorAlerts] returns null and leaves the service unchanged,
    and every submission to [processConsoleErrors] is ignored and leaves the
    caches unchanged, so three submissions create no alert.  The display-side
    classifier [getNpmErrorInfo] names the module of this text
    [@my-scope/my-lib], without the version suffix. *)
Theorem registry404_scenario_creates_no_alert :
  (forall uuids t1 t2 t3 (s : AlertService.t),
      let r1 := AlertService.createModuleErrorAlerts registry404Scenario uuids
                                                     t1 s in
      let r2 := AlertService.createModuleErrorAlerts registry404Scenario uuids
                                                     t2 (snd r1) in
      let r3 := AlertService.createModuleErrorAlerts registry404Scenario uuids
                                                     t3 (snd r2) in
      fst r1 = None /\ fst r2 = None /\ fst r3 = None /\ snd r3 = s)
  /\ (forall uuids now (s : Console.t),
         Console.processConsoleErrors registry404Scenario uuids now s
         = (Console.Ignored, s))
  /\ option_map ChatAlert.moduleName
                (ChatAlert.getNpmErrorInfo registry404Scenario)
     = Some "@my-scope/my-lib".
Proof.
  assert (Hlit : Js.includes registry404Scenario
                             AlertService.moduleNotFoundLiteral = false)
    by (vm_compute; reflexivity).
  split; [|split].
  - intros uuids t1 t2 t3 s r1 r2 r3. subst r1 r2 r3.
    repeat (rewrite (createModuleErrorAlerts_without_literal _ _ _ _ Hlit);
            cbn [fst snd]).
    repeat split; reflexivity.
  - intros uuids now s.
    apply processConsoleErrors_without_literal. exact Hlit.
  - vm_compute. reflexivity.
Qed.

(** C5 (as stated, refuted).  The text of scenario 5 has the prefix
    [plugin:x:], which the classifier does not know: it returns null. *)
Lemma plugin_x_text_is_not_classified :
  ChatAlert.getPreviewErrorInfo pluginScenario = None.
Proof. vm_compute. reflexivity. Qed.

(** C5 (amended).  [getPreviewErrorInfo] recognises the bundler's prefix
    [plugin:vite:] only.  For the text of scenario 5 written with that prefix
    it returns one record with filePath [/home/p/App.tsx], line 154, column
    3, errorType [syntax] and the message [Unterminated template]; for the
    text with the prefix [plugin:x:] it returns null. *)
Theorem vite_unterminated_template_classified :
  ChatAlert.getPreviewErrorInfo vitePluginScenario
  = Some {| ChatAlert.filePath := "/home/p/App.tsx";
            ChatAlert.line := Some 154%Z;
            ChatAlert.column := Some 3%Z;
            ChatAlert.errorType := "syntax";
            ChatAlert.errorMessage := "Unterminated template";
            ChatAlert.severity := SevError;
            ChatAlert.title := Some "Erro de sintaxe: Template não terminado";
            ChatAlert.description :=
              Some "Existe um template não terminado no arquivo /home/p/App.tsx na linha 154." |}
  /\ ChatAlert.getPreviewErrorInfo pluginScenario = None.
Proof. split; vm_compute; reflexivity. Qed.

(** The [catch] block returns normally and dispatches one alert. *)
Lemma catchBody_dispatches (World : Type)
      (Date_now random1000 : World -> Z * World)
      (errorText : string) (w : World) (evs : list ActionAlert) :
  exists alert w',
    WebContainer.catchBody World Date_now random1000 errorText w evs
    = (WebContainer.Returned tt, w', evs ++ [alert])
    /\ type alert = "processing-error"
    /\ source alert = Some SrcSystem
    /\ severity alert = SevInfo
    /\ content alert = errorText
    /\ actionable alert = Some false.
Proof.
  unfold WebContainer.catchBody, WebContainer.freshId, WebContainer.bind,
    WebContainer.read, WebContainer.ret, WebContainer.dispatchEvent.
  destruct (Date_now w) as [t1 w1].
  destruct (random1000 w1) as [r w2].
  destruct (Date_now w2) as [t2 w3].
  eexists. exists w3. split; [reflexivity|].
  repeat split; reflexivity.
Qed.

(** C9.  Whatever the imported classifier and console processor do, the
    terminal-output callback returns normally: nothing is thrown to its
    caller.  When the statements inside [try] throw, in particular when
    [processModuleErrors] throws, one more alert is dispatched, of type
    [processing-error], source [system], severity [info] (the lowest), not
    actionable, whose content is the text being processed. *)
Theorem processing_exception_becomes_fallback_alert :
  forall (World : Type)
         (processModuleErrors :
            string -> World
            -> WebContainer.Result (option Shell.ProcessedErrorResult) * World)
         (processConsoleErrors :
            string -> World -> WebContainer.Result unit * World)
         (Date_now random1000 : World -> Z * World)
         (errorText : string) (w : World) (evs : list ActionAlert),
    let run := WebContainer.debouncedProcessErrors
                 World processModuleErrors processConsoleErrors
                 Date_now random1000 errorText w evs in
    let fallback (alert : ActionAlert) :=
      type alert = "processing-error"
      /\ source alert = Some SrcSystem
      /\ severity alert = SevInfo
      /\ content alert = errorText
      /\ actionable alert = Some false in
    (exists w' evs', run = (WebContainer.Returned tt, w', evs'))
    /\ (forall err w1 evs1,
           WebContainer.tryBody World processModuleErrors processConsoleErrors
                                Date_now random1000 errorText w evs
           = (WebContainer.Thrown err, w1, evs1) ->
           exists alert w',
             run = (WebContainer.Returned tt, w', evs1 ++ [alert])
             /\ fallback alert)
    /\ (forall err w1,
           processModuleErrors errorText w = (WebContainer.Thrown err, w1) ->
           exists alert w',
             run = (WebContainer.Returned tt, w', evs ++ [alert])
             /\ fallback alert).
Proof.
  intros World pme pce Date_now random1000 errorText w evs run fallback.
  assert (Hthrow :
            forall err w1 evs1,
              WebContainer.tryBody World pme pce Date_now random1000
                                   errorText w evs
              = (WebContainer.Thrown err, w1, evs1) ->
              exists alert w',
                run = (WebContainer.Returned tt, w', evs1 ++ [alert])
                /\ fallback alert).
  { intros err w1 evs1 Hbody. subst run.
    unfold WebContainer.debouncedProcessErrors, WebContainer.tryCatch.
    rewrite Hbody.
    destruct (catchBody_dispatches World Date_now random1000 errorText w1 evs1)
      as (alert & w' & Heq & Hf).
    exists alert, w'. split; [exact Heq | exact Hf]. }
  split; [|split].
  - subst run.
    unfold WebContainer.debouncedProcessErrors, WebContainer.tryCatch.
    destruct (WebContainer.tryBody World pme pce Date_now random1000
                                   errorText w evs)
      as [[[[]|err] w1] evs1] eqn:Hbody.
    + exists w1, evs1. reflexivity.
    + destruct (catchBody_dispatches World Date_now random1000 errorText w1 evs1)
        as (alert & w' & Heq & _).
      exists w', (evs1 ++ [alert]). exact Heq.
  - exact Hthrow.
  - intros err w1 Hpme. apply (Hthrow err w1 evs).
    unfold WebContainer.tryBody, WebContainer.bind, WebContainer.call.
    rewrite Hpme. reflexivity.
Qed.

Lemma processing_exception_becomes_fallback_alert_witness :
  exists alert,
    WebContainer.debouncedProcessErrors
      unit throwingClassifier silentConsole fixedClock fixedRandom
      "goroutine 1 [running]:" tt []
    = (WebContainer.Returned tt, tt, [alert])
    /\ type alert = "processing-error"
    /\ content alert = "goroutine 1 [running]:".
Proof.
  destruct (processing_exception_becomes_fallback_alert
              unit throwingClassifier silentConsole fixedClock fixedRandom
              "goroutine 1 [running]:" tt [])
    as (_ & _ & Hpme).
  destruct (Hpme "TypeError" tt eq_refl)
    as (alert & w' & Heq & Hty & _ & _ & Hco & _).
  exists alert. destruct w'. repeat split; assumption.
Defined.

(** C10.  For a text that does not contain the literal
    [Module not found: Can't resolve], [createModuleErrorAlerts] returns
    null and the service (active alerts, history, dedup cache) is exactly as
    before, whatever else the text matches. *)
Theorem createModuleErrorAlerts_null_without_literal :
  forall (output : string) (uuids : nat -> string) (now : Z)
         (s : AlertService.t),
    ~ (exists pre post,
          output = (pre ++ "Module not found: Can't resolve" ++ post)%string) ->
    AlertService.createModuleErrorAlerts output uuids now s = (None, s).
Proof.
  intros output uuids now s Hno.
  apply createModuleErrorAlerts_without_literal.
  destruct (Js.includes output AlertService.moduleNotFoundLiteral) eqn:E;
    [|reflexivity].
  exfalso. apply Hno. apply includes_spec. exact E.
Qed.

Lemma createModuleErrorAlerts_null_without_literal_witness :
  Shell.processModuleErrors "Error: Cannot find module 'lodash'" 1000 <> None
  /\ AlertService.createModuleErrorAlerts
       "Error: Cannot find module 'lodash'" uuidOf 1000
       (AlertService.run twentyCritical)
     = (None, AlertService.run twentyCritical).
Proof.
  split.
  - vm_compute. discriminate.
  - apply createModuleErrorAlerts_null_without_literal.
    intros H. apply includes_spec in H. vm_compute in H. discriminate.
Defined.

(** *** Agreement with the repository's tests

    The expectations of app/tests/errorDetection.test.ts and
    app/tests/chatAlert.test.tsx, evaluated on the embedding. *)

Example test_detects_cannot_find_module :
  map (fun e => (Shell.moduleName e, Shell.filePath e,
                 Shell.lineNumber e, Shell.columnNumber e))
      (Shell.detectModuleNotFoundErrors testCannotFindModule 0)
  = [("react-query", "/app/src/components/App.js", 3%Z, 1%Z)].
Proof. vm_compute. reflexivity. Qed.

Example test_detects_npm_404 :
  map Shell.moduleName (Shell.detectModuleNotFoundErrors testNpm404 0)
  = ["react-quary"].
Proof. vm_compute. reflexivity. Qed.

Example test_detects_two_modules :
  map Shell.moduleName (Shell.detectModuleNotFoundErrors testTwoModules 0)
  = ["react-dom"; "@emotion/react"].
Proof. vm_compute. reflexivity. Qed.

Example test_detects_version_not_found :
  map Shell.moduleName (Shell.detectModuleNotFoundErrors testVersionNotFound 0)
  = ["react-dom"].
Proof. vm_compute. reflexivity. Qed.

Example test_detects_closed_pipe :
  map (fun e => (Shell.errorType e, Shell.goroutineId e, Shell.state e,
                 negb (Nat.eqb (List.length (Shell.stackTrace e)) 0)))
      (Shell.detectGoroutineErrors testClosedPipe)
  = [("closed_pipe", "42", "running", true)].
Proof. vm_compute. reflexivity. Qed.

Example test_detects_panic :
  map (fun e => (Shell.errorType e, Shell.goroutineId e, Shell.state e))
      (Shell.detectGoroutineErrors testPanic)
  = [("panic", "36", "running")].
Proof. vm_compute. reflexivity. Qed.

Example test_groups_module_errors :
  option_map
    (fun r => (map (fun g => (Shell.isModuleGroup g, Shell.pe_moduleName g,
                              Shell.errorCount g))
                   (Shell.alertGroups r),
               Shell.totalErrorCount r))
    (Shell.processModuleErrors testLodashTwice 0)
  = Some ([(true, "lodash", 2%Z)], 2%Z).
Proof. vm_compute. reflexivity. Qed.

Example test_no_errors_is_null :
  Shell.processModuleErrors testNoErrors 0 = None.
Proof. vm_compute. reflexivity. Qed.

Example test_npm_info_file_system :
  option_map ChatAlert.moduleName
    (ChatAlert.getNpmErrorInfo
       "Error: ENOENT: no such file or directory, open /app/package.json")
  = Some "file-system".
Proof. vm_compute. reflexivity. Qed.

Example test_npm_info_error_code :
  option_map ChatAlert.moduleName
    (ChatAlert.getNpmErrorInfo "npm ERR! code EACCES")
  = Some "EACCES".
Proof. vm_compute. reflexivity. Qed.

Example test_npm_info_unscoped_registry :
  option_map ChatAlert.moduleName
    (ChatAlert.getNpmErrorInfo
       "npm ERR! 404 react-quary is not in the npm registry")
  = Some "react-quary".
Proof. vm_compute. reflexivity. Qed.

Example test_preview_other_syntax_error :
  option_map (fun e => (ChatAlert.filePath e, ChatAlert.line e,
                        ChatAlert.column e, ChatAlert.errorMessage e))
    (ChatAlert.getPreviewErrorInfo
       "[[plugin:vite:react-babel] /home/project/src/Component.tsx: Unexpected token (42:15)")
  = Some ("/home/project/src/Component.tsx", Some 42%Z, Some 15%Z,
          "Unexpected token").
Proof. vm_compute. reflexivity. Qed.

Example test_preview_non_error_is_null :
  ChatAlert.getPreviewErrorInfo "Compiled successfully in 243ms" = None.
Proof. vm_compute. reflexivity. Qed.

(** The terminal-output callback, run with the repository's classifier, turns
    the registry-404 text of scenario 2 into one generic alert without
    metadata. *)
Example registry404_terminal_callback :
  WebContainer.debouncedProcessErrors
    unit
    (fun text w => (WebContainer.Returned (Shell.processModuleErrors text 0), w))
    silentConsole fixedClock fixedRandom registry404Scenario tt []
  = (WebContainer.Returned tt, tt,
     [ {| id := "generic-err-1700000000000-417";
          type := "generic-error";
          title := "Erro de Terminal";
          description := "Ocorreu um erro durante a execução do comando";
          content := registry404Scenario;
          source := Some SrcTerminal;
          severity := SevWarning;
          timestamp := 1700000000000;
          metadata := None;
          actionable := Some false;
          suggestedAction := None |} ]).
Proof. vm_compute. reflexivity. Qed.

(** Scenario 3: after 21 alerts of severity error, 20 are active, the first
    one is gone and the last one is present. *)
Example twenty_one_errors_keep_twenty :
  map id (AlertService._activeAlerts (AlertService.run twentyOneErrors))
  = map uuidOf (seq 1 20)
  /\ List.length (AlertService.getAlertHistory (AlertService.run twentyOneErrors))
     = 21%nat.
Proof. vm_compute. split; reflexivity. Qed.

(** The dedup cache at work: a classified text that passes the guard,
    submitted three times within one second, creates one alert, whose
    metadata names the module. *)
Example three_submissions_one_alert :
  let r := threeSubmissions lodashConsoleText 1000 1100 1200 in
  map (fun o => match o with
                | Console.Accepted (Some l) => Some (List.length l)
                | _ => None
                end) (fst r)
  = [Some 1%nat; None; None]
  /\ fst r = [hd Console.Ignored (fst r);
              Console.SuppressedByModuleTier; Console.SuppressedByModuleTier]
  /\ map (fun a => AlertService.metaModuleName (metadata a))
         (AlertService._activeAlerts (Console.alertService (snd r)))
     = [Some "lodash"].
Proof. vm_compute. repeat split; reflexivity. Qed.

(** The same three submissions of the registry-404 text of scenario 2 are
    all ignored. *)
Example three_registry404_submissions_ignored :
  threeSubmissions registry404Scenario 1000 1100 1200
  = ([Console.Ignored; Console.Ignored; Console.Ignored], Console.initial).
Proof. vm_compute. reflexivity. Qed.

(** *** The matcher returns matches *)

Section RegexSound.
Import Regex RegexSem.

Lemma litGo_sound icase l :
  forall s pos s' pos',
    litGo icase l s pos = Some (s', pos') ->
    exists w, s = w ++ s' /\ pos' = (pos + List.length w)%nat
              /\ Forall2 (fun a b => charEq icase a b = true) l w.
Proof.
  induction l as [|c l IH]; intros s pos s' pos' H; simpl in H.
  - inversion H; subst. exists []. simpl. repeat split; [lia | constructor].
  - destruct s as [|d s]; [discriminate|].
    destruct (charEq icase c d) eqn:E; [|discriminate].
    apply IH in H. destruct H as (w & -> & -> & HF).
    exists (d :: w). simpl. repeat split; [lia | constructor; assumption].
Qed.

Lemma go_Star icase greedy r1 s pos caps k :
  go icase (Star greedy r1) s pos caps k
  = starLoop icase greedy r1 k (S (List.length s)) s pos caps.
Proof. reflexivity. Qed.

Lemma starLoop_S icase greedy r1 k fuel s pos caps :
  starLoop icase greedy r1 k (S fuel) s pos caps
  = let again :=
      go icase r1 s pos caps
         (fun s' pos' caps' =>
            if (pos' =? pos)%nat then None
            else starLoop icase greedy r1 k fuel s' pos' caps') in
    if greedy then
      match again with
      | Some x => Some x
      | None => k s pos caps
      end
    else
      match k s pos caps with
      | Some x => Some x
      | None => again
      end.
Proof. reflexivity. Qed.

Lemma starLoop_sound icase greedy r1 (k : Cont) :
  (forall s pos caps (k' : Cont) x,
      go icase r1 s pos caps k' = Some x ->
      exists w rest c',
        s = w ++ rest
        /\ Matches icase r1 w rest caps c'
        /\ k' rest (pos + List.length w)%nat c' = Some x) ->
  forall fuel s pos caps x,
    starLoop icase greedy r1 k fuel s pos caps = Some x ->
    exists w rest c',
      s = w ++ rest
      /\ Iter (Matches icase r1) w rest caps c'
      /\ k rest (pos + List.length w)%nat c' = Some x.
Proof.
  intros IH1. induction fuel as [|fuel IHf]; intros s pos caps x H.
  - exists [], s, caps. simpl. rewrite Nat.add_0_r.
    repeat split; [constructor | exact H].
  - rewrite starLoop_S in H. cbv zeta in H.
    remember (go icase r1 s pos caps
                 (fun s' pos' caps' =>
                    if (pos' =? pos)%nat then None
                    else starLoop icase greedy r1 k fuel s' pos' caps'))
      as again eqn:Ea.
    assert (Hagain :
              forall y,
                again = Some y ->
                exists w rest c',
                  s = w ++ rest
                  /\ Iter (Matches icase r1) w rest caps c'
                  /\ k rest (pos + List.length w)%nat c' = Some y).
    { intros y Hy. rewrite Ea in Hy. apply IH1 in Hy.
      destruct Hy as (w1 & rest1 & c1 & -> & HM1 & Hy).
      destruct (pos + List.length w1 =? pos)%nat eqn:Epos; [discriminate|].
      apply Nat.eqb_neq in Epos.
      apply IHf in Hy. destruct Hy as (w2 & rest & c2 & -> & HM2 & Hy).
      exists (w1 ++ w2), rest, c2. rewrite <- app_assoc.
      split; [reflexivity|]. split.
      - eapply Iter_more; eauto. intros ->. simpl in Epos. lia.
      - rewrite length_app, Nat.add_assoc. exact Hy. }
    clear Ea.
    assert (Hstop :
              forall y, k s pos caps = Some y ->
                        exists w rest c',
                          s = w ++ rest
                          /\ Iter (Matches icase r1) w rest caps c'
                          /\ k rest (pos + List.length w)%nat c' = Some y).
    { intros y Hy. exists [], s, caps. simpl. rewrite Nat.add_0_r.
      repeat split; [constructor | exact Hy]. }
    destruct greedy.
    + destruct again as [y|].
      * inversion H; subst. apply Hagain. reflexivity.
      * apply Hstop. exact H.
    + destruct (k s pos caps) as [y|] eqn:Ek.
      * inversion H; subst. apply Hstop. reflexivity.
      * apply Hagain. exact H.
Qed.

(** Whatever [go] returns comes from a word at the head of the input that
    the expression matches. *)
Lemma go_sound icase r :
  forall s pos caps (k : Cont) x,
    go icase r s pos caps k = Some x ->
    exists w rest c',
      s = w ++ rest
      /\ Matches icase r w rest caps c'
      /\ k rest (pos + List.length w)%nat c' = Some x.
Proof.
  induction r as [l| | |negated items|r1 IH1 r2 IH2|r1 IH1 r2 IH2
                  |greedy r1 IH1|n r1 IH1|];
    intros s pos caps k x H.
  - cbn [go] in H.
    destruct (litGo icase (Js.chars l) s pos) as [[s' pos']|] eqn:E;
      [|discriminate].
    apply litGo_sound in E. destruct E as (w & -> & -> & HF).
    exists w, s', caps. repeat split; auto.
  - cbn [go] in H. destruct s as [|d s]; [discriminate|].
    destruct (Ascii.eqb d (ascii_of_nat 10)) eqn:E1; [discriminate|].
    destruct (Ascii.eqb d (ascii_of_nat 13)) eqn:E2; [discriminate|].
    simpl in H. exists [d], s, caps. simpl.
    rewrite Nat.add_1_r. repeat split; auto. exists d. auto.
  - cbn [go] in H. destruct s as [|d s]; [discriminate|].
    exists [d], s, caps. simpl. rewrite Nat.add_1_r.
    repeat split; auto. exists d. auto.
  - cbn [go] in H. destruct s as [|d s]; [discriminate|].
    destruct (xorb negated (classHas icase items d)) eqn:E; [|discriminate].
    exists [d], s, caps. simpl. rewrite Nat.add_1_r.
    repeat split; auto. exists d. auto.
  - cbn [go] in H.
    apply IH1 in H. destruct H as (w1 & rest1 & c1 & -> & HM1 & H).
    apply IH2 in H. destruct H as (w2 & rest & c2 & -> & HM2 & H).
    exists (w1 ++ w2), rest, c2. rewrite <- app_assoc. split; [reflexivity|].
    split.
    + simpl. exists w1, w2, c1. auto.
    + rewrite length_app, Nat.add_assoc. exact H.
  - cbn [go] in H. destruct (go icase r1 s pos caps k) as [y|] eqn:E.
    + inversion H; subst y. apply IH1 in E.
      destruct E as (w & rest & c' & -> & HM & Hk).
      exists w, rest, c'. simpl. auto.
    + apply IH2 in H. destruct H as (w & rest & c' & -> & HM & Hk).
      exists w, rest, c'. simpl. auto.
  - rewrite go_Star in H.
    apply (starLoop_sound icase greedy r1 k IH1) in H. exact H.
  - cbn [go] in H.
    apply IH1 in H. destruct H as (w & rest & c1 & -> & HM & H).
    exists w, rest, ((n, Js.str w) :: c1). split; [reflexivity|]. split.
    + simpl. exists c1. auto.
    + replace (pos + List.length w - pos)%nat with (List.length w) in H by lia.
      rewrite firstn_app, firstn_all, Nat.sub_diag in H. simpl in H.
      rewrite app_nil_r in H. exact H.
  - cbn [go] in H. destruct s; [|discriminate].
    exists [], [], caps. simpl. rewrite Nat.add_0_r. auto.
Qed.

Lemma search_sound icase r :
  forall s pos m,
    search icase r s pos = Some m ->
    exists pre w rest,
      s = pre ++ w ++ rest
      /\ m_index m = (pos + List.length pre)%nat
      /\ m_end m = (m_index m + List.length w)%nat
      /\ m_text m = Js.str w
      /\ Matches icase r w rest [] (m_caps m).
Proof.
  induction s as [|a s IH]; intros pos m H; cbn [search] in H.
  - destruct (go icase r [] pos [] _) as [[e c]|] eqn:E; [|discriminate].
    apply go_sound in E. destruct E as (w & rest & c' & Hs & HM & Hk).
    inversion Hk; subst e c'. inversion H; subst m. cbn.
    exists [], w, rest. simpl. rewrite Hs.
    replace (pos + List.length w - pos)%nat with (List.length w) by lia.
    rewrite firstn_app, firstn_all, Nat.sub_diag. simpl. rewrite app_nil_r.
    repeat split; auto; lia.
  - destruct (go icase r (a :: s) pos [] _) as [[e c]|] eqn:E.
    + apply go_sound in E. destruct E as (w & rest & c' & Hs & HM & Hk).
      inversion Hk; subst e c'. inversion H; subst m. cbn.
      exists [], w, rest. simpl. rewrite Hs.
      replace (pos + List.length w - pos)%nat with (List.length w) by lia.
      rewrite firstn_app, firstn_all, Nat.sub_diag. simpl. rewrite app_nil_r.
      repeat split; auto; lia.
    + apply IH in H. destruct H as (pre & w & rest & -> & Hi & He & Ht & HM).
      exists (a :: pre), w, rest. simpl. repeat split; auto; lia.
Qed.

Lemma str_app (a b : list ascii) : Js.str (a ++ b) = (Js.str a ++ Js.str b)%string.
Proof. induction a as [|x a IH]; simpl; [reflexivity | f_equal; exact IH]. Qed.

Lemma str_chars (s : string) : Js.str (Js.chars s) = s.
Proof. apply string_of_list_ascii_of_string. Qed.

Lemma chars_str (l : list ascii) : Js.chars (Js.str l) = l.
Proof. apply list_ascii_of_string_of_list_ascii. Qed.

(** [matchFirst] returns a piece of the text, at the index it reports, that
    the expression matches. *)
Lemma matchFirst_sound icase r text m :
  matchFirst icase r text = Some m ->
  exists pre w rest,
    Js.chars text = pre ++ w ++ rest
    /\ text = (Js.str pre ++ m_text m ++ Js.str rest)%string
    /\ m_index m = List.length pre
    /\ m_text m = Js.str w
    /\ Matches icase r w rest [] (m_caps m).
Proof.
  unfold matchFirst. intros H. apply search_sound in H.
  destruct H as (pre & w & rest & Hs & Hi & He & Ht & HM).
  exists pre, w, rest. repeat split; auto.
  rewrite Ht, <- !str_app, <- Hs, str_chars. reflexivity.
Qed.

Lemma Forall2_charEq_exact (l w : list ascii) :
  Forall2 (fun a b => charEq false a b = true) l w -> w = l.
Proof.
  induction 1 as [|a b l w Hab _ IH]; [reflexivity|].
  simpl in Hab. apply Ascii.eqb_eq in Hab. congruence.
Qed.

Lemma Forall2_charEq_lower icase (l w : list ascii) :
  Forall2 (fun a b => charEq icase a b = true) l w ->
  map lower w = map lower l.
Proof.
  induction 1 as [|a b l w Hab _ IH]; [reflexivity|].
  simpl. rewrite IH. f_equal. unfold charEq in Hab. destruct icase.
  - apply Ascii.eqb_eq in Hab. congruence.
  - apply Ascii.eqb_eq in Hab. congruence.
Qed.

(** A word matched by a concatenation contains each literal of the
    concatenation, up to the case of letters. *)
Lemma Matches_cat_literal icase (L : string) (rs : list re) :
  In (Lit L) rs ->
  forall w rest c c',
    Matches icase (cat rs) w rest c c' ->
    exists a v b,
      w = a ++ v ++ b
      /\ Forall2 (fun x y => charEq icase x y = true) (Js.chars L) v.
Proof.
  induction rs as [|r rs IH]; intros Hin w rest c c' HM; [contradiction|].
  change (cat (r :: rs)) with (Seq r (cat rs)) in HM. cbn [Matches] in HM.
  destruct HM as (w1 & w2 & c1 & -> & HM1 & HM2).
  destruct Hin as [->|Hin].
  - cbn [Matches] in HM1. destruct HM1 as [_ HF].
    exists [], w1, w2. split; [reflexivity | exact HF].
  - destruct (IH Hin _ _ _ _ HM2) as (a & v & b & -> & HF).
    exists (w1 ++ a), v, b. rewrite <- app_assoc. split; [reflexivity | exact HF].
Qed.

Lemma includes_of_chars (text : string) (pre v post : list ascii) :
  Js.chars text = pre ++ v ++ post ->
  Js.includes text (Js.str v) = true.
Proof.
  intros H. apply includes_spec. exists (Js.str pre), (Js.str post).
  rewrite <- !str_app, <- H, str_chars. reflexivity.
Qed.

Lemma includes_lower_of_chars (text : string) (L : string)
      (pre v post : list ascii) :
  Js.chars text = pre ++ v ++ post ->
  map lower v = map lower (Js.chars L) ->
  Js.includes (toLower text) (toLower L) = true.
Proof.
  intros H Hv. unfold toLower. rewrite H, !map_app, Hv.
  apply includes_spec.
  exists (Js.str (map lower pre)), (Js.str (map lower post)).
  rewrite <- !str_app. reflexivity.
Qed.

(** A text matched by a concatenation that lists the literal [L] contains
    [L]; with the [i] flag, up to the case of letters. *)
Lemma matchFirst_needs_literal (L : string) (rs : list re) (text : string) :
  In (Lit L) rs ->
  matchFirst false (cat rs) text <> None ->
  Js.includes text L = true.
Proof.
  intros Hin Hm. destruct (matchFirst false (cat rs) text) as [m|] eqn:E;
    [|congruence].
  apply matchFirst_sound in E.
  destruct E as (pre & w & rest & Hs & _ & _ & _ & HM).
  destruct (Matches_cat_literal false L rs Hin _ _ _ _ HM)
    as (a & v & b & -> & HF).
  apply Forall2_charEq_exact in HF. subst v.
  rewrite <- (str_chars L).
  apply (includes_of_chars text (pre ++ a) (Js.chars L) (b ++ rest)).
  rewrite Hs, <- !app_assoc. reflexivity.
Qed.

Lemma matchFirst_needs_literal_icase icase (L : string) (rs : list re)
      (text : string) :
  In (Lit L) rs ->
  matchFirst icase (cat rs) text <> None ->
  Js.includes (toLower text) (toLower L) = true.
Proof.
  intros Hin Hm. destruct (matchFirst icase (cat rs) text) as [m|] eqn:E;
    [|congruence].
  apply matchFirst_sound in E.
  destruct E as (pre & w & rest & Hs & _ & _ & _ & HM).
  destruct (Matches_cat_literal icase L rs Hin _ _ _ _ HM)
    as (a & v & b & -> & HF).
  apply Forall2_charEq_lower in HF.
  apply (includes_lower_of_chars text L (pre ++ a) v (b ++ rest)).
  - rewrite Hs, <- !app_assoc. reflexivity.
  - exact HF.
Qed.

Lemma execAll_nil_of_no_match icase r text :
  matchFirst icase r text = None -> execAll icase r text = [].
Proof.
  unfold matchFirst, execAll. intros H. cbn [execLoop]. rewrite H. reflexivity.
Qed.

End RegexSound.

(** *** What the classifiers need to see *)

Section ClassifyFacts.
Import Regex RegexSem.

Lemma includes_app (s a b : string) :
  Js.includes s (a ++ b)%string = true -> Js.includes s a = true.
Proof.
  intros H. apply includes_spec in H. destruct H as (pre & post & ->).
  apply includes_spec. exists pre, (b ++ post)%string.
  f_equal. clear. induction a as [|c a IH]; simpl; [reflexivity | f_equal; exact IH].
Qed.

Lemma chars_app (a b : string) :
  Js.chars (a ++ b)%string = Js.chars a ++ Js.chars b.
Proof. induction a as [|c a IH]; simpl; [reflexivity | f_equal; exact IH]. Qed.

Lemma includes_toLower (s sub : string) :
  Js.includes s sub = true ->
  Js.includes (toLower s) (toLower sub) = true.
Proof.
  intros H. apply includes_spec in H. destruct H as (pre & post & ->).
  apply (includes_lower_of_chars _ sub (Js.chars pre) (Js.chars sub)
                                 (Js.chars post)).
  - rewrite !chars_app. reflexivity.
  - reflexivity.
Qed.

Lemma no_match_without_literal icase (L : string) (rs : list re)
      (text : string) :
  In (Lit L) rs ->
  Js.includes (toLower text) (toLower L) = false ->
  matchFirst icase (cat rs) text = None.
Proof.
  intros Hin Hno.
  destruct (matchFirst icase (cat rs) text) as [m|] eqn:E; [|reflexivity].
  assert (Js.includes (toLower text) (toLower L) = true).
  { apply (matchFirst_needs_literal_icase icase L rs text Hin).
    rewrite E. discriminate. }
  congruence.
Qed.

Lemma no_match_without_literal_exact (L : string) (rs : list re)
      (text : string) :
  In (Lit L) rs ->
  Js.includes text L = false ->
  matchFirst false (cat rs) text = None.
Proof.
  intros Hin Hno.
  destruct (matchFirst false (cat rs) text) as [m|] eqn:E; [|reflexivity].
  assert (Js.includes text L = true).
  { apply (matchFirst_needs_literal L rs text Hin). rewrite E. discriminate. }
  congruence.
Qed.

End ClassifyFacts.

(** X1.  A text whose lower-cased form contains none of the five marker
    texts of the module rules and no [goroutine ] is a classification miss:
    both detectors return the empty list and [processModuleErrors] returns
    null. *)
Theorem classification_miss_without_markers :
  forall (output : string) (now : Z),
    let t := RegexSem.toLower output in
    Js.includes t "cannot find module '" = false ->
    Js.includes t "npm err! code e404" = false ->
    Js.includes t "npm err! code eresolve" = false ->
    Js.includes t "no matching version found for " = false ->
    Js.includes t "npm err! code eacces" = false ->
    Js.includes t "goroutine " = false ->
    Shell.detectModuleNotFoundErrors output now = []
    /\ Shell.detectGoroutineErrors output = []
    /\ Shell.processModuleErrors output now = None.
Proof.
  intros output now t H1 H2 H3 H4 H5 H6.
  assert (Hm : Shell.detectModuleNotFoundErrors output now = []).
  { unfold Shell.detectModuleNotFoundErrors, Shell.errorPatterns.
    cbn [flat_map Shell.pattern].
    rewrite (execAll_nil_of_no_match true Shell.reCannotFindModule output)
      by (apply (no_match_without_literal true "Cannot find module '");
          [simpl; auto | exact H1]).
    rewrite (execAll_nil_of_no_match true Shell.reNpm404 output)
      by (apply (no_match_without_literal true "npm ERR! code E404");
          [simpl; auto | exact H2]).
    rewrite (execAll_nil_of_no_match true Shell.reEresolve output)
      by (apply (no_match_without_literal true "npm ERR! code ERESOLVE");
          [simpl; auto | exact H3]).
    rewrite (execAll_nil_of_no_match true Shell.reNoMatchingVersion output)
      by (apply (no_match_without_literal true "No matching version found for ");
          [simpl; auto | exact H4]).
    rewrite (execAll_nil_of_no_match true Shell.reEacces output)
      by (apply (no_match_without_literal true "npm ERR! code EACCES");
          [simpl; auto | exact H5]).
    reflexivity. }
  assert (Hg : Shell.detectGoroutineErrors output = []).
  { unfold Shell.detectGoroutineErrors.
    destruct (String.eqb output "") eqn:E0; [reflexivity|].
    destruct (String.eqb output Shell.multipleErrorsInput) eqn:E1.
    - apply String.eqb_eq in E1. subst output. vm_compute in H6. discriminate.
    - unfold Shell.goroutinePatterns. cbn [flat_map fst snd].
      rewrite (execAll_nil_of_no_match true Shell.reClosedPipe output)
        by (apply (no_match_without_literal true "goroutine ");
            [simpl; auto | exact H6]).
      rewrite (execAll_nil_of_no_match true Shell.rePanic output)
        by (apply (no_match_without_literal true "goroutine ");
            [simpl; auto | exact H6]).
      rewrite (execAll_nil_of_no_match true Shell.reDeadlock output)
        by (apply (no_match_without_literal true "goroutine ");
            [simpl; auto | exact H6]).
      rewrite (execAll_nil_of_no_match true Shell.reGeneral output)
        by (apply (no_match_without_literal true "goroutine ");
            [simpl; auto | exact H6]).
      cbn [map app find].
      assert (H42 : Js.includes output "goroutine 42" = false).
      { destruct (Js.includes output "goroutine 42") eqn:E; [|reflexivity].
        apply (includes_app output "goroutine " "42") in E.
        apply includes_toLower in E. fold t in E.
        change (RegexSem.toLower "goroutine ") with "goroutine " in E.
        congruence. }
      rewrite H42. cbn [andb].
      destruct (Js.includes output _ && negb _); reflexivity. }
  split; [exact Hm|]. split; [exact Hg|].
  unfold Shell.processModuleErrors. rewrite Hm, Hg. reflexivity.
Qed.

Lemma classification_miss_without_markers_witness :
  Shell.processModuleErrors testNoErrors 0 = None.
Proof.
  apply (classification_miss_without_markers testNoErrors 0);
    vm_compute; reflexivity.
Defined.

(** X2.  [getPreviewErrorInfo] returns null for every text that does not
    contain the literal [[[plugin:vite:]. *)
Theorem getPreviewErrorInfo_needs_vite_prefix :
  forall content : string,
    Js.includes content "[[plugin:vite:" = false ->
    ChatAlert.getPreviewErrorInfo content = None.
Proof.
  intros content H. unfold ChatAlert.getPreviewErrorInfo.
  destruct (String.eqb content ""); [reflexivity|].
  assert (H1 : Regex.matchFirst false ChatAlert.reUntermTemplate content = None)
    by (apply (no_match_without_literal_exact "[[plugin:vite:");
        [simpl; auto | exact H]).
  assert (H2 : Regex.matchFirst false ChatAlert.reSyntaxError content = None)
    by (apply (no_match_without_literal_exact "[[plugin:vite:");
        [simpl; auto | exact H]).
  rewrite H1, H2. reflexivity.
Qed.

Lemma getPreviewErrorInfo_needs_vite_prefix_witness :
  ChatAlert.getPreviewErrorInfo
    "[[plugin:rollup:babel] /home/p/App.tsx: Unexpected token (4:1)" = None.
Proof.
  apply getPreviewErrorInfo_needs_vite_prefix. vm_compute. reflexivity.
Defined.

Section CaptureFacts.
Import Regex RegexSem.

Lemma Iter_class icase negated items :
  forall w rest c c',
    Iter (Matches icase (Class negated items)) w rest c c' ->
    c' = c
    /\ Forall (fun d => xorb negated (classHas icase items d) = true) w.
Proof.
  induction 1 as [|w1 w2 rest c c1 c2 Hne HM _ IH].
  - split; [reflexivity | constructor].
  - cbn [Matches] in HM. destruct HM as (-> & d & -> & Hd).
    destruct IH as [-> IH]. split; [reflexivity|].
    simpl. constructor; assumption.
Qed.

(** One or more characters of a class: a non-empty word of the class, no
    capture. *)
Lemma Matches_plus_class icase g negated items w rest c c' :
  Matches icase (Plus g (Class negated items)) w rest c c' ->
  c' = c /\ w <> []
  /\ Forall (fun d => xorb negated (classHas icase items d) = true) w.
Proof.
  unfold Plus. cbn [Matches].
  intros (w1 & w2 & c1 & -> & (-> & d & -> & Hd) & HI).
  apply Iter_class in HI. destruct HI as [-> HF].
  split; [reflexivity|]. split; [discriminate|].
  simpl. constructor; assumption.
Qed.

Lemma not_includes_char (q : ascii) (l : list ascii) :
  Forall (fun d => Ascii.eqb q d = false) l ->
  Js.includes (Js.str l) (String q "") = false.
Proof.
  intros HF. destruct (Js.includes (Js.str l) (String q "")) eqn:E;
    [|reflexivity].
  apply includes_spec in E. destruct E as (pre & post & E).
  apply (f_equal Js.chars) in E. rewrite chars_str, !chars_app in E.
  subst l. apply Forall_app in HF. destruct HF as [_ HF].
  simpl in HF. inversion HF as [|? ? Hq _]; subst.
  rewrite Ascii.eqb_refl in Hq. discriminate.
Qed.

End CaptureFacts.

(** X3.  When [processConsoleErrors] extracts a module name [n] from a text,
    the text contains [Module not found: Can't resolve 'n'], [n] contains no
    quote and the dedup signature is [module-error:n]; when it extracts none,
    the signature is the first 150 characters of the text. *)
Theorem module_name_is_quoted_in_text :
  forall text : string,
    let n := Console.moduleNameOf text in
    (n <> "" ->
     Js.includes text ("Module not found: Can't resolve '" ++ n ++ "'")%string
     = true
     /\ Js.includes n "'" = false
     /\ Console.errorSignatureOf text = ("module-error:" ++ n)%string)
    /\ (n = "" -> Console.errorSignatureOf text = Js.substring0 150 text).
Proof.
  intros text n. split.
  - intros Hn. unfold Console.errorSignatureOf. fold n.
    assert (En : String.eqb n "" = false) by (apply String.eqb_neq; exact Hn).
    rewrite En. split; [|split; [|reflexivity]].
    + subst n. unfold Console.moduleNameOf in *.
      destruct (Regex.matchFirst false Console.reModuleNotFound text)
        as [m|] eqn:E; [|contradiction].
      apply matchFirst_sound in E.
      destruct E as (pre & w & rest & Hs & _ & _ & _ & HM).
      unfold Console.reModuleNotFound, Regex.cat, Regex.Not in HM.
      cbn [fold_right] in HM. cbn [RegexSem.Matches] in HM.
      destruct HM as (w1 & w2 & c1 & -> & (-> & HL) & w3 & w4 & c2 & ->
                      & (c3 & HP & ->) & w5 & w6 & c4 & -> & (-> & HQ)
                      & (Hc & HE)).
      apply Matches_plus_class in HP. destruct HP as (-> & _ & _).
      apply Forall2_charEq_exact in HL, HQ, HE. subst w1 w5 w6.
      unfold Regex.grpOr, Regex.grp. rewrite Hc, <- (str_chars text).
      cbn [Regex.group Nat.eqb].
      replace ("Module not found: Can't resolve '" ++ Js.str w3 ++ "'")%string
        with (Js.str (Js.chars "Module not found: Can't resolve '" ++ w3
                      ++ Js.chars "'")).
      * apply (includes_of_chars _ pre _ rest).
        rewrite chars_str, Hs, <- !app_assoc. reflexivity.
      * rewrite !str_app. reflexivity.
    + subst n. unfold Console.moduleNameOf in *.
      destruct (Regex.matchFirst false Console.reModuleNotFound text)
        as [m|] eqn:E; [|contradiction].
      apply matchFirst_sound in E.
      destruct E as (pre & w & rest & Hs & _ & _ & _ & HM).
      unfold Console.reModuleNotFound, Regex.cat, Regex.Not in HM.
      cbn [fold_right] in HM. cbn [RegexSem.Matches] in HM.
      destruct HM as (w1 & w2 & c1 & -> & (-> & HL) & w3 & w4 & c2 & ->
                      & (c3 & HP & ->) & w5 & w6 & c4 & -> & (-> & HQ)
                      & (Hc & HE)).
      apply Matches_plus_class in HP. destruct HP as (-> & _ & HF).
      unfold Regex.grpOr, Regex.grp. rewrite Hc. cbn [Regex.group Nat.eqb].
      apply not_includes_char. eapply Forall_impl; [|exact HF].
      intros d Hd. unfold Regex.classHas, Js.chars in Hd.
      cbn [list_ascii_of_string map existsb Regex.itemHas andb] in Hd.
      destruct (Ascii.eqb "'" d); [discriminate | reflexivity].
  - intros Hn. unfold Console.errorSignatureOf. fold n. rewrite Hn.
    reflexivity.
Qed.

Lemma module_name_is_quoted_in_text_witness :
  Js.includes (moduleMessage 7)
              "Module not found: Can't resolve 'm7'" = true
  /\ Console.errorSignatureOf (moduleMessage 7) = "module-error:m7".
Proof.
  destruct (module_name_is_quoted_in_text (moduleMessage 7)) as [H _].
  destruct H as (H1 & _ & H3).
  - vm_compute. discriminate.
  - split; [exact H1 | exact H3].
Defined.

(** *** More about the alert store *)

Lemma in_firstn {A} (n : nat) (l : list A) (x : A) :
  In x (firstn n l) -> In x l.
Proof.
  intros H. rewrite <- (firstn_skipn n l). apply in_or_app. left. exact H.
Qed.

Section StoreExtras.
Import AlertService.

Lemma findIndex_Some_split {A} (p : A -> bool) (l : list A) (i : nat) :
  Js.findIndex p l = Some i ->
  exists l1 x l2,
    l = l1 ++ x :: l2 /\ List.length l1 = i /\ p x = true
    /\ Forall (fun y => p y = false) l1
    /\ Js.splice1 i l = l1 ++ l2.
Proof.
  revert i. induction l as [|y l IH]; simpl; intros i H; [discriminate|].
  destruct (p y) eqn:E.
  - inversion H; subst. exists [], y, l. repeat split; auto.
  - destruct (Js.findIndex p l) as [j|]; [|discriminate].
    inversion H; subst. destruct (IH j eq_refl) as (l1 & x & l2 & -> & <- & Hx & HF & Hs).
    exists (y :: l1), x, l2. repeat split; auto.
    unfold Js.splice1 in *. simpl. f_equal. exact Hs.
Qed.

Lemma set_active_same (s : t) : set_active (_activeAlerts s) s = s.
Proof. destruct s; reflexivity. Qed.

Lemma filter_id_absent (i : string) (l : list ActionAlert) :
  ~ In i (map id l) ->
  filter (fun a => negb (String.eqb (id a) i)) l = l.
Proof.
  induction l as [|a l IH]; simpl; intros H; [reflexivity|].
  destruct (String.eqb (id a) i) eqn:E; simpl.
  - exfalso. apply H. left. apply String.eqb_eq. exact E.
  - f_equal. apply IH. intros Hin. apply H. right. exact Hin.
Qed.

Lemma currentAlert_snoc (s : t) (l : list ActionAlert) (a : ActionAlert) :
  _activeAlerts s = l ++ [a] -> currentAlert s = Some a.
Proof.
  intros H. unfold currentAlert. rewrite H, length_app. simpl.
  replace (List.length l + 1 - 1)%nat with (List.length l) by lia.
  replace (0 <? List.length l + 1)%nat with true
    by (symmetry; apply Nat.ltb_lt; lia).
  rewrite nth_error_app2, Nat.sub_diag by lia. reflexivity.
Qed.

End StoreExtras.

(** X4.  [clearAlert] with the empty string as id clears every active alert,
    like [clearAlert()]; with a non-empty id that no active alert carries it
    changes nothing. *)
Theorem clearAlert_empty_and_absent_id :
  forall s : AlertService.t,
    AlertService.clearAlert (Some "") s = AlertService.clearAlert None s
    /\ AlertService._activeAlerts (AlertService.clearAlert (Some "") s) = []
    /\ forall i : string,
         i <> "" ->
         ~ In i (map id (AlertService._activeAlerts s)) ->
         AlertService.clearAlert (Some i) s = s.
Proof.
  intros s. split; [reflexivity|]. split; [reflexivity|].
  intros i Hi Hno. unfold AlertService.clearAlert.
  apply String.eqb_neq in Hi. rewrite Hi.
  rewrite filter_id_absent by exact Hno. apply set_active_same.
Qed.

Lemma clearAlert_empty_and_absent_id_witness :
  AlertService.clearAlert (Some "no-such-id") (AlertService.run twentyCritical)
  = AlertService.run twentyCritical.
Proof.
  destruct (clearAlert_empty_and_absent_id (AlertService.run twentyCritical))
    as (_ & _ & H).
  apply H; [discriminate|]. vm_compute. intuition discriminate.
Defined.

(** X5.  Clearing is idempotent and two clears commute: the order in which
    alerts are dismissed does not matter. *)
Theorem clearAlert_idempotent_and_commutes :
  forall (s : AlertService.t) (i j : option string),
    AlertService.clearAlert i (AlertService.clearAlert i s)
    = AlertService.clearAlert i s
    /\ AlertService.clearAlert i (AlertService.clearAlert j s)
       = AlertService.clearAlert j (AlertService.clearAlert i s).
Proof.
  intros s i j.
  assert (Hff : forall (p q : ActionAlert -> bool) (l : list ActionAlert),
             filter p (filter q l) = filter q (filter p l)).
  { intros p q l. induction l as [|a l IH]; simpl; [reflexivity|].
    destruct (p a) eqn:Ep, (q a) eqn:Eq; simpl; rewrite ?Ep, ?Eq, IH;
      reflexivity. }
  assert (Hpp : forall (p : ActionAlert -> bool) (l : list ActionAlert),
             filter p (filter p l) = filter p l).
  { intros p l. induction l as [|a l IH]; simpl; [reflexivity|].
    destruct (p a) eqn:Ep; simpl; rewrite ?Ep, IH; reflexivity. }
  destruct s as [act hist rec].
  unfold AlertService.clearAlert, AlertService.set_active.
  destruct i as [i|], j as [j|];
    try destruct (String.eqb i ""); try destruct (String.eqb j "");
    cbn [AlertService._activeAlerts AlertService._alertHistory
         AlertService._recentModuleErrors filter];
    rewrite ?Hpp; (split; [reflexivity|]); try reflexivity.
  f_equal. apply Hff.
Qed.

(** X6.  [createAlert] protects critical alerts: the number of critical
    active alerts never decreases, and an active critical alert leaves the
    active set only when every active alert is critical, the new alert is
    critical too, and the leaving alert is the oldest one. *)
Theorem createAlert_protects_critical :
  forall (s : AlertService.t) d u n,
    let l := AlertService._activeAlerts s in
    let r := AlertService.createAlert d u n s in
    let l' := AlertService._activeAlerts (snd r) in
    (List.length (filter AlertService.isCritical l)
     <= List.length (filter AlertService.isCritical l'))%nat
    /\ forall a,
        In a l -> severity a = SevCritical ->
        In a l'
        \/ (Forall (fun x => severity x = SevCritical) l
            /\ severity (fst r) = SevCritical
            /\ hd_error l = Some a).
Proof.
  intros s d u n l r l'. subst r l' l. rewrite createAlert_fst.
  destruct (createAlert_active d u n s)
    as [[_ Heq]|[[i (_ & Hfi & Heq)]|[(_ & _ & _ & Heq)|(_ & Hall & Hc & Heq)]]];
    rewrite Heq.
  - split.
    + rewrite filter_app, length_app. lia.
    + intros a Ha _. left. apply in_or_app. left. exact Ha.
  - destruct (findIndex_Some_split _ _ _ Hfi)
      as (l1 & x & l2 & Hl & _ & Hx & _ & Hs).
    rewrite Hs, Hl. split.
    + rewrite !filter_app, !length_app. cbn [filter].
      destruct (AlertService.isCritical x); [discriminate|]. lia.
    + intros a Ha Hsev. left.
      apply in_app_or in Ha. destruct Ha as [Ha|[Ha|Ha]].
      * apply in_or_app. left. apply in_or_app. left. exact Ha.
      * subst a. apply isCritical_true in Hsev. rewrite Hsev in Hx. discriminate.
      * apply in_or_app. left. apply in_or_app. right. exact Ha.
  - split; [lia|]. intros a Ha _. left. exact Ha.
  - apply isCritical_true in Hc.
    destruct (AlertService._activeAlerts s) as [|x l0].
    + split; [simpl; lia|]. intros a Ha. contradiction.
    + split.
      * rewrite filter_app, length_app. cbn [tl filter]. rewrite Hc.
        destruct (AlertService.isCritical x); simpl; lia.
      * intros a [->|Ha] _.
        -- right. split; [exact Hall|]. split; [|reflexivity].
           apply isCritical_true. exact Hc.
        -- left. cbn [tl]. apply in_or_app. left. exact Ha.
Qed.

(** X7.  When the active set is full and holds a non-critical alert, the
    alert evicted by [createAlert] is the earliest non-critical one; the
    alerts before and after it keep their order and the new alert is
    appended. *)
Theorem createAlert_evicts_first_noncritical :
  forall (s : AlertService.t) d u n,
    (20 <= List.length (AlertService._activeAlerts s))%nat ->
    Exists (fun a => severity a <> SevCritical) (AlertService._activeAlerts s) ->
    exists l1 x l2,
      AlertService._activeAlerts s = l1 ++ x :: l2
      /\ Forall (fun a => severity a = SevCritical) l1
      /\ severity x <> SevCritical
      /\ AlertService._activeAlerts (snd (AlertService.createAlert d u n s))
         = l1 ++ l2 ++ [AlertService.mkAlert d u n].
Proof.
  intros s d u n Hlen Hex.
  destruct (createAlert_active d u n s)
    as [[Hlt _]|[[i (_ & Hfi & Heq)]|[(_ & Hall & _)|(_ & Hall & _)]]].
  - unfold AlertService._maxActiveAlerts in Hlt. lia.
  - destruct (findIndex_Some_split _ _ _ Hfi)
      as (l1 & x & l2 & Hl & _ & Hx & HF & Hs).
    exists l1, x, l2. split; [exact Hl|]. split; [|split].
    + eapply Forall_impl; [|exact HF]. simpl. intros a Ha.
      apply isCritical_true. destruct (AlertService.isCritical a);
        [reflexivity | discriminate].
    + intros Hsev. apply isCritical_true in Hsev. rewrite Hsev in Hx.
      discriminate.
    + rewrite Heq, Hs, <- app_assoc. reflexivity.
  - exfalso. apply Exists_exists in Hex. destruct Hex as (a & Ha & Hne).
    rewrite Forall_forall in Hall. auto.
  - exfalso. apply Exists_exists in Hex. destruct Hex as (a & Ha & Hne).
    rewrite Forall_forall in Hall. auto.
Qed.

Lemma createAlert_evicts_first_noncritical_witness :
  exists l1 x l2,
    AlertService._activeAlerts (AlertService.run twentyOneErrors)
    = l1 ++ x :: l2
    /\ AlertService._activeAlerts
         (snd (AlertService.createAlert infoDraft "late" 5000
                 (AlertService.run twentyOneErrors)))
       = l1 ++ l2 ++ [AlertService.mkAlert infoDraft "late" 5000].
Proof.
  destruct (createAlert_evicts_first_noncritical
              (AlertService.run twentyOneErrors) infoDraft "late" 5000%Z)
    as (l1 & x & l2 & H1 & _ & _ & H2).
  - vm_compute. lia.
  - vm_compute. apply Exists_cons_hd. discriminate.
  - exists l1, x, l2. split; assumption.
Defined.

(** X8.  The backward-compatible [currentAlert] view: it is empty on an
    empty active set, in particular after [clearAlert()]; after a
    [createAlert] that is not rejected it is the alert just created, and
    after a rejected one (full of critical alerts, new alert not critical)
    it is what it was. *)
Theorem currentAlert_tracks_latest :
  forall (s : AlertService.t) d u n,
    let r := AlertService.createAlert d u n s in
    let rejected :=
      (20 <= List.length (AlertService._activeAlerts s))%nat
      /\ Forall (fun a => severity a = SevCritical) (AlertService._activeAlerts s)
      /\ severity (fst r) <> SevCritical in
    AlertService.currentAlert (AlertService.clearAlert None s) = None
    /\ (~ rejected -> AlertService.currentAlert (snd r) = Some (fst r))
    /\ (rejected ->
        AlertService.currentAlert (snd r) = AlertService.currentAlert s).
Proof.
  intros s d u n r rejected. subst r rejected. rewrite createAlert_fst.
  split; [reflexivity|].
  destruct (createAlert_active d u n s)
    as [[Hlt Heq]|[[i (Hge & Hfi & Heq)]|[(Hge & Hall & Hc & Heq)|(Hge & Hall & Hc & Heq)]]].
  - split.
    + intros _. eapply currentAlert_snoc. exact Heq.
    + intros (Hlen & _). unfold AlertService._maxActiveAlerts in Hlt. lia.
  - split.
    + intros _. eapply currentAlert_snoc. exact Heq.
    + intros (_ & Hall & _). exfalso.
      rewrite findIndex_all_None in Hfi; [discriminate|].
      eapply Forall_impl; [|exact Hall]. simpl. intros a Ha.
      apply isCritical_true in Ha. rewrite Ha. reflexivity.
  - split.
    + intros Hno. exfalso. apply Hno. auto.
    + intros _. unfold AlertService.currentAlert. rewrite Heq. reflexivity.
  - split.
    + intros _. eapply currentAlert_snoc. exact Heq.
    + intros (_ & _ & Hne). contradiction.
Qed.

Lemma currentAlert_tracks_latest_witness :
  AlertService.currentAlert
    (snd (AlertService.createAlert infoDraft "info-uuid" 3000
            (AlertService.run twentyCritical)))
  = AlertService.currentAlert (AlertService.run twentyCritical).
Proof.
  destruct (currentAlert_tracks_latest (AlertService.run twentyCritical)
              infoDraft "info-uuid" 3000%Z) as (_ & _ & H).
  apply H. split; [vm_compute; lia|]. split.
  - vm_compute. repeat constructor.
  - vm_compute. discriminate.
Defined.

(** X9.  In every store reached from the empty one through the public
    methods, every active alert and every alert of the history has a
    non-empty id. *)
Theorem reachable_alert_ids_nonempty :
  forall s : AlertService.t,
    AlertService.reachable s ->
    Forall (fun a => id a <> "") (AlertService._activeAlerts s)
    /\ Forall (fun a => id a <> "") (AlertService.getAlertHistory s).
Proof.
  intros s Hr. split; [apply reachable_ids_nonempty; exact Hr|].
  destruct Hr as [ops [Hok <-]]. unfold AlertService.getAlertHistory.
  destruct (run_Inv ops) as (_ & _ & ->).
  apply created_ids_nonempty in Hok.
  rewrite Forall_forall in *. intros a Ha. apply Hok.
  apply in_rev. eapply in_firstn. exact Ha.
Qed.

Lemma reachable_alert_ids_nonempty_witness :
  Forall (fun a => id a <> "")
         (AlertService._activeAlerts (AlertService.run twentyOneErrors)).
Proof.
  apply (reachable_alert_ids_nonempty (AlertService.run twentyOneErrors)).
  exists twentyOneErrors. split; [|reflexivity].
  unfold twentyOneErrors. apply Forall_forall. intros op Hin.
  apply in_map_iff in Hin. destruct Hin as [k [<- _]]. simpl. discriminate.
Defined.

(** *** Insertion-ordered maps, sorting and the compaction of the caches *)

Section MapFacts.
Context {V : Type}.

Lemma mget_mset_other (k k' : string) (v : V) (m : list (string * V)) :
  k' <> k -> Js.mget k' (Js.mset k v m) = Js.mget k' m.
Proof.
  intros Hne. induction m as [|[k0 v0] m IH]; simpl.
  - destruct (String.eqb k k') eqn:E; [|reflexivity].
    apply String.eqb_eq in E. congruence.
  - destruct (String.eqb k0 k) eqn:E; simpl.
    + apply String.eqb_eq in E. subst k0.
      destruct (String.eqb k k') eqn:E'; [|reflexivity].
      apply String.eqb_eq in E'. congruence.
    + destruct (String.eqb k0 k'); [reflexivity | exact IH].
Qed.

Lemma length_mset (k : string) (v : V) (m : list (string * V)) :
  (List.length m <= List.length (Js.mset k v m) <= S (List.length m))%nat.
Proof.
  induction m as [|[k0 v0] m IH]; simpl; [lia|].
  destruct (String.eqb k0 k); simpl; lia.
Qed.

Lemma mset_keys (k : string) (v : V) (m : list (string * V)) :
  forall x, In x (map fst (Js.mset k v m)) -> x = k \/ In x (map fst m).
Proof.
  induction m as [|[k0 v0] m IH]; simpl; intros x Hx.
  - destruct Hx as [<-|[]]. left. reflexivity.
  - destruct (String.eqb k0 k) eqn:E; simpl in Hx.
    + destruct Hx as [<-|Hx]; [left; reflexivity | right; right; exact Hx].
    + destruct Hx as [<-|Hx]; [right; left; reflexivity|].
      destruct (IH x Hx); [left | right; right]; assumption.
Qed.

Lemma mset_NoDup (k : string) (v : V) (m : list (string * V)) :
  NoDup (map fst m) -> NoDup (map fst (Js.mset k v m)).
Proof.
  induction m as [|[k0 v0] m IH]; simpl; intros Hnd.
  - constructor; [intros [] | constructor].
  - inversion Hnd as [|? ? Hnotin Hnd']; subst.
    destruct (String.eqb k0 k) eqn:E; simpl.
    + apply String.eqb_eq in E. subst k0. constructor; assumption.
    + constructor; [|apply IH; exact Hnd'].
      intros Hin. apply mset_keys in Hin. destruct Hin as [->|Hin].
      * rewrite String.eqb_refl in E. discriminate.
      * contradiction.
Qed.

Lemma mset_Forall (P : string * V -> Prop) (k : string) (v : V)
      (m : list (string * V)) :
  P (k, v) -> Forall P m -> Forall P (Js.mset k v m).
Proof.
  intros Hk. induction m as [|[k0 v0] m IH]; simpl; intros HF.
  - constructor; [exact Hk | constructor].
  - inversion HF; subst. destruct (String.eqb k0 k); constructor; auto.
Qed.

Variable key : V -> Z.

Let R (a b : string * V) : Prop := (key (snd b) <= key (snd a))%Z.

Lemma insertDesc_perm (x : string * V) (l : list (string * V)) :
  Permutation (x :: l) (Js.insertDesc key x l).
Proof.
  induction l as [|y l IH]; simpl; [reflexivity|].
  destruct (key (snd y) <? key (snd x))%Z; [reflexivity|].
  rewrite perm_swap. apply perm_skip. exact IH.
Qed.

Lemma insertDesc_sorted (x : string * V) (l : list (string * V)) :
  StronglySorted R l -> StronglySorted R (Js.insertDesc key x l).
Proof.
  induction l as [|y l IH]; simpl; intros HS.
  - constructor; constructor.
  - inversion HS as [|? ? HS' HF]; subst.
    destruct (key (snd y) <? key (snd x))%Z eqn:E.
    + apply Z.ltb_lt in E. constructor; [exact HS|].
      constructor; [unfold R; lia|].
      eapply Forall_impl; [|exact HF]. unfold R. intros z Hz. lia.
    + apply Z.ltb_ge in E. constructor; [apply IH; exact HS'|].
      rewrite Forall_forall. intros z Hz.
      apply (Permutation_in _ (Permutation_sym (insertDesc_perm x l))) in Hz.
      destruct Hz as [<-|Hz]; [exact E|].
      rewrite Forall_forall in HF. apply HF. exact Hz.
Qed.

Lemma sortDesc_perm (l : list (string * V)) :
  Permutation l (Js.sortDesc key l).
Proof.
  unfold Js.sortDesc.
  assert (H : forall acc,
             Permutation (acc ++ l)
               (fold_left (fun acc x => Js.insertDesc key x acc) l acc)).
  { induction l as [|x l IH]; intros acc; simpl.
    - rewrite app_nil_r. reflexivity.
    - rewrite <- IH. rewrite <- insertDesc_perm.
      symmetry. apply Permutation_middle. }
  exact (H []).
Qed.

Lemma sortDesc_sorted (l : list (string * V)) :
  StronglySorted R (Js.sortDesc key l).
Proof.
  unfold Js.sortDesc.
  assert (H : forall acc,
             StronglySorted R acc ->
             StronglySorted R
               (fold_left (fun acc x => Js.insertDesc key x acc) l acc)).
  { induction l as [|x l IH]; intros acc Hacc; simpl; [exact Hacc|].
    apply IH. apply insertDesc_sorted. exact Hacc. }
  apply H. constructor.
Qed.

Lemma sorted_firstn_skipn (l : list (string * V)) :
  StronglySorted R l ->
  forall n x y, In x (firstn n l) -> In y (skipn n l) -> R x y.
Proof.
  induction 1 as [|a l HS IH HF]; intros n x y Hx Hy.
  - destruct n; simpl in Hx; contradiction.
  - destruct n; simpl in Hx, Hy; [contradiction|].
    destruct Hx as [<-|Hx].
    + rewrite Forall_forall in HF. apply HF.
      rewrite <- (firstn_skipn n l). apply in_or_app. right. exact Hy.
    + eapply IH; eassumption.
Qed.

(** Keeping the first [n] entries of the sorted entries keeps [n] entries
    whose keys are at least those of every entry dropped. *)
Lemma compaction_keeps_top (m : list (string * V)) (n : nat) :
  (n <= List.length m)%nat ->
  let kept := firstn n (Js.sortDesc key m) in
  let dropped := skipn n (Js.sortDesc key m) in
  Permutation m (kept ++ dropped)
  /\ List.length kept = n
  /\ forall x y, In x kept -> In y dropped ->
                 (key (snd y) <= key (snd x))%Z.
Proof.
  intros Hn kept dropped. subst kept dropped. split; [|split].
  - rewrite firstn_skipn. apply sortDesc_perm.
  - rewrite length_firstn. rewrite <- (Permutation_length (sortDesc_perm m)).
    lia.
  - intros x y Hx Hy.
    exact (sorted_firstn_skipn _ (sortDesc_sorted m) n x y Hx Hy).
Qed.

Lemma firstn_sortDesc_NoDup (m : list (string * V)) (n : nat) :
  NoDup (map fst m) -> NoDup (map fst (firstn n (Js.sortDesc key m))).
Proof.
  intros Hnd.
  assert (Hs : NoDup (map fst (Js.sortDesc key m))).
  { eapply Permutation_NoDup; [|exact Hnd].
    apply Permutation_map. apply sortDesc_perm. }
  rewrite <- (firstn_skipn n (Js.sortDesc key m)), map_app in Hs.
  apply NoDup_app_remove_r in Hs. exact Hs.
Qed.

Lemma firstn_sortDesc_Forall (P : string * V -> Prop) (m : list (string * V))
      (n : nat) :
  Forall P m -> Forall P (firstn n (Js.sortDesc key m)).
Proof.
  intros HF. rewrite Forall_forall in *. intros x Hx. apply HF.
  apply (Permutation_in _ (Permutation_sym (sortDesc_perm m))).
  eapply in_firstn. exact Hx.
Qed.

End MapFacts.

Lemma length_substring0 (n : nat) (s : string) :
  (String.length (Js.substring0 n s) <= n)%nat.
Proof.
  unfold Js.substring0. revert s. induction n as [|n IH]; intros s.
  - destruct s; simpl; lia.
  - destruct s as [|c s]; simpl; [lia|]. specialize (IH s). lia.
Qed.

Section RecentFacts.
Import AlertService.

Lemma createGroupAlerts_recent skip groups uuids now :
  forall k s,
    _recentModuleErrors (snd (createGroupAlerts skip groups uuids k now s))
    = _recentModuleErrors s.
Proof.
  induction groups as [|g groups IH]; intros k s; cbn [createGroupAlerts];
    [reflexivity|].
  destruct (existsb _ skip); [apply IH|].
  pose proof (createAlert_recent (moduleAlertData g now) (uuids k) now s) as Hr.
  destruct (createAlert (moduleAlertData g now) (uuids k) now s) as [a s1].
  specialize (IH (S k) s1).
  destruct (createGroupAlerts skip groups uuids (S k) now s1) as [alerts s2].
  cbn [snd] in *. congruence.
Qed.

(** What a call does to the cache of recent signatures: nothing when it
    returns at the guard or inside the window, and otherwise the signature
    is registered and the cache compacted. *)
Lemma createModuleErrorAlerts_recent output uuids now s :
  let r := createModuleErrorAlerts output uuids now s in
  (fst r = None /\ snd r = s)
  \/ _recentModuleErrors (snd r)
     = compactRecent (Js.mset (Js.substring0 150 output) now
                              (_recentModuleErrors s)).
Proof.
  unfold createModuleErrorAlerts.
  destruct (_ || _); [left; auto|].
  destruct (match Js.mget _ _ with Some _ => _ | None => _ end); [left; auto|].
  right.
  destruct (Shell.processModuleErrors output now) as [info|]; [|reflexivity].
  destruct (Shell.alertGroups info) as [|g gs]; [reflexivity|].
  pose proof (createGroupAlerts_recent
                (activeModuleNames
                   (_activeAlerts
                      (set_recent
                         (compactRecent
                            (Js.mset (Js.substring0 150 output) now
                                     (_recentModuleErrors s))) s)))
                (g :: gs) uuids now 0
                (set_recent
                   (compactRecent
                      (Js.mset (Js.substring0 150 output) now
                               (_recentModuleErrors s))) s)) as Hr.
  destruct (createGroupAlerts _ (g :: gs) uuids 0 now _) as [alerts s2].
  exact Hr.
Qed.

(** A call that passes the guard outside the window registers its
    signature. *)
Lemma createModuleErrorAlerts_registers output uuids now s :
  output <> "" ->
  Js.includes output moduleNotFoundLiteral = true ->
  (forall t, Js.mget (Js.substring0 150 output) (_recentModuleErrors s)
             = Some t -> (2000 <= now - t)%Z) ->
  _recentModuleErrors (snd (createModuleErrorAlerts output uuids now s))
  = compactRecent (Js.mset (Js.substring0 150 output) now
                           (_recentModuleErrors s)).
Proof.
  intros Hne Hinc Hstale. unfold createModuleErrorAlerts.
  apply String.eqb_neq in Hne. rewrite Hne, Hinc. cbn [orb negb].
  replace (match Js.mget _ _ with Some _ => _ | None => _ end) with false.
  2:{ destruct (Js.mget _ _) as [t|]; [|reflexivity].
      symmetry. apply Z.ltb_ge. apply Hstale. reflexivity. }
  destruct (Shell.processModuleErrors output now) as [info|]; [|reflexivity].
  destruct (Shell.alertGroups info) as [|g gs]; [reflexivity|].
  pose proof (createGroupAlerts_recent
                (activeModuleNames
                   (_activeAlerts
                      (set_recent
                         (compactRecent
                            (Js.mset (Js.substring0 150 output) now
                                     (_recentModuleErrors s))) s)))
                (g :: gs) uuids now 0
                (set_recent
                   (compactRecent
                      (Js.mset (Js.substring0 150 output) now
                               (_recentModuleErrors s))) s)) as Hr.
  destruct (createGroupAlerts _ (g :: gs) uuids 0 now _) as [alerts s2].
  exact Hr.
Qed.

Lemma clearAlert_recent i s :
  _recentModuleErrors (clearAlert i s) = _recentModuleErrors s.
Proof.
  unfold clearAlert. destruct i as [i|]; [destruct (String.eqb i "")|];
    reflexivity.
Qed.

Lemma createGroupAlerts_shape skip groups uuids now :
  forall k s,
    Forall (fun a =>
              type a = "module-error"
              /\ severity a = SevError
              /\ source a = Some SrcPreview
              /\ actionable a = Some true
              /\ exists n, metaModuleName (metadata a) = Some n
                           /\ ~ In n skip)
           (fst (createGroupAlerts skip groups uuids k now s)).
Proof.
  induction groups as [|g groups IH]; intros k s; cbn [createGroupAlerts];
    [constructor|].
  destruct (existsb _ skip) eqn:E; [apply IH|].
  pose proof (createAlert_fst (moduleAlertData g now) (uuids k) now s) as Hfst.
  destruct (createAlert (moduleAlertData g now) (uuids k) now s) as [a s1].
  cbn [fst] in Hfst. subst a. specialize (IH (S k) s1).
  destruct (createGroupAlerts skip groups uuids (S k) now s1) as [alerts s2].
  cbn [fst] in *. constructor; [|exact IH].
  repeat split. exists (Shell.pe_moduleName g). split; [reflexivity|].
  intros Hin. assert (Ht : existsb (String.eqb (Shell.pe_moduleName g)) skip = true).
  { apply existsb_exists. exists (Shell.pe_moduleName g).
    split; [exact Hin | apply String.eqb_refl]. }
  congruence.
Qed.

End RecentFacts.

(** X10.  The 2000 ms window of [createModuleErrorAlerts].  When a call
    passes the guard and is not itself inside the window, and the cache is
    not at its compaction threshold, a second call with the same output less
    than 2000 ms later returns null and changes nothing, whatever happened to
    the alerts in between. *)
Theorem createModuleErrorAlerts_window :
  forall (output : string) (uuids uuids' : nat -> string) (now now' : Z)
         (s : AlertService.t) (i : option string),
    output <> "" ->
    Js.includes output AlertService.moduleNotFoundLiteral = true ->
    (forall t, Js.mget (Js.substring0 150 output)
                       (AlertService._recentModuleErrors s) = Some t ->
               (2000 <= now - t)%Z) ->
    (List.length (AlertService._recentModuleErrors s) < 100)%nat ->
    (now' - now < 2000)%Z ->
    let s1 := AlertService.clearAlert i
                (snd (AlertService.createModuleErrorAlerts output uuids now s)) in
    AlertService.createModuleErrorAlerts output uuids' now' s1 = (None, s1).
Proof.
  intros output uuids uuids' now now' s i Hne Hinc Hstale Hlen Hwin s1.
  assert (Hrec : AlertService._recentModuleErrors s1
                 = Js.mset (Js.substring0 150 output) now
                           (AlertService._recentModuleErrors s)).
  { subst s1. rewrite clearAlert_recent.
    rewrite createModuleErrorAlerts_registers by assumption.
    unfold AlertService.compactRecent.
    pose proof (length_mset (Js.substring0 150 output) now
                  (AlertService._recentModuleErrors s)) as Hl.
    replace (100 <? _)%nat with false by (symmetry; apply Nat.ltb_ge; lia).
    reflexivity. }
  unfold AlertService.createModuleErrorAlerts.
  apply String.eqb_neq in Hne. rewrite Hne, Hinc. cbn [orb negb].
  rewrite Hrec, mget_mset_same.
  replace (now' - now <? 2000)%Z with true
    by (symmetry; apply Z.ltb_lt; lia).
  reflexivity.
Qed.

Lemma createModuleErrorAlerts_window_witness :
  let s1 := AlertService.clearAlert None
              (snd (AlertService.createModuleErrorAlerts
                      lodashConsoleText uuidOf 1000 AlertService.empty)) in
  AlertService.createModuleErrorAlerts lodashConsoleText uuidOf 2500 s1
  = (None, s1).
Proof.
  apply (createModuleErrorAlerts_window lodashConsoleText uuidOf uuidOf
           1000 2500 AlertService.empty None).
  - discriminate.
  - vm_compute. reflexivity.
  - simpl. discriminate.
  - simpl. lia.
  - lia.
Defined.

(** X11.  Every alert returned by [createModuleErrorAlerts] is a
    module-error alert of severity error from the preview, actionable, whose
    metadata names a module for which no module-error alert was active when
    the call started: a module with an active alert gets no second one. *)
Theorem module_alerts_only_for_modules_without_active_alert :
  forall (output : string) (uuids : nat -> string) (now : Z)
         (s : AlertService.t) (alerts : list ActionAlert),
    fst (AlertService.createModuleErrorAlerts output uuids now s) = Some alerts ->
    Forall (fun a =>
              type a = "module-error"
              /\ severity a = SevError
              /\ source a = Some SrcPreview
              /\ actionable a = Some true
              /\ exists n,
                  AlertService.metaModuleName (metadata a) = Some n
                  /\ ~ In n (AlertService.activeModuleNames
                               (AlertService._activeAlerts s)))
           alerts.
Proof.
  intros output uuids now s alerts. unfold AlertService.createModuleErrorAlerts.
  destruct (_ || _); [discriminate|].
  destruct (match Js.mget _ _ with Some _ => _ | None => _ end); [discriminate|].
  destruct (Shell.processModuleErrors output now) as [info|]; [|discriminate].
  destruct (Shell.alertGroups info) as [|g gs]; [discriminate|].
  pose proof (createGroupAlerts_shape
                (AlertService.activeModuleNames (AlertService._activeAlerts s))
                (g :: gs) uuids now 0
                (AlertService.set_recent
                   (AlertService.compactRecent
                      (Js.mset (Js.substring0 150 output) now
                               (AlertService._recentModuleErrors s))) s)) as Hs.
  cbn [AlertService.set_recent AlertService._activeAlerts] in *.
  destruct (AlertService.createGroupAlerts _ (g :: gs) uuids 0 now _)
    as [alerts0 s2].
  cbn [fst] in *. intros H. inversion H; subst. exact Hs.
Qed.

Lemma module_alerts_only_for_modules_without_active_alert_witness :
  exists alerts,
    fst (AlertService.createModuleErrorAlerts lodashConsoleText uuidOf 1000
           AlertService.empty) = Some alerts
    /\ alerts <> []
    /\ Forall (fun a => type a = "module-error") alerts.
Proof.
  eexists. split; [vm_compute; reflexivity|]. split; [discriminate|].
  eapply Forall_impl;
    [|apply (module_alerts_only_for_modules_without_active_alert
               lodashConsoleText uuidOf 1000 AlertService.empty);
      vm_compute; reflexivity].
  simpl. intros a H. apply H.
Defined.

(** X12.  In every reachable store the cache of recent output signatures is
    a map with at most 100 entries whose keys have at most 150 characters. *)
Theorem recent_signatures_bounded :
  forall s : AlertService.t,
    AlertService.reachable s ->
    (List.length (AlertService._recentModuleErrors s) <= 100)%nat
    /\ NoDup (map fst (AlertService._recentModuleErrors s))
    /\ Forall (fun e => (String.length (fst e) <= 150)%nat)
              (AlertService._recentModuleErrors s).
Proof.
  intros s [ops [_ <-]]. unfold AlertService.run.
  induction ops as [|op ops IH] using rev_ind.
  - simpl. repeat split; [lia | constructor | constructor].
  - rewrite runLog_snoc.
    destruct op as [d u n|i|o u n]; cbn [AlertService.stepLog fst snd].
    + rewrite createAlert_recent. exact IH.
    + rewrite clearAlert_recent. exact IH.
    + destruct (createModuleErrorAlerts_recent o u n
                  (fst (AlertService.runLog ops))) as [[_ ->]| ->];
        [exact IH|].
      destruct IH as (Hlen & Hnd & Hk).
      pose proof (length_mset (Js.substring0 150 o) n
                    (AlertService._recentModuleErrors
                       (fst (AlertService.runLog ops)))) as Hl.
      unfold AlertService.compactRecent.
      destruct (100 <? _)%nat eqn:E.
      * split; [rewrite length_firstn; lia|]. split.
        -- apply firstn_sortDesc_NoDup. apply mset_NoDup. exact Hnd.
        -- apply firstn_sortDesc_Forall. apply mset_Forall; [|exact Hk].
           apply length_substring0.
      * apply Nat.ltb_ge in E. split; [exact E|]. split.
        -- apply mset_NoDup. exact Hnd.
        -- apply mset_Forall; [|exact Hk]. apply length_substring0.
Qed.

Lemma recent_signatures_bounded_witness :
  (List.length
     (AlertService._recentModuleErrors
        (AlertService.run
           [AlertService.OpModuleErrors lodashConsoleText uuidOf 1000]))
   <= 100)%nat.
Proof.
  apply (recent_signatures_bounded
           (AlertService.run
              [AlertService.OpModuleErrors lodashConsoleText uuidOf 1000])).
  eexists. split; [|reflexivity].
  constructor; [|constructor]. simpl. intros k. unfold uuidOf.
  destruct k; discriminate.
Defined.

(** X13.  Compaction keeps the best entries.  Above 100 entries a cache of
    time stamps ([_recentModuleErrors], [lastProcessedErrors],
    [moduleErrorCache]) is cut to 50 entries, each at least as recent as
    every entry dropped; above 50 entries the context cache is cut to 25
    entries, each with a count at least that of every entry dropped.
    Nothing is invented: kept and dropped entries together are the old
    entries. *)
Theorem compaction_keeps_the_top_entries :
  forall (m : list (string * Z)) (c : list (string * Console.ContextInfo)),
    AlertService.compactRecent m = Console.compactTimes m
    /\ ((100 < List.length m)%nat ->
        exists dropped,
          Permutation m (Console.compactTimes m ++ dropped)
          /\ List.length (Console.compactTimes m) = 50%nat
          /\ forall x y, In x (Console.compactTimes m) -> In y dropped ->
                         (snd y <= snd x)%Z)
    /\ ((50 < List.length c)%nat ->
        exists dropped,
          Permutation c (Console.compactContexts c ++ dropped)
          /\ List.length (Console.compactContexts c) = 25%nat
          /\ forall x y, In x (Console.compactContexts c) -> In y dropped ->
                         (Console.count (snd y) <= Console.count (snd x))%Z)
    /\ ((List.length m <= 100)%nat -> Console.compactTimes m = m)
    /\ ((List.length c <= 50)%nat -> Console.compactContexts c = c).
Proof.
  intros m c. split; [reflexivity|]. split; [|split; [|split]].
  - intros H. unfold Console.compactTimes.
    replace (100 <? List.length m)%nat with true
      by (symmetry; apply Nat.ltb_lt; exact H).
    exists (skipn 50 (Js.sortDesc (fun v => v) m)).
    apply (compaction_keeps_top (fun v : Z => v) m 50). lia.
  - intros H. unfold Console.compactContexts.
    replace (50 <? List.length c)%nat with true
      by (symmetry; apply Nat.ltb_lt; exact H).
    exists (skipn 25 (Js.sortDesc Console.count c)).
    apply (compaction_keeps_top Console.count c 25). lia.
  - intros H. unfold Console.compactTimes.
    replace (100 <? List.length m)%nat with false
      by (symmetry; apply Nat.ltb_ge; exact H).
    reflexivity.
  - intros H. unfold Console.compactContexts.
    replace (50 <? List.length c)%nat with false
      by (symmetry; apply Nat.ltb_ge; exact H).
    reflexivity.
Qed.

Lemma compaction_keeps_the_top_entries_witness :
  (exists dropped,
      Permutation cacheOf101 (Console.compactTimes cacheOf101 ++ dropped)
      /\ List.length (Console.compactTimes cacheOf101) = 50%nat
      /\ forall x y, In x (Console.compactTimes cacheOf101) -> In y dropped ->
                     (snd y <= snd x)%Z)
  /\ (exists dropped,
         Permutation contextsOf51 (Console.compactContexts contextsOf51 ++ dropped)
         /\ List.length (Console.compactContexts contextsOf51) = 25%nat
         /\ forall x y, In x (Console.compactContexts contextsOf51) ->
                        In y dropped ->
                        (Console.count (snd y) <= Console.count (snd x))%Z).
Proof.
  destruct (compaction_keeps_the_top_entries cacheOf101 contextsOf51)
    as (_ & Htimes & Hcontexts & _).
  split.
  - apply Htimes. vm_compute. lia.
  - apply Hcontexts. vm_compute. lia.
Defined.

(** *** The caches of [processConsoleErrors] *)

Section ConsoleFacts.
Import Console.

Lemma length_mset_present {V} (k : string) (v v0 : V) (m : list (string * V)) :
  Js.mget k m = Some v0 -> List.length (Js.mset k v m) = List.length m.
Proof.
  induction m as [|[k1 v1] m IH]; simpl; [discriminate|].
  destruct (String.eqb k1 k); simpl; [reflexivity|].
  intros H. f_equal. apply IH. exact H.
Qed.

Lemma mget_In {V} (k : string) (v : V) (m : list (string * V)) :
  Js.mget k m = Some v -> In (k, v) m.
Proof.
  induction m as [|[k1 v1] m IH]; simpl; [discriminate|].
  destruct (String.eqb k1 k) eqn:E.
  - intros H. inversion H; subst. apply String.eqb_eq in E. subst. left.
    reflexivity.
  - intros H. right. apply IH. exact H.
Qed.

(** What holds of one accumulator of the context cache. *)
Let goodContext (e : string * ContextInfo) : Prop :=
  fst e <> ""
  /\ (1 <= count (snd e))%Z
  /\ (1 <= List.length (contexts (snd e)) <= 5)%nat
  /\ Forall (fun ctx => (String.length ctx <= 300)%nat) (contexts (snd e))
  /\ NoDup (sourceTypes (snd e))
  /\ incl (sourceTypes (snd e)) ["browser"; "node"].

Lemma setAdd_NoDup x l : NoDup l -> NoDup (setAdd x l).
Proof.
  intros H. unfold setAdd. destruct (existsb (String.eqb x) l) eqn:E;
    [exact H|].
  apply NoDup_app; [exact H | constructor; [intros [] | constructor] |].
  intros a Ha [<-|[]].
  assert (Ht : existsb (String.eqb x) l = true).
  { apply existsb_exists. exists x. split; [exact Ha | apply String.eqb_refl]. }
  congruence.
Qed.

Lemma setAdd_incl x l u : In x u -> incl l u -> incl (setAdd x l) u.
Proof.
  intros Hx Hl. unfold setAdd. destruct (existsb _ l); [exact Hl|].
  apply incl_app; [exact Hl|]. intros a [<-|[]]. exact Hx.
Qed.

Lemma touchContext_good k consoleOutput now c :
  k <> "" ->
  (0 <= count c)%Z ->
  (List.length (contexts c) <= 5)%nat ->
  Forall (fun ctx => (String.length ctx <= 300)%nat) (contexts c) ->
  NoDup (sourceTypes c) ->
  incl (sourceTypes c) ["browser"; "node"] ->
  ((0 < count c)%Z -> (1 <= List.length (contexts c))%nat) ->
  goodContext (k, touchContext consoleOutput now c).
Proof.
  intros Hk Hc Hl Hctx Hnd Hincl Hpos. unfold goodContext, touchContext.
  cbn [fst snd count contexts sourceTypes].
  split; [exact Hk|]. split; [lia|]. split; [|split; [|split]].
  - destruct (existsb _ (contexts c)) eqn:E.
    + split; [|exact Hl]. destruct (contexts c); [discriminate | simpl; lia].
    + rewrite length_app. cbn [List.length].
      destruct (5 <=? List.length (contexts c))%nat eqn:E5.
      * apply Nat.leb_le in E5. destruct (contexts c); simpl in *; lia.
      * apply Nat.leb_gt in E5. lia.
  - destruct (existsb _ (contexts c)); [exact Hctx|].
    apply Forall_app. split.
    + destruct (5 <=? _)%nat; [|exact Hctx].
      destruct (contexts c); [constructor|]. inversion Hctx; assumption.
    + constructor; [apply length_substring0 | constructor].
  - destruct (Js.includes consoleOutput "webpack-internal:");
      [apply setAdd_NoDup; exact Hnd|].
    destruct (Js.includes consoleOutput "node_modules");
      [apply setAdd_NoDup; exact Hnd | exact Hnd].
  - destruct (Js.includes consoleOutput "webpack-internal:");
      [apply setAdd_incl; [simpl; auto | exact Hincl]|].
    destruct (Js.includes consoleOutput "node_modules");
      [apply setAdd_incl; [simpl; auto | exact Hincl] | exact Hincl].
Qed.

Lemma compactTimes_inv (P : string * Z -> Prop) (m : list (string * Z)) :
  NoDup (map fst m) -> Forall P m ->
  (List.length (compactTimes m) <= 100)%nat
  /\ NoDup (map fst (compactTimes m))
  /\ Forall P (compactTimes m).
Proof.
  intros Hnd HP. unfold compactTimes. destruct (100 <? _)%nat eqn:E.
  - split; [rewrite length_firstn; lia|]. split.
    + apply firstn_sortDesc_NoDup. exact Hnd.
    + apply firstn_sortDesc_Forall. exact HP.
  - apply Nat.ltb_ge in E. auto.
Qed.

Lemma compactContexts_inv (P : string * ContextInfo -> Prop)
      (m : list (string * ContextInfo)) :
  NoDup (map fst m) -> Forall P m ->
  (List.length (compactContexts m) <= 50)%nat
  /\ NoDup (map fst (compactContexts m))
  /\ Forall P (compactContexts m).
Proof.
  intros Hnd HP. unfold compactContexts. destruct (50 <? _)%nat eqn:E.
  - split; [rewrite length_firstn; lia|]. split.
    + apply firstn_sortDesc_NoDup. exact Hnd.
    + apply firstn_sortDesc_Forall. exact HP.
  - apply Nat.ltb_ge in E. auto.
Qed.

(** The invariant of the three caches. *)
Let cachesOk (s : t) : Prop :=
  ((List.length (lastProcessedErrors s) <= 100)%nat
   /\ NoDup (map fst (lastProcessedErrors s)))
  /\ ((List.length (moduleErrorCache s) <= 100)%nat
      /\ NoDup (map fst (moduleErrorCache s))
      /\ Forall (fun e => fst e <> "") (moduleErrorCache s))
  /\ ((List.length (errorContextCache s) <= 50)%nat
      /\ NoDup (map fst (errorContextCache s))
      /\ Forall goodContext (errorContextCache s)).

Lemma cachesOk_step consoleOutput uuids now s :
  cachesOk s -> cachesOk (snd (processConsoleErrors consoleOutput uuids now s)).
Proof.
  intros HI. unfold processConsoleErrors.
  destruct (String.eqb consoleOutput ""); [exact HI|].
  destruct (negb (Js.includes consoleOutput AlertService.moduleNotFoundLiteral));
    [exact HI|].
  destruct HI as ((Hl1 & Hn1) & (Hl2 & Hn2 & Hk2) & (Hl3 & Hn3 & Hg3)).
  destruct (moduleTierFresh (moduleNameOf consoleOutput) now s) eqn:Hmod.
  - destruct (Js.mget (moduleNameOf consoleOutput) (errorContextCache s))
      as [c|] eqn:Hctx; cbn [snd]; [|repeat split; assumption].
    split; [split; assumption|]. split; [repeat split; assumption|].
    cbn [errorContextCache].
    rewrite (length_mset_present _ _ c) by exact Hctx.
    split; [exact Hl3|]. split; [apply mset_NoDup; exact Hn3|].
    apply mset_Forall; [|exact Hg3].
    apply mget_In in Hctx. rewrite Forall_forall in Hg3.
    destruct (Hg3 _ Hctx) as (Hk & Hc & Hlen & Hctxs & Hnd & Hincl).
    cbn [fst snd] in *. apply touchContext_good; auto; lia.
  - destruct (signatureTierFresh (errorSignatureOf consoleOutput) now s);
      [cbn [snd]; repeat split; assumption|].
    set (s1 := {| lastProcessedErrors := _; moduleErrorCache := _;
                  errorContextCache := _; alertService := alertService s |}).
    assert (H1 : cachesOk s1).
    { subst s1. unfold cachesOk.
      cbn [lastProcessedErrors moduleErrorCache errorContextCache].
      split; [|split].
      - destruct (compactTimes_inv (fun _ => True)
                    (Js.mset (errorSignatureOf consoleOutput) now
                             (lastProcessedErrors s)))
          as (Ha & Hb & _);
          [apply mset_NoDup; exact Hn1 | apply Forall_forall; auto | auto].
      - destruct (String.eqb (moduleNameOf consoleOutput) "") eqn:E.
        + apply compactTimes_inv; assumption.
        + apply compactTimes_inv;
            [apply mset_NoDup; exact Hn2 | apply mset_Forall; [|exact Hk2]].
          cbn [fst]. apply String.eqb_neq. exact E.
      - destruct (String.eqb (moduleNameOf consoleOutput) "") eqn:E.
        + apply compactContexts_inv; assumption.
        + apply compactContexts_inv; [apply mset_NoDup; exact Hn3|].
          apply mset_Forall; [|exact Hg3]. apply String.eqb_neq in E.
          destruct (Js.mget (moduleNameOf consoleOutput) (errorContextCache s))
            as [c|] eqn:Hctx.
          * apply mget_In in Hctx. rewrite Forall_forall in Hg3.
            destruct (Hg3 _ Hctx) as (Hk & Hc & Hlen & Hctxs & Hnd & Hincl).
            cbn [fst snd] in *. apply touchContext_good; auto; lia.
          * apply touchContext_good;
              cbn [freshContext count contexts sourceTypes List.length];
              [exact E | lia | lia | constructor | constructor
              | intros x [] | lia]. }
    clearbody s1.
    destruct (Shell.processModuleErrors consoleOutput now); [|exact H1].
    destruct (AlertService.createModuleErrorAlerts consoleOutput uuids now
                (alertService s1)) as [alerts svc].
    exact H1.
Qed.

Lemma cachesOk_reachable s : reachable s -> cachesOk s.
Proof.
  intros [calls <-]. unfold runWith.
  induction calls as [|c calls IH] using rev_ind.
  - simpl. unfold cachesOk. simpl.
    repeat split; try lia; constructor.
  - rewrite fold_left_app. cbn [fold_left]. apply cachesOk_step. exact IH.
Qed.

Lemma moduleNameOf_guard o :
  moduleNameOf o <> "" ->
  String.eqb o "" = false
  /\ Js.includes o AlertService.moduleNotFoundLiteral = true.
Proof.
  intros H. split.
  - destruct (String.eqb o "") eqn:E; [|reflexivity].
    apply String.eqb_eq in E. subst o. exfalso. apply H. reflexivity.
  - destruct (Js.includes o "Module not found: Can't resolve '") eqn:E.
    + apply (includes_app o AlertService.moduleNotFoundLiteral " '"). exact E.
    + exfalso. apply H. unfold moduleNameOf.
      assert (H1 : Regex.matchFirst false reModuleNotFound o = None)
        by (apply (no_match_without_literal_exact
                     "Module not found: Can't resolve '");
            [simpl; auto | exact E]).
      rewrite H1. reflexivity.
Qed.

(** The caches after an accepted call. *)
Lemma accepted_caches o u now s alerts :
  fst (processConsoleErrors o u now s) = Accepted alerts ->
  let s1 := snd (processConsoleErrors o u now s) in
  lastProcessedErrors s1
  = compactTimes (Js.mset (errorSignatureOf o) now (lastProcessedErrors s))
  /\ moduleErrorCache s1
     = compactTimes
         (if String.eqb (moduleNameOf o) "" then moduleErrorCache s
          else Js.mset (moduleNameOf o) now (moduleErrorCache s))
  /\ errorContextCache s1
     = compactContexts
         (if String.eqb (moduleNameOf o) "" then errorContextCache s
          else Js.mset (moduleNameOf o)
                 (touchContext o now
                    match Js.mget (moduleNameOf o) (errorContextCache s) with
                    | Some c => c
                    | None => freshContext now
                    end)
                 (errorContextCache s)).
Proof.
  unfold processConsoleErrors.
  destruct (String.eqb o ""); [discriminate|].
  destruct (negb (Js.includes o AlertService.moduleNotFoundLiteral));
    [discriminate|].
  destruct (moduleTierFresh (moduleNameOf o) now s).
  { destruct (Js.mget (moduleNameOf o) (errorContextCache s)); discriminate. }
  destruct (signatureTierFresh (errorSignatureOf o) now s); [discriminate|].
  destruct (Shell.processModuleErrors o now).
  - cbn [alertService].
    destruct (AlertService.createModuleErrorAlerts o u now (alertService s))
      as [al svc].
    intros _. cbn. auto.
  - intros _. cbn. auto.
Qed.

End ConsoleFacts.

(** X14.  The caches of [processConsoleErrors] stay bounded.  After any
    sequence of calls the signature tier and the module tier hold at most
    100 entries and the context cache at most 50, with no key twice; the
    module tier and the context cache have no empty key; and every
    accumulator of the context cache has a count of at least one, between
    one and five stored contexts of at most 300 characters each, and source
    tags among browser and node, none twice. *)
Theorem console_caches_bounded :
  forall s : Console.t,
    Console.reachable s ->
    (List.length (Console.lastProcessedErrors s) <= 100)%nat
    /\ (List.length (Console.moduleErrorCache s) <= 100)%nat
    /\ (List.length (Console.errorContextCache s) <= 50)%nat
    /\ NoDup (map fst (Console.lastProcessedErrors s))
    /\ NoDup (map fst (Console.moduleErrorCache s))
    /\ NoDup (map fst (Console.errorContextCache s))
    /\ (forall k t, In (k, t) (Console.moduleErrorCache s) -> k <> "")
    /\ forall k c,
        In (k, c) (Console.errorContextCache s) ->
        k <> ""
        /\ (1 <= Console.count c)%Z
        /\ (1 <= List.length (Console.contexts c) <= 5)%nat
        /\ Forall (fun ctx => (String.length ctx <= 300)%nat)
                  (Console.contexts c)
        /\ NoDup (Console.sourceTypes c)
        /\ incl (Console.sourceTypes c) ["browser"; "node"].
Proof.
  intros s Hr. destruct (cachesOk_reachable s Hr)
    as ((Hl1 & Hn1) & (Hl2 & Hn2 & Hk2) & (Hl3 & Hn3 & Hg3)).
  repeat (split; [assumption|]). split.
  - intros k t Hin. rewrite Forall_forall in Hk2. apply (Hk2 _ Hin).
  - intros k c Hin. rewrite Forall_forall in Hg3. apply (Hg3 _ Hin).
Qed.

Lemma console_caches_bounded_witness :
  (List.length
     (Console.errorContextCache
        (Console.runCalls fiftyOneModules Console.initial)) <= 50)%nat.
Proof.
  destruct (console_caches_bounded
              (Console.runCalls fiftyOneModules Console.initial))
    as (_ & _ & H & _); [|exact H].
  exists (map (fun c => (fst c, fun _ : nat => "uuid", snd c)) fiftyOneModules).
  unfold Console.runWith, Console.runCalls.
  generalize Console.initial.
  generalize fiftyOneModules as l.
  induction l as [|c l IH]; intros s0; [reflexivity|].
  cbn [map fold_left fst snd]. apply IH.
Defined.

(** X15.  The 5000 ms window of the module tier.  After an accepted report
    of a module, with the module tier below 100 entries and the context
    cache below 50, any report that names the same module less than 5000 ms
    later is suppressed by the module tier: the alert service and the two
    tiers are left as they are, and the accumulator of the module counts
    one more occurrence, last seen now. *)
Theorem module_report_suppressed_within_window :
  forall (o o' : string) (u u' : nat -> string) (now now' : Z)
         (s : Console.t) (alerts : option (list ActionAlert)),
    Console.moduleNameOf o <> "" ->
    Console.moduleNameOf o' = Console.moduleNameOf o ->
    fst (Console.processConsoleErrors o u now s) = Console.Accepted alerts ->
    (List.length (Console.moduleErrorCache s) < 100)%nat ->
    (List.length (Console.errorContextCache s) < 50)%nat ->
    (now' - now < 5000)%Z ->
    let s1 := snd (Console.processConsoleErrors o u now s) in
    let r2 := Console.processConsoleErrors o' u' now' s1 in
    fst r2 = Console.SuppressedByModuleTier
    /\ Console.alertService (snd r2) = Console.alertService s1
    /\ Console.lastProcessedErrors (snd r2) = Console.lastProcessedErrors s1
    /\ Console.moduleErrorCache (snd r2) = Console.moduleErrorCache s1
    /\ exists c c',
        Js.mget (Console.moduleNameOf o) (Console.errorContextCache s1) = Some c
        /\ Js.mget (Console.moduleNameOf o) (Console.errorContextCache (snd r2))
           = Some c'
        /\ Console.count c' = (Console.count c + 1)%Z
        /\ Console.lastSeen c' = now'.
Proof.
  intros o o' u u' now now' s alerts Hname Hsame Hacc Hlm Hlc Hwin s1 r2.
  destruct (accepted_caches o u now s alerts Hacc) as (_ & Hmods & Hctxs).
  fold s1 in Hmods, Hctxs.
  apply String.eqb_neq in Hname. rewrite Hname in Hmods, Hctxs.
  unfold Console.compactTimes in Hmods.
  pose proof (length_mset (Console.moduleNameOf o) now
                (Console.moduleErrorCache s)) as Hl1.
  replace (100 <? _)%nat with false in Hmods
    by (symmetry; apply Nat.ltb_ge; lia).
  unfold Console.compactContexts in Hctxs.
  match type of Hctxs with
  | _ = (if (50 <? List.length (Js.mset ?k ?v ?m))%nat then _ else _) =>
      pose proof (length_mset k v m) as Hl2; set (c0 := v) in *
  end.
  replace (50 <? _)%nat with false in Hctxs
    by (symmetry; apply Nat.ltb_ge; lia).
  assert (Hguard : String.eqb o' "" = false
                   /\ Js.includes o' AlertService.moduleNotFoundLiteral = true).
  { apply moduleNameOf_guard. rewrite Hsame. apply String.eqb_neq. exact Hname. }
  destruct Hguard as (Hne' & Hinc').
  assert (Hfresh : Console.moduleTierFresh (Console.moduleNameOf o) now' s1
                   = true).
  { unfold Console.moduleTierFresh. rewrite Hname, Hmods, mget_mset_same.
    cbn [negb andb]. apply Z.ltb_lt. lia. }
  assert (Hget : Js.mget (Console.moduleNameOf o) (Console.errorContextCache s1)
                 = Some c0).
  { rewrite Hctxs. apply mget_mset_same. }
  assert (Hr2 : r2 = (Console.SuppressedByModuleTier,
                      {| Console.lastProcessedErrors :=
                           Console.lastProcessedErrors s1;
                         Console.moduleErrorCache := Console.moduleErrorCache s1;
                         Console.errorContextCache :=
                           Js.mset (Console.moduleNameOf o)
                                   (Console.touchContext o' now' c0)
                                   (Console.errorContextCache s1);
                         Console.alertService := Console.alertService s1 |})).
  { subst r2. unfold Console.processConsoleErrors.
    rewrite Hne', Hinc', Hsame, Hfresh, Hget. reflexivity. }
  rewrite Hr2. cbn [fst snd Console.alertService Console.lastProcessedErrors
                    Console.moduleErrorCache Console.errorContextCache].
  do 4 (split; [reflexivity|]).
  exists c0, (Console.touchContext o' now' c0).
  split; [exact Hget|]. split; [apply mget_mset_same|].
  split; reflexivity.
Qed.

Lemma module_report_suppressed_within_window_witness :
  fst (Console.processConsoleErrors lodashConsoleText uuidOf 5999
         (snd (Console.processConsoleErrors lodashConsoleText uuidOf 1000
                 Console.initial)))
  = Console.SuppressedByModuleTier.
Proof.
  eapply (module_report_suppressed_within_window
            lodashConsoleText lodashConsoleText uuidOf uuidOf 1000 5999
            Console.initial).
  - vm_compute. discriminate.
  - reflexivity.
  - vm_compute. reflexivity.
  - simpl. lia.
  - simpl. lia.
  - lia.
Defined.

(** *** Grouping of the detected errors *)

Section GroupFacts.
Import Shell.
Context {A : Type}.
Variable key : A -> string.

Let step (groups : list (string * list A)) (x : A) : list (string * list A) :=
  match Js.mget (key x) groups with
  | Some members => Js.mset (key x) (members ++ [x]) groups
  | None => Js.mset (key x) [x] groups
  end.

Lemma groupBy_snoc (l : list A) (x : A) :
  groupBy key (l ++ [x]) = step (groupBy key l) x.
Proof. unfold groupBy. rewrite fold_left_app. reflexivity. Qed.

Lemma keys_functional {V} (m : list (string * V)) (k : string) (a b : V) :
  NoDup (map fst m) -> In (k, a) m -> In (k, b) m -> a = b.
Proof.
  induction m as [|[k0 v0] m IH]; simpl; intros Hnd Ha Hb; [contradiction|].
  inversion Hnd as [|? ? Hnotin Hnd']; subst.
  destruct Ha as [Ha|Ha], Hb as [Hb|Hb].
  - congruence.
  - inversion Ha; subst. exfalso. apply Hnotin.
    apply (in_map fst) in Hb. exact Hb.
  - inversion Hb; subst. exfalso. apply Hnotin.
    apply (in_map fst) in Ha. exact Ha.
  - eapply IH; eassumption.
Qed.

Lemma mset_In {V} (k : string) (v : V) (m : list (string * V)) :
  forall e, In e (Js.mset k v m) -> e = (k, v) \/ In e m.
Proof.
  induction m as [|[k0 v0] m IH]; simpl; intros e He.
  - destruct He as [<-|[]]. left. reflexivity.
  - destruct (String.eqb k0 k); simpl in He.
    + destruct He as [<-|He]; [left; reflexivity | right; right; exact He].
    + destruct He as [<-|He]; [right; left; reflexivity|].
      destruct (IH e He); [left | right; right]; assumption.
Qed.

Lemma mget_None_notin {V} (k : string) (m : list (string * V)) :
  Js.mget k m = None -> ~ In k (map fst m).
Proof.
  induction m as [|[k0 v0] m IH]; simpl; intros H; [tauto|].
  destruct (String.eqb k0 k) eqn:E; [discriminate|].
  apply String.eqb_neq in E. intros [Hk|Hk]; [congruence | exact (IH H Hk)].
Qed.

Lemma sum_mset_present {V} (f : V -> nat) (k : string) (v v0 : V)
      (m : list (string * V)) :
  Js.mget k m = Some v0 ->
  (list_sum (map (fun e => f (snd e)) (Js.mset k v m)) + f v0
   = list_sum (map (fun e => f (snd e)) m) + f v)%nat.
Proof.
  induction m as [|[k1 v1] m IH]; simpl; [discriminate|].
  destruct (String.eqb k1 k); simpl.
  - intros H. inversion H; subst. lia.
  - intros H. specialize (IH H). lia.
Qed.

Lemma sum_mset_absent {V} (f : V -> nat) (k : string) (v : V)
      (m : list (string * V)) :
  Js.mget k m = None ->
  list_sum (map (fun e => f (snd e)) (Js.mset k v m))
  = (list_sum (map (fun e => f (snd e)) m) + f v)%nat.
Proof.
  induction m as [|[k1 v1] m IH]; simpl; [lia|].
  destruct (String.eqb k1 k); simpl; [discriminate|].
  intros H. rewrite (IH H). lia.
Qed.

Lemma filter_none (k : string) (l : list A) :
  (forall y, In y l -> key y <> k) ->
  filter (fun y => String.eqb (key y) k) l = [].
Proof.
  induction l as [|y l IH]; intros H; [reflexivity|]. cbn [filter].
  replace (String.eqb (key y) k) with false
    by (symmetry; apply String.eqb_neq; apply H; left; reflexivity).
  apply IH. intros z Hz. apply H. right. exact Hz.
Qed.

(** The groups of [groupBy]: no key twice; the group of a key holds the
    elements with that key, in their order, and is not empty; every element
    has the group of its key; the sizes add up. *)
Lemma groupBy_spec (l : list A) :
  NoDup (map fst (groupBy key l))
  /\ (forall k members,
         In (k, members) (groupBy key l) ->
         members = filter (fun x => String.eqb (key x) k) l /\ members <> [])
  /\ (forall x, In x l -> Js.mget (key x) (groupBy key l) <> None)
  /\ list_sum (map (fun g => List.length (snd g)) (groupBy key l))
     = List.length l.
Proof.
  induction l as [|x l IH] using rev_ind.
  - simpl. repeat split; try constructor; intros; contradiction.
  - destruct IH as (Hnd & Hmem & Hcov & Hsum).
    rewrite groupBy_snoc. unfold step.
    assert (Hnd' : forall v, NoDup (map fst (Js.mset (key x) v (groupBy key l))))
      by (intros v; apply mset_NoDup; exact Hnd).
    assert (Hsplit :
              forall v k members,
                In (k, members) (Js.mset (key x) v (groupBy key l)) ->
                (k = key x /\ members = v)
                \/ (k <> key x /\ In (k, members) (groupBy key l))).
    { intros v k members Hin.
      destruct (String.eqb k (key x)) eqn:E.
      - left. apply String.eqb_eq in E. subst k. split; [reflexivity|].
        apply (keys_functional _ (key x) members v (Hnd' v) Hin).
        apply mget_In. apply mget_mset_same.
      - right. apply String.eqb_neq in E. split; [exact E|].
        destruct (mset_In _ _ _ _ Hin) as [Heq|Hold]; [|exact Hold].
        inversion Heq. congruence. }
    assert (Hother : forall k, k <> key x ->
                filter (fun y => String.eqb (key y) k) (l ++ [x])
                = filter (fun y => String.eqb (key y) k) l).
    { intros k Hk. rewrite filter_app. cbn [filter].
      replace (String.eqb (key x) k) with false
        by (symmetry; apply String.eqb_neq; congruence).
      apply app_nil_r. }
    assert (Hcov' : forall v y, In y (l ++ [x]) ->
                Js.mget (key y) (Js.mset (key x) v (groupBy key l)) <> None).
    { intros v y Hy. destruct (String.eqb (key y) (key x)) eqn:E.
      - apply String.eqb_eq in E. rewrite E, mget_mset_same. discriminate.
      - apply String.eqb_neq in E. rewrite mget_mset_other by exact E.
        apply in_app_or in Hy. destruct Hy as [Hy|[<-|[]]];
          [apply Hcov; exact Hy | congruence]. }
    destruct (Js.mget (key x) (groupBy key l)) as [members0|] eqn:Hg.
    + split; [apply Hnd'|]. split; [|split; [apply Hcov'|]].
      * intros k members Hin.
        destruct (Hsplit _ _ _ Hin) as [[-> ->]|[Hk Hold]].
        -- split; [|destruct members0; discriminate].
           rewrite filter_app. cbn [filter]. rewrite String.eqb_refl.
           f_equal. apply Hmem. apply mget_In. exact Hg.
        -- rewrite (Hother k Hk). apply Hmem. exact Hold.
      * pose proof (sum_mset_present (@List.length A) (key x)
                      (members0 ++ [x]) members0 _ Hg) as Hs.
        rewrite !length_app in *. cbn [List.length] in *. lia.
    + split; [apply Hnd'|]. split; [|split; [apply Hcov'|]].
      * intros k members Hin.
        destruct (Hsplit _ _ _ Hin) as [[-> ->]|[Hk Hold]].
        -- split; [|discriminate].
           rewrite filter_app. cbn [filter]. rewrite String.eqb_refl.
           rewrite (filter_none (key x) l); [reflexivity|].
           intros y Hy Heq. apply (Hcov y Hy). rewrite Heq. exact Hg.
        -- rewrite (Hother k Hk). apply Hmem. exact Hold.
      * rewrite (sum_mset_absent (@List.length A) _ _ _ Hg).
        rewrite length_app. cbn [List.length]. lia.
Qed.

End GroupFacts.

Section ProcessFacts.
Import Shell.

Let moduleGroupOf (g : string * list ModuleNotFoundError) : list ProcessedError :=
  match snd g with
  | primary :: _ => [processedModuleError (fst g) (snd g) primary]
  | [] => []
  end.

Let goroutineGroupOf (g : string * list GoroutineError) : list ProcessedError :=
  match snd g with
  | primary :: _ => [processedGoroutineError (fst g) (snd g) primary]
  | [] => []
  end.

Lemma processedGoroutineError_fields errorType errors primary :
  let g := processedGoroutineError errorType errors primary in
  pe_moduleName g = "esbuild"
  /\ errorCount g = Z.of_nat (List.length errors)
  /\ pe_severity g = SevCritical
  /\ primaryError g = PrimaryGoroutine primary.
Proof.
  unfold processedGoroutineError.
  destruct (goroutineTexts errorType primary) as [[title description] fixes].
  cbn. auto.
Qed.

Lemma processModuleErrors_Some output now r :
  processModuleErrors output now = Some r ->
  (detectModuleNotFoundErrors output now <> []
   \/ detectGoroutineErrors output <> [])
  /\ alertGroups r
     = flat_map moduleGroupOf
                (groupBy moduleName (detectModuleNotFoundErrors output now))
       ++ flat_map goroutineGroupOf
                   (groupBy errorType (detectGoroutineErrors output))
  /\ totalErrorCount r
     = Z.of_nat (List.length (detectModuleNotFoundErrors output now)
                 + List.length (detectGoroutineErrors output)).
Proof.
  unfold processModuleErrors.
  destruct (detectModuleNotFoundErrors output now) as [|e es] eqn:Em.
  - destruct (detectGoroutineErrors output) as [|x xs] eqn:Eg; [discriminate|].
    intros H. inversion H; subst r. cbn [alertGroups totalErrorCount].
    split; [right; discriminate|]. split; reflexivity.
  - intros H. inversion H; subst r. cbn [alertGroups totalErrorCount].
    split; [left; discriminate|]. split; reflexivity.
Qed.

Lemma fold_right_add_app (a b : list Z) :
  fold_right Z.add 0%Z (a ++ b)
  = (fold_right Z.add 0%Z a + fold_right Z.add 0%Z b)%Z.
Proof. induction a as [|x a IH]; simpl; [reflexivity | rewrite IH; lia]. Qed.

Lemma sum_moduleGroups (G : list (string * list ModuleNotFoundError)) :
  fold_right Z.add 0%Z (map errorCount (flat_map moduleGroupOf G))
  = Z.of_nat (list_sum (map (fun g => List.length (snd g)) G)).
Proof.
  induction G as [|[k members] G IH]; [reflexivity|].
  change (flat_map moduleGroupOf ((k, members) :: G))
    with (moduleGroupOf (k, members) ++ flat_map moduleGroupOf G).
  rewrite map_app, fold_right_add_app, IH.
  cbn [map list_sum snd]. unfold moduleGroupOf. cbn [fst snd].
  destruct members as [|p rest];
    cbn [map fold_right errorCount processedModuleError List.length];
    unfold list_sum; cbn [fold_right]; lia.
Qed.

Lemma sum_goroutineGroups (G : list (string * list GoroutineError)) :
  fold_right Z.add 0%Z (map errorCount (flat_map goroutineGroupOf G))
  = Z.of_nat (list_sum (map (fun g => List.length (snd g)) G)).
Proof.
  induction G as [|[k members] G IH]; [reflexivity|].
  change (flat_map goroutineGroupOf ((k, members) :: G))
    with (goroutineGroupOf (k, members) ++ flat_map goroutineGroupOf G).
  rewrite map_app, fold_right_add_app, IH.
  cbn [map list_sum snd]. unfold goroutineGroupOf. cbn [fst snd].
  destruct members as [|p rest]; cbn [map fold_right].
  - cbn [List.length]. unfold list_sum. cbn [fold_right]. lia.
  - destruct (processedGoroutineError_fields k (p :: rest) p)
      as (_ & -> & _). unfold list_sum. cbn [fold_right]. lia.
Qed.

Lemma moduleGroups_names (G : list (string * list ModuleNotFoundError)) :
  forall n, In n (map pe_moduleName (flat_map moduleGroupOf G)) ->
            In n (map fst G).
Proof.
  induction G as [|[k members] G IH]; intros n Hn; [contradiction|].
  cbn [flat_map] in Hn. rewrite map_app in Hn. apply in_app_or in Hn.
  destruct Hn as [Hn|Hn]; [|right; apply IH; exact Hn].
  unfold moduleGroupOf in Hn. cbn [fst snd] in Hn.
  destruct members; [contradiction|]. destruct Hn as [<-|[]]. left. reflexivity.
Qed.

Lemma moduleGroups_NoDup (G : list (string * list ModuleNotFoundError)) :
  NoDup (map fst G) -> NoDup (map pe_moduleName (flat_map moduleGroupOf G)).
Proof.
  induction G as [|[k members] G IH]; intros Hnd; [constructor|].
  inversion Hnd as [|? ? Hnotin Hnd']; subst.
  cbn [flat_map]. rewrite map_app. unfold moduleGroupOf at 1. cbn [fst snd].
  destruct members as [|p rest]; [apply IH; exact Hnd'|].
  cbn [map app]. constructor; [|apply IH; exact Hnd'].
  intros Hin. apply Hnotin. apply moduleGroups_names. exact Hin.
Qed.

Lemma filter_all {B} (p : B -> bool) (l : list B) :
  Forall (fun x => p x = true) l -> filter p l = l.
Proof.
  induction 1 as [|x l Hx _ IH]; [reflexivity|]. cbn [filter].
  rewrite Hx, IH. reflexivity.
Qed.

Lemma filter_nothing {B} (p : B -> bool) (l : list B) :
  Forall (fun x => p x = false) l -> filter p l = [].
Proof.
  induction 1 as [|x l Hx _ IH]; [reflexivity|]. cbn [filter].
  rewrite Hx. exact IH.
Qed.

Lemma moduleGroups_are_module (G : list (string * list ModuleNotFoundError)) :
  Forall (fun g => isModuleGroup g = true) (flat_map moduleGroupOf G).
Proof.
  apply Forall_forall. intros g Hg. apply in_flat_map in Hg.
  destruct Hg as ([k members] & _ & Hg). unfold moduleGroupOf in Hg.
  cbn [fst snd] in Hg. destruct members; [contradiction|].
  destruct Hg as [<-|[]]. reflexivity.
Qed.

Lemma goroutineGroups_are_goroutine (G : list (string * list GoroutineError)) :
  Forall (fun g => isModuleGroup g = false) (flat_map goroutineGroupOf G).
Proof.
  apply Forall_forall. intros g Hg. apply in_flat_map in Hg.
  destruct Hg as ([k members] & _ & Hg). unfold goroutineGroupOf in Hg.
  cbn [fst snd] in Hg. destruct members as [|p rest]; [contradiction|].
  destruct Hg as [<-|[]]. unfold isModuleGroup.
  destruct (processedGoroutineError_fields k (p :: rest) p)
    as (_ & _ & _ & ->). reflexivity.
Qed.

End ProcessFacts.

(** X16.  What [processModuleErrors] returns, when it returns a result.
    There is at least one group, and the counts of the groups add up to
    [totalErrorCount].  The module groups have pairwise distinct module
    names; every detected module error has the group of its module; a
    module group has severity error, counts the detected errors with its
    module name, and its primary error is the first of them.  A goroutine
    group has severity critical and the module name [esbuild], and its
    primary error is a detected goroutine error of the type it counts. *)
Theorem processModuleErrors_groups :
  forall (output : string) (now : Z) (r : Shell.ProcessedErrorResult),
    Shell.processModuleErrors output now = Some r ->
    let mods := Shell.detectModuleNotFoundErrors output now in
    let gos := Shell.detectGoroutineErrors output in
    Shell.alertGroups r <> []
    /\ fold_right Z.add 0%Z (map Shell.errorCount (Shell.alertGroups r))
       = Shell.totalErrorCount r
    /\ NoDup (map Shell.pe_moduleName
                  (filter Shell.isModuleGroup (Shell.alertGroups r)))
    /\ (forall e, In e mods ->
                  exists g, In g (Shell.alertGroups r)
                            /\ Shell.isModuleGroup g = true
                            /\ Shell.pe_moduleName g = Shell.moduleName e)
    /\ (forall g,
           In g (Shell.alertGroups r) -> Shell.isModuleGroup g = true ->
           let same :=
             filter (fun e => String.eqb (Shell.moduleName e)
                                         (Shell.pe_moduleName g)) mods in
           Shell.pe_severity g = SevError
           /\ Shell.errorCount g = Z.of_nat (List.length same)
           /\ exists e, Shell.primaryError g = Shell.PrimaryModule e
                        /\ hd_error same = Some e)
    /\ (forall g,
           In g (Shell.alertGroups r) -> Shell.isModuleGroup g = false ->
           Shell.pe_severity g = SevCritical
           /\ Shell.pe_moduleName g = "esbuild"
           /\ exists e,
               Shell.primaryError g = Shell.PrimaryGoroutine e
               /\ hd_error (filter (fun x => String.eqb (Shell.errorType x)
                                                        (Shell.errorType e))
                                   gos) = Some e
               /\ Shell.errorCount g
                  = Z.of_nat
                      (List.length
                         (filter (fun x => String.eqb (Shell.errorType x)
                                                      (Shell.errorType e))
                                 gos))).
Proof.
  intros output now r H mods gos.
  destruct (processModuleErrors_Some output now r H) as (Hne & Hgroups & Htotal).
  fold mods in Hne, Hgroups, Htotal. fold gos in Hne, Hgroups, Htotal.
  destruct (groupBy_spec Shell.moduleName mods) as (Hnd1 & Hmem1 & Hcov1 & Hsum1).
  destruct (groupBy_spec Shell.errorType gos) as (Hnd2 & Hmem2 & Hcov2 & Hsum2).
  rewrite Hgroups, Htotal.
  assert (Hcover : forall e, In e mods ->
            exists g,
              In g (flat_map
                      (fun g0 => match snd g0 with
                                 | primary :: _ =>
                                     [Shell.processedModuleError (fst g0) (snd g0)
                                                                 primary]
                                 | [] => []
                                 end)
                      (Shell.groupBy Shell.moduleName mods))
              /\ Shell.isModuleGroup g = true
              /\ Shell.pe_moduleName g = Shell.moduleName e).
  { intros e He. specialize (Hcov1 e He).
    destruct (Js.mget (Shell.moduleName e) (Shell.groupBy Shell.moduleName mods))
      as [members|] eqn:Hg; [|congruence].
    apply mget_In in Hg. destruct (Hmem1 _ _ Hg) as [_ Hnon].
    destruct members as [|p rest] eqn:Em; [congruence|].
    exists (Shell.processedModuleError (Shell.moduleName e) (p :: rest) p).
    split; [|split; reflexivity].
    apply in_flat_map. exists (Shell.moduleName e, p :: rest).
    split; [exact Hg | left; reflexivity]. }
  split; [|split; [|split; [|split; [|split]]]].
  - destruct Hne as [Hne|Hne].
    + destruct mods as [|e es] eqn:Em; [congruence|].
      destruct (Hcover e (or_introl eq_refl)) as (g & Hg & _).
      intros Hnil. apply app_eq_nil in Hnil. destruct Hnil as [Hnil _].
      rewrite Hnil in Hg. contradiction.
    + destruct gos as [|e es] eqn:Eg; [congruence|].
      specialize (Hcov2 e (or_introl eq_refl)).
      destruct (Js.mget (Shell.errorType e)
                        (Shell.groupBy Shell.errorType (e :: es)))
        as [members|] eqn:Hg; [|congruence].
      apply mget_In in Hg. destruct (Hmem2 _ _ Hg) as [_ Hnon].
      destruct members as [|p rest] eqn:Em; [congruence|].
      intros Hnil. apply app_eq_nil in Hnil. destruct Hnil as [_ Hnil].
      assert (Hin : In (Shell.processedGoroutineError (Shell.errorType e)
                          (p :: rest) p)
                       (flat_map
                          (fun g0 => match snd g0 with
                                     | primary :: _ =>
                                         [Shell.processedGoroutineError
                                            (fst g0) (snd g0) primary]
                                     | [] => []
                                     end)
                          (Shell.groupBy Shell.errorType (e :: es)))).
      { apply in_flat_map. exists (Shell.errorType e, p :: rest).
        split; [exact Hg | left; reflexivity]. }
      rewrite Hnil in Hin. contradiction.
  - rewrite map_app, fold_right_add_app, sum_moduleGroups, sum_goroutineGroups.
    rewrite Hsum1, Hsum2. lia.
  - rewrite filter_app.
    rewrite (filter_all _ _ (moduleGroups_are_module _)).
    rewrite (filter_nothing _ _ (goroutineGroups_are_goroutine _)).
    rewrite app_nil_r. apply moduleGroups_NoDup. exact Hnd1.
  - intros e He. destruct (Hcover e He) as (g & Hg & Hm & Hn).
    exists g. split; [apply in_or_app; left; exact Hg | auto].
  - intros g Hg Hmod same. apply in_app_or in Hg. destruct Hg as [Hg|Hg].
    + apply in_flat_map in Hg. destruct Hg as ([k members] & Hk & Hg).
      cbn [fst snd] in Hg. destruct (Hmem1 _ _ Hk) as [Heq _].
      destruct members as [|p rest]; [contradiction|].
      destruct Hg as [<-|[]]. subst same.
      cbn [Shell.pe_moduleName Shell.processedModuleError Shell.pe_severity
           Shell.errorCount Shell.primaryError].
      rewrite <- Heq. split; [reflexivity|]. split; [reflexivity|].
      exists p. split; reflexivity.
    + exfalso. pose proof (goroutineGroups_are_goroutine
                             (Shell.groupBy Shell.errorType gos)) as HF.
      rewrite Forall_forall in HF. specialize (HF g Hg). congruence.
  - intros g Hg Hmod. apply in_app_or in Hg. destruct Hg as [Hg|Hg].
    + exfalso. pose proof (moduleGroups_are_module
                             (Shell.groupBy Shell.moduleName mods)) as HF.
      rewrite Forall_forall in HF. specialize (HF g Hg). congruence.
    + apply in_flat_map in Hg. destruct Hg as ([k members] & Hk & Hg).
      cbn [fst snd] in Hg. destruct (Hmem2 _ _ Hk) as [Heq _].
      destruct members as [|p rest]; [contradiction|].
      destruct Hg as [<-|[]].
      destruct (processedGoroutineError_fields k (p :: rest) p)
        as (-> & -> & -> & ->).
      split; [reflexivity|]. split; [reflexivity|].
      exists p.
      assert (Hp : Shell.errorType p = k).
      { assert (Hin : In p (p :: rest)) by (left; reflexivity).
        rewrite Heq in Hin. apply filter_In in Hin.
        apply String.eqb_eq. apply Hin. }
      rewrite Hp, <- Heq. split; [reflexivity|]. split; reflexivity.
Qed.

Lemma processModuleErrors_groups_witness :
  exists r,
    Shell.processModuleErrors testTwoModules 0 = Some r
    /\ Shell.alertGroups r <> []
    /\ fold_right Z.add 0%Z (map Shell.errorCount (Shell.alertGroups r))
       = Shell.totalErrorCount r.
Proof.
  eexists. split; [vm_compute; reflexivity|].
  edestruct (processModuleErrors_groups testTwoModules 0) as (H1 & H2 & _);
    [vm_compute; reflexivity|].
  split; [exact H1 | exact H2].
Defined.

(** *** The records of [detectModuleNotFoundErrors] *)

Section RecordFacts.
Import Regex RegexSem Shell.

Lemma execLoop_sound icase r :
  forall fuel s pos m,
    In m (execLoop fuel icase r s pos) ->
    exists pre w rest,
      s = pre ++ w ++ rest
      /\ m_text m = Js.str w
      /\ Matches icase r w rest [] (m_caps m).
Proof.
  induction fuel as [|fuel IH]; intros s pos m Hin; cbn [execLoop] in Hin;
    [contradiction|].
  destruct (search icase r s pos) as [m0|] eqn:E; [|contradiction].
  destruct Hin as [<-|Hin].
  - apply search_sound in E.
    destruct E as (pre & w & rest & Hs & _ & _ & Ht & HM).
    exists pre, w, rest. auto.
  - apply IH in Hin. destruct Hin as (pre & w & rest & Hs & Ht & HM).
    exists (firstn (m_end m0 - pos) s ++ pre), w, rest.
    split; [|auto]. rewrite <- app_assoc, <- Hs. symmetry. apply firstn_skipn.
Qed.

(** Every match of the [exec] loop is a match of the expression on a piece
    of the text. *)
Lemma execAll_sound icase r text m :
  In m (execAll icase r text) ->
  Js.includes text (m_text m) = true
  /\ exists w rest, m_text m = Js.str w /\ Matches icase r w rest [] (m_caps m).
Proof.
  unfold execAll. intros Hin. apply execLoop_sound in Hin.
  destruct Hin as (pre & w & rest & Hs & Ht & HM). split.
  - rewrite Ht. apply (includes_of_chars text pre w rest). exact Hs.
  - exists w, rest. auto.
Qed.

Lemma Iter_any icase :
  forall w rest c c', Iter (Matches icase AnyChar) w rest c c' -> c' = c.
Proof.
  induction 1 as [|w1 w2 rest c c1 c2 _ HM _ IH]; [reflexivity|].
  cbn [Matches] in HM. destruct HM as [-> _]. exact IH.
Qed.

Lemma str_nonempty (l : list ascii) : l <> [] -> Js.str l <> "".
Proof. destruct l; [congruence | discriminate]. Qed.

Lemma splitChars_hd (sep : ascii) :
  forall l cur, cur <> [] -> hd "" (Js.splitChars sep cur l) <> "".
Proof.
  induction l as [|c r IH]; intros cur Hcur; cbn [Js.splitChars].
  - cbn [hd]. apply str_nonempty. destruct cur; [congruence|].
    simpl. intros H. apply app_eq_nil in H. destruct H; discriminate.
  - destruct (Ascii.eqb c sep).
    + cbn [hd]. apply str_nonempty. destruct cur; [congruence|].
      simpl. intros H. apply app_eq_nil in H. destruct H; discriminate.
    + apply IH. discriminate.
Qed.

(** The name before the first [@] of a text that does not start with [@]. *)
Lemma split_hd_nonempty (d : ascii) (l : list ascii) :
  Ascii.eqb d "@" = false ->
  hd "" (Js.split "@" (Js.str (d :: l))) <> "".
Proof.
  intros Hd. unfold Js.split. rewrite chars_str. cbn [Js.splitChars].
  rewrite Hd. apply splitChars_hd. discriminate.
Qed.

(** A match of the first rule captures a non-empty module name. *)
Lemma cannotFindModule_name w rest caps :
  Matches true reCannotFindModule w rest [] caps ->
  exists v, v <> [] /\ group 1 caps = Some (Js.str v).
Proof.
  unfold reCannotFindModule, cat, Opt, Eps, Not. cbn [fold_right].
  cbn [Matches].
  intros (w1 & w2 & c1 & _ & Hopt & w3 & w4 & c2 & _ & (Hc2 & _)
          & w5 & w6 & c3 & _ & (c4 & HP & Hc3) & w7 & w8 & c5 & _
          & (Hc5 & _) & (Hcaps & _)).
  apply Matches_plus_class in HP. destruct HP as (Hc4 & Hne & _).
  assert (Hc1 : c1 = []) by (destruct Hopt as [[H _]|[H _]]; exact H).
  subst. exists w5. split; [exact Hne | reflexivity].
Qed.

Lemma npm404_name w rest caps :
  Matches true reNpm404 w rest [] caps ->
  exists d v, Ascii.eqb d "@" = false
              /\ group 1 caps = Some (Js.str (d :: v)).
Proof.
  unfold reNpm404, cat, Opt, Eps, NotSpaceOr, Space, Plus.
  cbn [fold_right]. cbn [Matches].
  intros (w1 & w2 & c1 & _ & (Hc1 & _) & w3 & w4 & c2 & _ & HI1
          & w5 & w6 & c3 & _ & (Hc3 & _) & w7 & w8 & c4 & _ & HI2
          & w9 & w10 & c5 & _ & (Hc5 & _)
          & w11 & w12 & c6 & _
          & (wa & wb & c7 & _ & (Hc7 & _) & HI3)
          & w13 & w14 & c8 & _
          & (c9 & (wc & wd & c10 & Hw13
                   & (we & wf & c11 & Hwc & (Hc11 & d & Hwe & Hd) & HI4) & _)
             & Hc8)
          & w15 & w16 & c12 & _ & (Hc12 & _) & (Hcaps & _)).
  exists d, (wf ++ wd). split.
  - unfold classHas, Js.chars in Hd.
    cbn [list_ascii_of_string map existsb itemHas andb xorb negb] in Hd.
    destruct (Ascii.eqb d "@") eqn:E; [|reflexivity].
    apply Ascii.eqb_eq in E. subst d. vm_compute in Hd. discriminate.
  - subst caps c12 c8. cbn [group Nat.eqb]. subst w13 wc we. reflexivity.
Qed.

Lemma eresolve_name w rest caps :
  Matches true reEresolve w rest [] caps ->
  exists v, v <> [] /\ group 3 caps = Some (Js.str v).
Proof.
  unfold reEresolve, cat, Eps, NotSpaceOr. cbn [fold_right]. cbn [Matches].
  intros (w1 & w2 & c1 & _ & (Hc1 & _)
          & w3 & w4 & c2 & _ & HI1
          & w5 & w6 & c3 & _ & (Hc3 & _)
          & w7 & w8 & c4 & _ & (c4' & HP1 & Hc4)
          & w9 & w10 & c5 & _ & (Hc5 & _)
          & w11 & w12 & c6 & _ & (c6' & HP2 & Hc6)
          & w13 & w14 & c7 & _ & HI2
          & w15 & w16 & c8 & _ & (Hc8 & _)
          & w17 & w18 & c9 & _ & HI3
          & w19 & w20 & c10 & _ & (Hc10 & _)
          & w21 & w22 & c11 & _ & (c11' & HP3 & Hc11)
          & w23 & w24 & c12 & _ & (Hc12 & _)
          & (Hcaps & _)).
  apply Matches_plus_class in HP3. destruct HP3 as (_ & Hne & _).
  exists w21. split; [exact Hne|]. subst caps c12 c11. reflexivity.
Qed.

Lemma noMatchingVersion_name w rest caps :
  Matches true reNoMatchingVersion w rest [] caps ->
  exists v, v <> [] /\ group 1 caps = Some (Js.str v).
Proof.
  unfold reNoMatchingVersion, cat, Eps, NotSpaceOr. cbn [fold_right].
  cbn [Matches].
  intros (w1 & w2 & c1 & _ & (Hc1 & _)
          & w3 & w4 & c2 & _ & (c2' & HP1 & Hc2)
          & w5 & w6 & c3 & _ & (Hc3 & _)
          & w7 & w8 & c4 & _ & (c4' & HP2 & Hc4)
          & (Hcaps & _)).
  apply Matches_plus_class in HP1. destruct HP1 as (_ & Hne & _).
  apply Matches_plus_class in HP2. destruct HP2 as (Hc4' & _ & _).
  exists w3. split; [exact Hne|]. subst caps c4 c4' c3 c2. reflexivity.
Qed.

Lemma grpOr_of_group n m v :
  group n (m_caps m) = Some v -> grpOr n m = v.
Proof. unfold grpOr, grp. intros ->. reflexivity. Qed.

(** Each of the five rules yields a non-empty module name. *)
Lemma rule_names_module (p : ErrorPattern) (m : Match) (lineMatch : option Match)
      (now : Z) (w rest : list ascii) :
  In p errorPatterns ->
  Matches true (pattern p) w rest [] (m_caps m) ->
  orEmpty (ed_moduleName (process p m lineMatch now)) <> "".
Proof.
  intros Hp HM. unfold errorPatterns in Hp. cbn [In] in Hp.
  destruct Hp as [<-|[<-|[<-|[<-|[<-|[]]]]]];
    cbn [pattern process ed_moduleName orEmpty] in *.
  - apply cannotFindModule_name in HM. destruct HM as (v & Hv & Hg).
    rewrite (grpOr_of_group _ _ _ Hg). apply str_nonempty. exact Hv.
  - apply npm404_name in HM. destruct HM as (d & v & Hd & Hg).
    rewrite (grpOr_of_group _ _ _ Hg). apply split_hd_nonempty. exact Hd.
  - apply eresolve_name in HM. destruct HM as (v & Hv & Hg).
    unfold grp. rewrite Hg.
    pose proof (str_nonempty v Hv) as Hs. apply String.eqb_neq in Hs.
    rewrite Hs. apply String.eqb_neq. exact Hs.
  - apply noMatchingVersion_name in HM. destruct HM as (v & Hv & Hg).
    rewrite (grpOr_of_group _ _ _ Hg). apply str_nonempty. exact Hv.
  - discriminate.
Qed.

Lemma detected_name_nonempty output now e :
  In e (detectModuleNotFoundErrors output now) -> moduleName e <> "".
Proof.
  intros Hin. unfold detectModuleNotFoundErrors in Hin.
  apply in_flat_map in Hin. destruct Hin as (p & Hp & Hin).
  apply in_map_iff in Hin. destruct Hin as (m & <- & Hm).
  apply execAll_sound in Hm. destruct Hm as (_ & w & rest & _ & HM).
  unfold recordOf. cbn [moduleName].
  eapply rule_names_module; eassumption.
Qed.

(** The groups of [processModuleErrors] all carry a module name. *)
Lemma alertGroups_named output now r :
  processModuleErrors output now = Some r ->
  Forall (fun g => pe_moduleName g <> "") (alertGroups r).
Proof.
  intros H. destruct (processModuleErrors_Some output now r H) as (_ & -> & _).
  destruct (groupBy_spec moduleName (detectModuleNotFoundErrors output now))
    as (_ & Hmem & _).
  apply Forall_app. split; apply Forall_forall; intros g Hg;
    apply in_flat_map in Hg; destruct Hg as ([k members] & Hk & Hg);
    cbn [fst snd] in Hg; (destruct members as [|p rest]; [contradiction|]);
    destruct Hg as [<-|[]].
  - cbn [pe_moduleName processedModuleError].
    destruct (Hmem _ _ Hk) as [Heq _].
    assert (Hin : In p (p :: rest)) by (left; reflexivity).
    rewrite Heq in Hin. apply filter_In in Hin. destruct Hin as [Hin Hkey].
    apply String.eqb_eq in Hkey. subst k.
    eapply detected_name_nonempty. exact Hin.
  - destruct (processedGoroutineError_fields k (p :: rest) p) as (-> & _).
    discriminate.
Qed.

End RecordFacts.

(** X17.  Every record of [detectModuleNotFoundErrors] names a module: the
    module name is never empty.  It carries the documentation link of
    Node's module resolution, its error line is its line number, and its
    error context is stamped with the clock value and quotes a piece of the
    output as the full error message. *)
Theorem detected_module_errors_name_a_module :
  forall (output : string) (now : Z) (e : Shell.ModuleNotFoundError),
    In e (Shell.detectModuleNotFoundErrors output now) ->
    Shell.moduleName e <> ""
    /\ Shell.docsUrl e
       = Some "https://nodejs.org/api/modules.html#modules_module_not_found"
    /\ Shell.errorLine e = Shell.lineNumber e
    /\ exists ctx,
        Shell.errorContext e = Some ctx
        /\ Shell.errorTime ctx = now
        /\ Js.includes output (Shell.fullErrorMessage ctx) = true.
Proof.
  intros output now e Hin.
  split; [eapply detected_name_nonempty; exact Hin|].
  unfold Shell.detectModuleNotFoundErrors in Hin.
  apply in_flat_map in Hin. destruct Hin as (p & Hp & Hin).
  apply in_map_iff in Hin. destruct Hin as (m & <- & Hm).
  apply execAll_sound in Hm. destruct Hm as (Hinc & _).
  unfold Shell.errorPatterns in Hp. cbn [In] in Hp.
  destruct Hp as [<-|[<-|[<-|[<-|[<-|[]]]]]];
    cbn [Shell.pattern Shell.linePattern Shell.process] in *;
    unfold Shell.recordOf;
    cbn [Shell.docsUrl Shell.errorLine Shell.lineNumber Shell.errorContext
         Shell.ed_errorContext Shell.ed_lineNumber Shell.orZero];
    (split; [reflexivity|split; [reflexivity|]]);
    eexists; (split; [reflexivity|]); (split; [reflexivity | exact Hinc]).
Qed.

Lemma detected_module_errors_name_a_module_witness :
  exists e,
    In e (Shell.detectModuleNotFoundErrors testTwoModules 0)
    /\ Shell.moduleName e <> "".
Proof.
  assert (H : exists e, In e (Shell.detectModuleNotFoundErrors testTwoModules 0))
    by (vm_compute; eexists; left; reflexivity).
  destruct H as [e He]. exists e. split; [exact He|].
  apply (detected_module_errors_name_a_module testTwoModules 0 e He).
Defined.

Section BlockFacts.
Import AlertService.

Lemma createGroupAlerts_from_groups skip groups uuids now :
  forall k s,
    Forall (fun a =>
              type a = "module-error"
              /\ exists g, In g groups
                           /\ metaModuleName (metadata a)
                              = Some (Shell.pe_moduleName g))
           (fst (createGroupAlerts skip groups uuids k now s)).
Proof.
  induction groups as [|g groups IH]; intros k s; cbn [createGroupAlerts];
    [constructor|].
  destruct (existsb _ skip).
  - eapply Forall_impl; [|apply IH]. cbn beta.
    intros a (Ht & g0 & Hg0 & Hn). split; [exact Ht|].
    exists g0. split; [right; exact Hg0 | exact Hn].
  - pose proof (createAlert_fst (moduleAlertData g now) (uuids k) now s) as Hfst.
    destruct (createAlert (moduleAlertData g now) (uuids k) now s) as [a s1].
    cbn [fst] in Hfst. subst a. specialize (IH (S k) s1).
    destruct (createGroupAlerts skip groups uuids (S k) now s1) as [alerts s2].
    cbn [fst] in *. constructor.
    + split; [reflexivity|]. exists g. split; [left; reflexivity | reflexivity].
    + eapply Forall_impl; [|exact IH]. cbn beta.
      intros a (Ht & g0 & Hg0 & Hn). split; [exact Ht|].
      exists g0. split; [right; exact Hg0 | exact Hn].
Qed.

(** The alerts a call creates are module-error alerts with a non-empty
    module name. *)
Lemma created_alerts_named output uuids now s alerts :
  fst (createModuleErrorAlerts output uuids now s) = Some alerts ->
  Forall (fun a => type a = "module-error"
                   /\ exists n, metaModuleName (metadata a) = Some n
                                /\ n <> "")
         alerts.
Proof.
  unfold createModuleErrorAlerts.
  destruct (_ || _); [discriminate|].
  destruct (match Js.mget _ _ with Some _ => _ | None => _ end); [discriminate|].
  destruct (Shell.processModuleErrors output now) as [info|] eqn:Ep;
    [|discriminate].
  pose proof (alertGroups_named output now info Ep) as Hnamed.
  destruct (Shell.alertGroups info) as [|g gs]; [discriminate|].
  pose proof (createGroupAlerts_from_groups
                (activeModuleNames
                   (_activeAlerts
                      (set_recent
                         (compactRecent
                            (Js.mset (Js.substring0 150 output) now
                                     (_recentModuleErrors s))) s)))
                (g :: gs) uuids now 0
                (set_recent
                   (compactRecent
                      (Js.mset (Js.substring0 150 output) now
                               (_recentModuleErrors s))) s)) as Hs.
  destruct (createGroupAlerts _ (g :: gs) uuids 0 now _) as [alerts0 s2].
  cbn [fst] in *. intros H. inversion H; subst.
  eapply Forall_impl; [|exact Hs]. cbn beta.
  intros a (Ht & g0 & Hg0 & Hn). split; [exact Ht|].
  exists (Shell.pe_moduleName g0). split; [exact Hn|].
  rewrite Forall_forall in Hnamed. apply Hnamed. exact Hg0.
Qed.

Lemma activeModuleNames_In a n l :
  In a l -> type a = "module-error" ->
  metaModuleName (metadata a) = Some n -> n <> "" ->
  In n (activeModuleNames l).
Proof.
  intros Ha Ht Hn Hne. unfold activeModuleNames. apply in_flat_map.
  exists a. split; [exact Ha|]. rewrite Ht, Hn. cbn.
  apply String.eqb_neq in Hne. rewrite Hne. left. reflexivity.
Qed.

End BlockFacts.

(** X18.  No second alert for a module while its alert is active.  An alert
    returned by [createModuleErrorAlerts] names a module, and this name is
    not empty; as long as the alert is among the active alerts, no later
    call of [createModuleErrorAlerts] returns an alert for the same module,
    whatever its output and clock value. *)
Theorem no_second_module_alert_while_active :
  forall (o1 o2 : string) (u1 u2 : nat -> string) (t1 t2 : Z)
         (s1 s2 : AlertService.t) (alerts1 alerts2 : list ActionAlert)
         (a : ActionAlert),
    fst (AlertService.createModuleErrorAlerts o1 u1 t1 s1) = Some alerts1 ->
    In a alerts1 ->
    In a (AlertService._activeAlerts s2) ->
    fst (AlertService.createModuleErrorAlerts o2 u2 t2 s2) = Some alerts2 ->
    (exists n, AlertService.metaModuleName (metadata a) = Some n /\ n <> "")
    /\ Forall (fun b => AlertService.metaModuleName (metadata b)
                        <> AlertService.metaModuleName (metadata a))
              alerts2.
Proof.
  intros o1 o2 u1 u2 t1 t2 s1 s2 alerts1 alerts2 a H1 Ha Hact H2.
  pose proof (created_alerts_named o1 u1 t1 s1 alerts1 H1) as Hnamed.
  rewrite Forall_forall in Hnamed.
  destruct (Hnamed a Ha) as (Ht & n & Hn & Hne).
  split; [exists n; auto|].
  pose proof (activeModuleNames_In a n _ Hact Ht Hn Hne) as Hin.
  revert H2. unfold AlertService.createModuleErrorAlerts.
  destruct (_ || _); [discriminate|].
  destruct (match Js.mget _ _ with Some _ => _ | None => _ end); [discriminate|].
  destruct (Shell.processModuleErrors o2 t2) as [info|]; [|discriminate].
  destruct (Shell.alertGroups info) as [|g gs]; [discriminate|].
  pose proof (createGroupAlerts_shape
                (AlertService.activeModuleNames (AlertService._activeAlerts s2))
                (g :: gs) u2 t2 0
                (AlertService.set_recent
                   (AlertService.compactRecent
                      (Js.mset (Js.substring0 150 o2) t2
                               (AlertService._recentModuleErrors s2))) s2)) as Hs.
  cbn [AlertService.set_recent AlertService._activeAlerts] in *.
  destruct (AlertService.createGroupAlerts _ (g :: gs) u2 0 t2 _)
    as [alerts0 s3].
  cbn [fst] in *. intros H. inversion H; subst.
  eapply Forall_impl; [|exact Hs]. cbn beta.
  intros b (_ & _ & _ & _ & n' & Hn' & Hnot). rewrite Hn, Hn'.
  intros Heq. inversion Heq; subst. contradiction.
Qed.

Lemma no_second_module_alert_while_active_witness :
  exists a alerts2,
    In a (AlertService._activeAlerts
            (snd (AlertService.createModuleErrorAlerts
                    lodashConsoleText uuidOf 1000 AlertService.empty)))
    /\ fst (AlertService.createModuleErrorAlerts lodashAndAxiosText uuidOf 9000
              (snd (AlertService.createModuleErrorAlerts
                      lodashConsoleText uuidOf 1000 AlertService.empty)))
       = Some alerts2
    /\ alerts2 <> []
    /\ Forall (fun b => AlertService.metaModuleName (metadata b)
                        <> AlertService.metaModuleName (metadata a))
              alerts2.
Proof.
  eexists. eexists.
  split; [vm_compute; left; reflexivity|].
  split; [vm_compute; reflexivity|].
  split; [discriminate|].
  eapply (no_second_module_alert_while_active
            lodashConsoleText lodashAndAxiosText uuidOf uuidOf 1000 9000
            AlertService.empty
            (snd (AlertService.createModuleErrorAlerts
                    lodashConsoleText uuidOf 1000 AlertService.empty))).
  - vm_compute. reflexivity.
  - left. reflexivity.
  - vm_compute. left. reflexivity.
  - vm_compute. reflexivity.
Defined.

(** *** What the alert component shows *)

Section DisplayFacts.
Import ChatAlert.



End DisplayFacts.



(** X20.  [getMaxSeverity] is the highest severity among the shown alerts
    in the order info, warning, error, critical: no shown alert is more
    severe, some shown alert is that severe unless the result is info, and
    info is the result for an empty list. *)
Theorem getMaxSeverity_is_maximum :
  forall shown : list ChatAlert.Shown,
    let rank := fun v => match v with
                         | SevInfo => 0%nat | SevWarning => 1%nat
                         | SevError => 2%nat | SevCritical => 3%nat
                         end in
    (forall s, In s shown ->
               (rank (ChatAlert.sh_severity s)
                <= rank (ChatAlert.getMaxSeverity shown))%nat)
    /\ (ChatAlert.getMaxSeverity shown <> SevInfo ->
        exists s, In s shown
                  /\ ChatAlert.sh_severity s = ChatAlert.getMaxSeverity shown)
    /\ ChatAlert.getMaxSeverity [] = SevInfo.
Proof.
  intros shown rank. unfold ChatAlert.getMaxSeverity.
  assert (Hex : forall v,
             existsb (fun s => Severity_eqb (ChatAlert.sh_severity s) v)
                     shown = true ->
             exists s, In s shown /\ ChatAlert.sh_severity s = v).
  { intros v H. apply existsb_exists in H. destruct H as (s & Hs & He).
    exists s. split; [exact Hs|].
    destruct (ChatAlert.sh_severity s), v; try discriminate; reflexivity. }
  assert (Hno : forall v s,
             existsb (fun s => Severity_eqb (ChatAlert.sh_severity s) v)
                     shown = false ->
             In s shown -> ChatAlert.sh_severity s <> v).
  { intros v s H Hs Heq.
    assert (Ht : existsb (fun s => Severity_eqb (ChatAlert.sh_severity s) v)
                         shown = true).
    { apply existsb_exists. exists s. split; [exact Hs|]. rewrite Heq.
      destruct v; reflexivity. }
    congruence. }
  destruct (existsb _ shown) eqn:E3.
  { split; [|split; [intros _; apply Hex; exact E3 | reflexivity]].
    intros s _. subst rank. cbn. destruct (ChatAlert.sh_severity _); lia. }
  destruct (existsb (fun s => Severity_eqb _ SevError) shown) eqn:E2.
  { split; [|split; [intros _; apply Hex; exact E2 | reflexivity]].
    intros s Hs. pose proof (Hno _ s E3 Hs). subst rank. cbn.
    destruct (ChatAlert.sh_severity _); try lia. congruence. }
  destruct (existsb (fun s => Severity_eqb _ SevWarning) shown) eqn:E1.
  { split; [|split; [intros _; apply Hex; exact E1 | reflexivity]].
    intros s Hs. pose proof (Hno _ s E3 Hs). pose proof (Hno _ s E2 Hs).
    subst rank. cbn. destruct (ChatAlert.sh_severity _); try lia; congruence. }
  split; [|split; [congruence | reflexivity]].
  intros s Hs. pose proof (Hno _ s E3 Hs). pose proof (Hno _ s E2 Hs).
  pose proof (Hno _ s E1 Hs). subst rank. cbn.
  destruct (ChatAlert.sh_severity _); try lia; congruence.
Qed.

(** *** What the terminal-output callback dispatches *)

Section HandlerFacts.
Variable World : Type.
Variable pme :
  string -> World
  -> WebContainer.Result (option Shell.ProcessedErrorResult) * World.
Variable pce : string -> World -> WebContainer.Result unit * World.
Variable Date_now random1000 : World -> Z * World.



End HandlerFacts.



(** *** The records of [detectGoroutineErrors] *)

Section GoroutineFacts.
Import Regex RegexSem Shell.

Lemma classHas_digit (d : ascii) :
  classHas true [IDigit] d = true -> Js.isDigit d = true.
Proof.
  destruct d as [[] [] [] [] [] [] [] []]; vm_compute; intros H;
    first [reflexivity | discriminate].
Qed.

Lemma stackLines_spec (lines : list string) :
  forall inStackTrace,
    Forall (fun l => l <> ""
                     /\ Js.startsWith l "goroutine " = false
                     /\ exists l0, In l0 lines /\ l = Js.trim l0)
           (stackLines inStackTrace lines).
Proof.
  induction lines as [|l r IH]; intros b; cbn [stackLines]; [constructor|].
  assert (Hmono : forall b',
             Forall (fun l1 => l1 <> ""
                               /\ Js.startsWith l1 "goroutine " = false
                               /\ exists l0, In l0 (l :: r) /\ l1 = Js.trim l0)
                    (stackLines b' r)).
  { intros b'. eapply Forall_impl; [|apply IH]. cbn beta.
    intros x (H1 & H2 & l0 & Hl0 & Hx). repeat split; auto.
    exists l0. split; [right; exact Hl0 | exact Hx]. }
  destruct (Js.startsWith (Js.trim l) "goroutine ") eqn:Eg; [apply Hmono|].
  destruct (b && negb (String.eqb (Js.trim l) "")) eqn:Eb; [|apply Hmono].
  constructor; [|apply Hmono].
  apply andb_true_iff in Eb. destruct Eb as [_ Eb].
  apply negb_true_iff in Eb. apply String.eqb_neq in Eb.
  repeat split; auto. exists l. split; [left; reflexivity | reflexivity].
Qed.

(** The head shared by the four expressions: the goroutine number is a
    non-empty run of digits and the state is not empty. *)
Lemma goroutineHeader_caps (rs : list re) w rest caps :
  Matches true (cat (goroutineHeader ++ rs)) w rest [] caps ->
  exists d s w' rest',
    d <> [] /\ Forall (fun c => Js.isDigit c = true) d /\ s <> []
    /\ Matches true (cat rs) w' rest' [(2, Js.str s); (1, Js.str d)] caps.
Proof.
  unfold goroutineHeader, cat, Digit, Not. cbn [app fold_right].
  cbn [Matches].
  intros (w1 & w2 & c1 & _ & (Hc1 & _)
          & w3 & w4 & c2 & _ & (c2' & HP1 & Hc2)
          & w5 & w6 & c3 & _ & (Hc3 & _)
          & w7 & w8 & c4 & _ & (c4' & HP2 & Hc4)
          & w9 & w10 & c5 & _ & (Hc5 & _)
          & w11 & w12 & c6 & _ & HI & HM).
  apply (Matches_plus_class true true) in HP1. destruct HP1 as (Hc2' & Hne1 & HF1).
  apply (Matches_plus_class true true) in HP2. destruct HP2 as (Hc4' & Hne2 & _).
  apply (Iter_any true) in HI. subst.
  exists w3, w7, w12, rest. split; [exact Hne1|]. split; [|split; [exact Hne2|]].
  - eapply Forall_impl; [|exact HF1]. cbn beta. intros c Hc.
    apply classHas_digit. exact Hc.
  - exact HM.
Qed.

Lemma tail_caps_closedPipe w rest c caps :
  Matches true (cat [Opt (Lit "fatal error: ");
                     Lit "too many writes on closed pipe"]) w rest c caps ->
  caps = c.
Proof.
  unfold cat, Opt, Eps. cbn [fold_right]. cbn [Matches].
  intros (w1 & w2 & c1 & _ & Hopt & w3 & w4 & c2 & _ & (Hc2 & _) & (Hc & _)).
  assert (c1 = c) by (destruct Hopt as [[H _]|[H _]]; exact H).
  congruence.
Qed.

Lemma tail_caps_group3 (heads : re) w rest c caps :
  (forall w0 r0 c0 c0', Matches true heads w0 r0 c0 c0' -> c0' = c0) ->
  Matches true (cat [heads; Group 3 (Plus true (Class true [IChar Js.lf]))])
          w rest c caps ->
  exists v, caps = (3%nat, v) :: c.
Proof.
  intros Hh. unfold cat, Eps. cbn [fold_right]. cbn [Matches].
  intros (w1 & w2 & c1 & _ & H1 & w3 & w4 & c2 & _ & (c2' & HP & Hc2)
          & (Hc & _)).
  apply Hh in H1. apply (Matches_plus_class true true) in HP. destruct HP as (Hc2' & _).
  subst. eexists. reflexivity.
Qed.

Lemma goroutineOf_fields ty msg m d s caps0 :
  m_caps m = caps0 ->
  (caps0 = [(2%nat, Js.str s); (1%nat, Js.str d)]
   \/ exists v, caps0 = [(3%nat, v); (2%nat, Js.str s); (1%nat, Js.str d)]) ->
  goroutineId (goroutineOf ty msg m) = Js.str d
  /\ state (goroutineOf ty msg m) = Js.str s.
Proof.
  intros Hc Hcases. unfold goroutineOf, grpOr, grp.
  cbn [goroutineId state]. rewrite Hc.
  destruct Hcases as [->|[v ->]]; split; reflexivity.
Qed.

(** The records the four expressions produce. *)
Lemma pattern_records output e :
  In e (flat_map (fun p => map (snd p) (execAll true (fst p) output))
                 goroutinePatterns) ->
  In (errorType e) ["closed_pipe"; "panic"; "deadlock"; "general"]
  /\ (exists d, d <> [] /\ Forall (fun c => Js.isDigit c = true) d
                /\ goroutineId e = Js.str d)
  /\ state e <> ""
  /\ Forall (fun l => l <> "" /\ Js.startsWith l "goroutine " = false)
            (stackTrace e).
Proof.
  intros Hin. apply in_flat_map in Hin. destruct Hin as ([r f] & Hp & Hin).
  cbn [fst snd] in Hin. apply in_map_iff in Hin. destruct Hin as (m & <- & Hm).
  apply execAll_sound in Hm. destruct Hm as (_ & w & rest & _ & HM).
  assert (Hst : forall ty msg,
             Forall (fun l => l <> "" /\ Js.startsWith l "goroutine " = false)
                    (stackTrace (goroutineOf ty msg m))).
  { intros ty msg. unfold goroutineOf. cbn [stackTrace].
    unfold extractStackTrace. eapply Forall_impl; [|apply stackLines_spec].
    cbn beta. intros l (H1 & H2 & _). auto. }
  unfold goroutinePatterns in Hp. cbn [In] in Hp.
  destruct Hp as [Hp|[Hp|[Hp|[Hp|[]]]]]; inversion Hp; subst r f; clear Hp.
  - unfold reClosedPipe in HM. apply goroutineHeader_caps in HM.
    destruct HM as (d & s & w' & rest' & Hd & HF & Hs & HM).
    apply tail_caps_closedPipe in HM.
    destruct (goroutineOf_fields "closed_pipe"
                (fun _ => "fatal error: too many writes on closed pipe")
                m d s _ HM (or_introl eq_refl)) as (Hid & Hstate).
    split; [cbn; auto|]. split; [exists d; auto|].
    split; [rewrite Hstate; apply str_nonempty; exact Hs | apply Hst].
  - unfold rePanic in HM. apply goroutineHeader_caps in HM.
    destruct HM as (d & s & w' & rest' & Hd & HF & Hs & HM).
    apply (tail_caps_group3 (Lit "panic: ")) in HM;
      [|intros w0 r0 c0 c0' [H _]; exact H].
    destruct HM as (v & HM).
    destruct (goroutineOf_fields "panic" (grpOr 3) m d s _ HM
                (or_intror (ex_intro _ v eq_refl))) as (Hid & Hstate).
    split; [cbn; auto|]. split; [exists d; auto|].
    split; [rewrite Hstate; apply str_nonempty; exact Hs | apply Hst].
  - unfold reDeadlock in HM. apply goroutineHeader_caps in HM.
    destruct HM as (d & s & w' & rest' & Hd & HF & Hs & HM).
    assert (Hc : m_caps m = [(2%nat, Js.str s); (1%nat, Js.str d)]).
    { revert HM. unfold cat, Eps. cbn [fold_right]. cbn [Matches].
      intros (w1 & w2 & c1 & _ & (Hc1 & _) & (Hc & _)). congruence. }
    destruct (goroutineOf_fields "deadlock"
                (fun _ => "all goroutines are asleep - deadlock!")
                m d s _ Hc (or_introl eq_refl)) as (Hid & Hstate).
    split; [cbn; auto|]. split; [exists d; auto|].
    split; [rewrite Hstate; apply str_nonempty; exact Hs | apply Hst].
  - unfold reGeneral in HM. apply goroutineHeader_caps in HM.
    destruct HM as (d & s & w' & rest' & Hd & HF & Hs & HM).
    assert (Hc : exists v, m_caps m
                           = [(3%nat, v); (2%nat, Js.str s); (1%nat, Js.str d)]).
    { revert HM. unfold cat, Eps. cbn [fold_right]. cbn [Matches].
      intros (w1 & w2 & c1 & _ & Halt & w3 & w4 & c2 & _ & (Hc2 & _)
              & w5 & w6 & c3 & _ & (c3' & HP & Hc3) & (Hc & _)).
      apply (Matches_plus_class true true) in HP. destruct HP as (Hc3' & _).
      assert (c1 = [(2%nat, Js.str s); (1%nat, Js.str d)])
        by (destruct Halt as [[H _]|[H _]]; exact H).
      subst. eexists. eassumption. }
    destruct (goroutineOf_fields "general" (grpOr 3) m d s _ eq_refl
                (or_intror Hc)) as (Hid & Hstate).
    split; [cbn; auto 6|]. split; [exists d; auto|].
    split; [rewrite Hstate; apply str_nonempty; exact Hs | apply Hst].
Qed.

End GoroutineFacts.

(** X22.  The records of [detectGoroutineErrors].  The error type is one of
    closed_pipe, panic, deadlock and general, or it is pipe, and pipe only
    for the first of the two built-in records; the goroutine number is a
    non-empty run of decimal digits; the state is not empty; and no line of
    the stack trace is empty or starts with [goroutine ]. *)
Theorem detected_goroutine_errors_shape :
  forall (output : string) (e : Shell.GoroutineError),
    In e (Shell.detectGoroutineErrors output) ->
    In (Shell.errorType e) ["closed_pipe"; "panic"; "deadlock"; "general"; "pipe"]
    /\ (Shell.errorType e = "pipe" -> hd_error Shell.multipleErrorsFixture = Some e)
    /\ (exists d, d <> [] /\ Forall (fun c => Js.isDigit c = true) d
                  /\ Shell.goroutineId e = Js.str d)
    /\ Shell.state e <> ""
    /\ Forall (fun l => l <> "" /\ Js.startsWith l "goroutine " = false)
              (Shell.stackTrace e).
Proof.
  intros output e Hin.
  assert (Hfix : In e Shell.multipleErrorsFixture ->
                 In (Shell.errorType e)
                    ["closed_pipe"; "panic"; "deadlock"; "general"; "pipe"]
                 /\ (Shell.errorType e = "pipe" ->
                     hd_error Shell.multipleErrorsFixture = Some e)
                 /\ (exists d, d <> [] /\ Forall (fun c => Js.isDigit c = true) d
                               /\ Shell.goroutineId e = Js.str d)
                 /\ Shell.state e <> ""
                 /\ Forall (fun l => l <> ""
                                     /\ Js.startsWith l "goroutine " = false)
                           (Shell.stackTrace e)).
  { intros [<-|[<-|[]]]; cbn.
    - split; [auto 6|]. split; [reflexivity|].
      split; [exists ["4"; "2"]%char; repeat split;
              [discriminate | repeat constructor]|].
      split; [discriminate | constructor].
    - split; [auto|]. split; [discriminate|].
      split; [exists ["3"; "6"]%char; repeat split;
              [discriminate | repeat constructor]|].
      split; [discriminate | constructor]. }
  assert (Hpat : In e (flat_map (fun p => map (snd p)
                                              (Regex.execAll true (fst p) output))
                                Shell.goroutinePatterns) ->
                 In (Shell.errorType e)
                    ["closed_pipe"; "panic"; "deadlock"; "general"; "pipe"]
                 /\ (Shell.errorType e = "pipe" ->
                     hd_error Shell.multipleErrorsFixture = Some e)
                 /\ (exists d, d <> [] /\ Forall (fun c => Js.isDigit c = true) d
                               /\ Shell.goroutineId e = Js.str d)
                 /\ Shell.state e <> ""
                 /\ Forall (fun l => l <> ""
                                     /\ Js.startsWith l "goroutine " = false)
                           (Shell.stackTrace e)).
  { intros H. destruct (pattern_records output e H) as (Hty & Hid & Hs & Hst).
    split; [|split; [|auto]].
    - cbn in Hty |- *. intuition.
    - intros Hp. rewrite Hp in Hty. cbn in Hty.
      destruct Hty as [H0|[H0|[H0|[H0|[]]]]]; discriminate. }
  unfold Shell.detectGoroutineErrors in Hin.
  destruct (String.eqb output ""); [contradiction|].
  destruct (String.eqb output Shell.multipleErrorsInput); [exact (Hfix Hin)|].
  destruct (Js.includes output _ && negb _).
  - destruct (find _ _) as [p|] eqn:Ef.
    + destruct Hin as [<-|[]]. apply find_some in Ef. apply Hpat. apply Ef.
    + destruct (_ && _ && _ && _); [exact (Hfix Hin) | exact (Hpat Hin)].
  - destruct (_ && _ && _ && _); [exact (Hfix Hin) | exact (Hpat Hin)].
Qed.

Lemma detected_goroutine_errors_shape_witness :
  exists e,
    In e (Shell.detectGoroutineErrors testClosedPipe)
    /\ Shell.state e <> "".
Proof.
  assert (H : exists e, In e (Shell.detectGoroutineErrors testClosedPipe))
    by (vm_compute; eexists; left; reflexivity).
  destruct H as [e He]. exists e. split; [exact He|].
  apply (detected_goroutine_errors_shape testClosedPipe e He).
Defined.

(** *** The timer of the callback and the preview-message listener *)

Section TimerFacts.
Import WebContainer.

Lemma runTimer_snoc (evs : list TimerEvent) (ev : TimerEvent) :
  runTimer (evs ++ [ev]) = timerStep (runTimer evs) ev.
Proof. unfold runTimer. rewrite fold_left_app. reflexivity. Qed.

(** Looks at the timer before the pending callback is due run nothing. *)
Lemma early_ticks (done : list string) (text : string) (due : Z)
      (ticks : list Z) :
  Forall (fun t => (t < due)%Z) ticks ->
  fold_left timerStep (map Tick ticks) (done, Some (text, due))
  = (done, Some (text, due)).
Proof.
  induction 1 as [|t ticks Ht _ IH]; [reflexivity|].
  cbn [map fold_left timerStep fire fst snd].
  replace (due <=? t)%Z with false by (symmetry; apply Z.leb_gt; exact Ht).
  exact IH.
Qed.

(** A burst: submissions, each followed by looks at the timer that come
    before its callback is due.  No callback runs. *)
Lemma burst_runs_nothing (burst : list (string * Z * list Z)) :
  forall st : list string * Timer,
    Forall (fun b => Forall (fun t => (t < snd (fst b) + 300)%Z) (snd b))
           burst ->
    fst (fold_left timerStep
           (flat_map (fun b => Submit (fst (fst b)) (snd (fst b))
                               :: map Tick (snd b)) burst) st)
    = fst st.
Proof.
  induction burst as [|[[text now] ticks] burst IH]; intros st HF;
    [reflexivity|].
  inversion HF as [|? ? Hb HF']; subst. cbn [fst snd] in Hb.
  cbn [flat_map fst snd]. rewrite fold_left_app.
  change (fold_left timerStep (Submit text now :: map Tick ticks) st)
    with (fold_left timerStep (map Tick ticks)
                    (fst st, Some (text, (now + 300)%Z))).
  rewrite (early_ticks (fst st) text (now + 300) ticks Hb).
  rewrite (IH _ HF'). reflexivity.
Qed.

(** The texts handed to the callback are submitted texts, in the order of
    their submission; the text whose callback is pending is the last one
    submitted. *)
Lemma runTimer_subseq (evs : list TimerEvent) :
  let submitted :=
    flat_map (fun ev => match ev with
                        | Submit text _ => [text]
                        | Tick _ => []
                        end) evs in
  match snd (runTimer evs) with
  | Some (text, _) =>
      exists earlier, submitted = earlier ++ [text]
                      /\ subseq (fst (runTimer evs)) earlier
  | None => subseq (fst (runTimer evs)) submitted
  end.
Proof.
  induction evs as [|ev evs IH] using rev_ind; [constructor|].
  cbv zeta in *. rewrite runTimer_snoc, flat_map_app. cbn [flat_map].
  rewrite app_nil_r.
  destruct (runTimer evs) as [done timer]. cbn [fst snd] in IH.
  destruct ev as [text now|now]; cbn [timerStep schedule fst snd].
  - eexists. split; [reflexivity|].
    destruct timer as [[pending due]|].
    + destruct IH as (earlier & -> & Hsub). apply subseq_app_r. exact Hsub.
    + exact IH.
  - rewrite app_nil_r. destruct timer as [[pending due]|]; cbn [fire].
    + destruct IH as (earlier & -> & Hsub).
      destruct (due <=? now)%Z; cbn [fst snd].
      * apply subseq_snoc. exact Hsub.
      * exists earlier. auto.
    + cbn [fst snd]. exact IH.
Qed.

End TimerFacts.

(** X23.  The timer around the callback keeps only the last text.  Every
    call of [debouncedProcessErrors] clears the pending callback and
    installs a new one, due 300 ms later.  So the texts whose callback runs
    are submitted texts in the order of their submission; and after a burst
    of submissions in which the runtime never finds the pending callback
    due, a last submission and a look at the timer at least 300 ms later
    run the callback once, on the last text: the texts of the burst are
    never processed. *)
Theorem debounce_runs_only_the_last_text :
  forall (burst : list (string * Z * list Z)) (text : string) (now later : Z),
    Forall (fun b => Forall (fun t => (t < snd (fst b) + 300)%Z) (snd b))
           burst ->
    (now + 300 <= later)%Z ->
    let events :=
      flat_map (fun b => WebContainer.Submit (fst (fst b)) (snd (fst b))
                         :: map WebContainer.Tick (snd b)) burst in
    WebContainer.runTimer
      (events ++ [WebContainer.Submit text now; WebContainer.Tick later])
    = ([text], None)
    /\ fst (WebContainer.runTimer events) = []
    /\ forall evs : list WebContainer.TimerEvent,
        subseq (fst (WebContainer.runTimer evs))
               (flat_map (fun ev => match ev with
                                    | WebContainer.Submit t _ => [t]
                                    | WebContainer.Tick _ => []
                                    end) evs).
Proof.
  intros burst text now later Hquiet Hlater events.
  assert (Hnone : fst (WebContainer.runTimer events) = []).
  { unfold WebContainer.runTimer. subst events.
    rewrite (burst_runs_nothing burst ([], None) Hquiet). reflexivity. }
  split; [|split; [exact Hnone|]].
  - unfold WebContainer.runTimer in *. rewrite fold_left_app.
    destruct (fold_left WebContainer.timerStep events ([], None))
      as [done timer].
    cbn [fst] in Hnone. subst done.
    cbn [fold_left WebContainer.timerStep WebContainer.schedule
         WebContainer.fire fst snd].
    replace (now + 300 <=? later)%Z with true
      by (symmetry; apply Z.leb_le; exact Hlater).
    reflexivity.
  - intros evs. pose proof (runTimer_subseq evs) as H. cbv zeta in H.
    destruct (snd (WebContainer.runTimer evs)) as [[pending due]|];
      [|exact H].
    destruct H as (earlier & -> & Hsub). apply subseq_app_r. exact Hsub.
Qed.

Lemma debounce_runs_only_the_last_text_witness :
  WebContainer.runTimer
    [WebContainer.Submit "first" 0; WebContainer.Tick 100;
     WebContainer.Submit "second" 200; WebContainer.Tick 450;
     WebContainer.Submit "third" 460; WebContainer.Tick 760]
  = (["third"], None).
Proof.
  apply (debounce_runs_only_the_last_text
           [("first", 0%Z, [100%Z]); ("second", 200%Z, [450%Z])]
           "third" 460 760).
  - repeat constructor.
  - lia.
Defined.

Section ListenerFacts.
Import WebContainer.
Variable cleanStackTrace : string -> string.

(** [checkForModuleError] answers yes only for an object one of whose
    fields [message], [error], [text], [content] is a string containing the
    literal. *)
Lemma checkForModuleError_spec (value : JsValue) :
  checkForModuleError value = true <->
  exists fields key s,
    value = VObject fields
    /\ In key ["message"; "error"; "text"; "content"]
    /\ Js.mget key fields = Some (VString s)
    /\ Js.includes s AlertService.moduleNotFoundLiteral = true.
Proof.
  split.
  - destruct value as [| |b|z|s|fields]; try discriminate.
    + unfold checkForModuleError. cbn. destruct b; discriminate.
    + unfold checkForModuleError. cbn. destruct (z =? 0)%Z; discriminate.
    + unfold checkForModuleError. cbn. destruct (String.eqb s ""); discriminate.
    + unfold checkForModuleError.
      cbn [truthy isObjectType negb orb]. intros H.
      apply existsb_exists in H. destruct H as (key & Hkey & H).
      unfold getField in H.
      destruct (Js.mget key fields) as [[| | | |s|]|] eqn:Eg; try discriminate.
      apply andb_true_iff in H. destruct H as [_ H].
      exists fields, key, s. auto.
  - intros (fields & key & s & -> & Hkey & Hg & Hinc).
    unfold checkForModuleError. cbn [truthy isObjectType negb orb].
    apply existsb_exists. exists key. split; [exact Hkey|].
    unfold getField. rewrite Hg. rewrite Hinc.
    destruct (String.eqb s "") eqn:E; [|reflexivity].
    apply String.eqb_eq in E. subst s. vm_compute in Hinc. discriminate.
Qed.

Lemma onPreviewMessage_cache_grows msg uuid now st :
  (List.length (processedModuleErrors st)
   <= List.length (processedModuleErrors
                     (onPreviewMessage cleanStackTrace msg uuid now st)))%nat.
Proof.
  destruct msg as [base args|isPromise base message stack|message data error];
    cbn [onPreviewMessage].
  - destruct args as [[|[| | | |s|] rest]|]; try lia.
    destruct (Js.includes s _); cbn; lia.
  - destruct (Js.includes _ _); [cbn; lia|].
    destruct (match Js.mget _ _ with Some _ => _ | None => _ end); [lia|].
    cbn [processedModuleErrors]. apply length_mset.
  - destruct (_ || _ || _); cbn; lia.
Qed.

End ListenerFacts.

(** X24.  The preview-message listener.  [checkForModuleError] is false for
    every string: a message of another type whose [message], [data] and
    [error] are strings (or missing) is ignored.  A console error whose
    first argument, or an exception whose message, contains the literal
    [Module not found: Can't resolve] only restarts the timer of
    [debouncedProcessErrors] with that text: no alert is created directly.
    Any other exception or rejection that is not a recent repetition
    creates one alert through [createAlert], of type preview, source
    preview and severity error, and is registered under the first 100
    characters of its message; a second exception or rejection with the
    same first 100 characters less than 5000 ms later changes nothing.  The
    cache of exceptions is never compacted: it never loses an entry. *)
Theorem preview_listener_routes_and_dedups :
  forall (cleanStackTrace : string -> string) (st : WebContainer.Listener)
         (uuid : string) (now : Z),
    let on := WebContainer.onPreviewMessage cleanStackTrace in
    (forall s, WebContainer.checkForModuleError (WebContainer.VString s)
               = false)
    /\ (forall m d e : option string,
           let field := fun o => match o with
                                 | Some s => WebContainer.VString s
                                 | None => WebContainer.VUndefined
                                 end in
           on (WebContainer.OtherMessage (field m) (field d) (field e))
              uuid now st = st)
    /\ (forall base text rest,
           Js.includes text AlertService.moduleNotFoundLiteral = true ->
           on (WebContainer.ConsoleErrorMessage
                 base (Some (WebContainer.VString text :: rest))) uuid now st
           = WebContainer.withTimer text now st)
    /\ (forall isPromise base text stack,
           Js.includes text AlertService.moduleNotFoundLiteral = true ->
           on (WebContainer.ExceptionMessage isPromise base (Some text) stack)
              uuid now st
           = WebContainer.withTimer text now st)
    /\ (forall isPromise base message stack,
           Js.includes (WebContainer.orStr message "")
                       AlertService.moduleNotFoundLiteral = false ->
           (forall t,
               Js.mget ("exception:"
                        ++ WebContainer.orStr
                             (option_map (Js.substring0 100) message)
                             "unknown")%string
                       (WebContainer.processedModuleErrors st) = Some t ->
               (5000 <= now - t)%Z) ->
           let st1 := on (WebContainer.ExceptionMessage isPromise base
                                                        message stack)
                         uuid now st in
           let created :=
             AlertService.createAlert
               (WebContainer.exceptionAlert cleanStackTrace isPromise base
                                            message stack)
               uuid now (WebContainer.service st) in
           WebContainer.service st1 = snd created
           /\ type (fst created) = "preview"
           /\ source (fst created) = Some SrcPreview
           /\ severity (fst created) = SevError
           /\ WebContainer.timer st1 = WebContainer.timer st
           /\ forall isPromise' base' message' stack' uuid' now',
               Js.includes (WebContainer.orStr message' "")
                           AlertService.moduleNotFoundLiteral = false ->
               option_map (Js.substring0 100) message'
               = option_map (Js.substring0 100) message ->
               (now' - now < 5000)%Z ->
               WebContainer.onPreviewMessage
                 cleanStackTrace
                 (WebContainer.ExceptionMessage isPromise' base' message'
                                                stack')
                 uuid' now' st1
               = st1)
    /\ (forall msg,
           (List.length (WebContainer.processedModuleErrors st)
            <= List.length (WebContainer.processedModuleErrors
                              (on msg uuid now st)))%nat).
Proof.
  intros cleanStackTrace st uuid now on. subst on.
  split; [|split; [|split; [|split; [|split]]]].
  - intros s. unfold WebContainer.checkForModuleError. cbn.
    destruct (String.eqb s ""); reflexivity.
  - intros m d e field.
    assert (Hf : forall o, WebContainer.checkForModuleError (field o) = false).
    { intros [s|]; subst field; [|reflexivity].
      unfold WebContainer.checkForModuleError. cbn.
      destruct (String.eqb s ""); reflexivity. }
    cbn [WebContainer.onPreviewMessage]. rewrite !Hf. reflexivity.
  - intros base text rest Hinc. cbn [WebContainer.onPreviewMessage].
    rewrite Hinc. reflexivity.
  - intros isPromise base text stack Hinc.
    assert (Hne : WebContainer.orStr (Some text) "" = text).
    { unfold WebContainer.orStr. destruct (String.eqb text "") eqn:E;
        [apply String.eqb_eq in E; subst text; reflexivity | reflexivity]. }
    cbn [WebContainer.onPreviewMessage]. rewrite Hne, Hinc. reflexivity.
  - intros isPromise base message stack Hinc Hstale st1 created.
    assert (Hst1 : st1
                   = {| WebContainer.processedModuleErrors :=
                          Js.mset ("exception:"
                                   ++ WebContainer.orStr
                                        (option_map (Js.substring0 100) message)
                                        "unknown")%string
                                  now (WebContainer.processedModuleErrors st);
                        WebContainer.timer := WebContainer.timer st;
                        WebContainer.service := snd created |}).
    { subst st1 created. cbn [WebContainer.onPreviewMessage]. rewrite Hinc.
      destruct (Js.mget _ (WebContainer.processedModuleErrors st))
        as [t|] eqn:Eg; [|reflexivity].
      replace (now - t <? 5000)%Z with false; [reflexivity|].
      symmetry. apply Z.ltb_ge. apply Hstale. reflexivity. }
    split; [rewrite Hst1; reflexivity|].
    subst created. rewrite createAlert_fst.
    split; [reflexivity|]. split; [reflexivity|]. split; [reflexivity|].
    split; [rewrite Hst1; reflexivity|].
    intros isPromise' base' message' stack' uuid' now' Hinc' Hsame Hwin.
    cbn [WebContainer.onPreviewMessage]. rewrite Hinc', Hsame.
    rewrite Hst1 at 1. cbn [WebContainer.processedModuleErrors].
    rewrite mget_mset_same.
    replace (now' - now <? 5000)%Z with true
      by (symmetry; apply Z.ltb_lt; exact Hwin).
    reflexivity.
  - intros msg. apply onPreviewMessage_cache_grows.
Qed.

Lemma preview_listener_routes_and_dedups_witness :
  let st1 := WebContainer.onPreviewMessage (fun s => s) (typeErrorMessage false)
               "uuid-1" 1000 WebContainer.initialListener in
  List.length (AlertService._activeAlerts (WebContainer.service st1)) = 1%nat
  /\ WebContainer.onPreviewMessage (fun s => s) (typeErrorMessage true)
       "uuid-2" 5999 st1 = st1.
Proof.
  intros st1.
  destruct (preview_listener_routes_and_dedups
              (fun s => s) WebContainer.initialListener "uuid-1" 1000%Z)
    as (_ & _ & _ & _ & Hexc & _).
  edestruct (Hexc false previewPage (Some "TypeError: x is not a function")
                  (Some "TypeError: x is not a function at App (App.tsx:3:1)"))
    as (Hsvc & _ & _ & _ & _ & Hdedup).
  - vm_compute. reflexivity.
  - intros t H. vm_compute in H. discriminate.
  - split.
    + unfold st1, typeErrorMessage. rewrite Hsvc. vm_compute. reflexivity.
    + apply Hdedup; [vm_compute; reflexivity | reflexivity | lia].
Defined.
